(** * searchAPP: the similarity index and the ranking engine

A shallow embedding of the two engines of the repository,
[ImageSearchEngine] (src/app.py) and [GoogleDriveImageSearchEngine]
(src/searchAPP.py), and the properties of indexing and search that
their specification states.

Conventions.
- A Python [dict] keeps insertion order and [search] iterates over it,
  so an index is an association list with the dict operations written
  out ([dict_set] overwrites in place or appends); the order-free
  "mapping" view of an index is the [gmap] it converts to.
- A Python [float] is a rational, an infinity or NaN; comparisons follow
  IEEE 754 (every comparison with NaN is false).
- A method is a function in a state-and-exception monad over the engine
  object and the part of the outside world it touches.  A raised
  exception keeps the state changes made before it, as in Python.
- OpenCV, scikit-image, pickle, the file system and the Drive client are
  not code of the repository: they are fields of an interface record,
  and what a theorem needs of them is a hypothesis of that theorem. *)

From Stdlib Require Import QArith.
From Stdlib Require Import Sorting.Sorted.
From Stdlib Require Import Ascii DecimalString.
From stdpp Require Import base option list strings gmap.

Local Open Scope string_scope.
Local Open Scope list_scope.

(** ** Python floats *)

Inductive pyfloat : Type :=
  | F_nan
  | F_ninf
  | F_fin (q : Q)
  | F_pinf.

(** [a < b] on floats. *)
Definition float_lt (a b : pyfloat) : bool :=
  match a, b with
  | F_nan, _ | _, F_nan => false
  | F_ninf, F_ninf => false
  | F_ninf, _ => true
  | F_fin _, F_ninf => false
  | F_fin x, F_fin y => negb (Qle_bool y x)
  | F_fin _, F_pinf => true
  | F_pinf, _ => false
  end.

(** [a <= b] on floats. *)
Definition float_le (a b : pyfloat) : bool :=
  match a, b with
  | F_nan, _ | _, F_nan => false
  | F_ninf, _ => true
  | F_fin _, F_ninf => false
  | F_fin x, F_fin y => Qle_bool x y
  | F_fin _, F_pinf => true
  | F_pinf, F_pinf => true
  | F_pinf, _ => false
  end.

(** [a >= b] and [a == b] on floats. *)
Definition float_ge (a b : pyfloat) : bool := float_le b a.
Definition float_eq (a b : pyfloat) : bool := float_le a b && float_le b a.

Definition is_nan (a : pyfloat) : bool :=
  match a with F_nan => true | _ => false end.

(** ** Strings *)

(** [str.lower] on the ASCII letters. *)
Definition lower_ascii (c : ascii) : ascii :=
  let n := nat_of_ascii c in
  if (65 <=? n)%nat && (n <=? 90)%nat then ascii_of_nat (n + 32) else c.

Fixpoint lower (s : string) : string :=
  match s with
  | EmptyString => EmptyString
  | String c s' => String (lower_ascii c) (lower s')
  end.

(** [s.endswith(suffix)]. *)
Definition endswith (s suffix : string) : bool :=
  let n := String.length s in
  let m := String.length suffix in
  (m <=? n)%nat && String.eqb (String.substring (n - m) m s) suffix.

(** [s.endswith(tuple)]: some member of the tuple is a suffix. *)
Definition endswith_any (s : string) (suffixes : list string) : bool :=
  existsb (endswith s) suffixes.

(** [str(n)] for a non-negative integer. *)
Definition str_of_nat (n : nat) : string :=
  NilEmpty.string_of_uint (Nat.to_uint n).

(** ** Python dicts, in insertion order *)

Definition dict (V : Type) : Type := list (string * V).

Section Dict.
Context {V : Type}.

(** [d.get(k)] / [d[k]]. *)
Fixpoint dict_get (k : string) (d : dict V) : option V :=
  match d with
  | [] => None
  | (k', v) :: d' => if decide (k = k') then Some v else dict_get k d'
  end.

(** [k in d]. *)
Definition dict_contains (k : string) (d : dict V) : bool :=
  match dict_get k d with Some _ => true | None => false end.

(** [d[k] = v]: an existing key keeps its position, a new one goes last. *)
Fixpoint dict_set (k : string) (v : V) (d : dict V) : dict V :=
  match d with
  | [] => [(k, v)]
  | (k', v') :: d' =>
      if decide (k = k') then (k, v) :: d' else (k', v') :: dict_set k v d'
  end.

(** [d.items()], [len(d)] and the key list. *)
Definition dict_items (d : dict V) : list (string * V) := d.
Definition dict_len (d : dict V) : nat := length d.
Definition dict_keys (d : dict V) : list string := d.*1.

(** The mapping a dict denotes, order forgotten. *)
Definition dict_mapping (d : dict V) : gmap string V := list_to_map d.
End Dict.

(** ** Lists: slicing and sorting *)

(** [l[:limit]]: a negative limit counts from the end. *)
Definition slice_to {A : Type} (l : list A) (limit : Z) : list A :=
  if (0 <=? limit)%Z then take (Z.to_nat limit) l
  else take (length l - Z.to_nat (- limit)) l.

Section Sort.
Context {A : Type} (key : A -> pyfloat).

(** One insertion step of a stable descending sort: [x], which came
    before every element of [l], goes in front of the first element whose
    key is not greater than its own. *)
Fixpoint insert_desc (x : A) (l : list A) : list A :=
  match l with
  | [] => [x]
  | y :: l' =>
      if float_lt (key x) (key y) then y :: insert_desc x l' else x :: l
  end.

(** [l.sort(key=key, reverse=True)].  Python's sort is stable and compares
    keys with [<] only; with [reverse=True] equal keys keep their original
    order. *)
Definition sort_reverse (l : list A) : list A :=
  foldr insert_desc [] l.
End Sort.

(** ** Exceptions and the method monad *)

Record exn : Type := mk_exn { exn_class : string; exn_str : string }.

Inductive result (A : Type) : Type :=
  | Ok (a : A)
  | Raise (e : exn).
Arguments Ok {A} a.
Arguments Raise {A} e.

Definition M (S A : Type) : Type := S -> result A * S.

Definition ret {S A : Type} (a : A) : M S A := fun s => (Ok a, s).

Definition bind {S A B : Type} (m : M S A) (f : A -> M S B) : M S B :=
  fun s =>
    match m s with
    | (Ok a, s') => f a s'
    | (Raise e, s') => (Raise e, s')
    end.

Definition raise {S A : Type} (e : exn) : M S A := fun s => (Raise e, s).

Definition get {S : Type} : M S S := fun s => (Ok s, s).
Definition modify {S : Type} (f : S -> S) : M S unit := fun s => (Ok tt, f s).

(** A call into a library: its outcome does not depend on the state. *)
Definition lift {S A : Type} (r : result A) : M S A := fun s => (r, s).

(** [try: body  except Exception as e: handler(e)]. *)
Definition try_except {S A : Type} (body : M S A) (handler : exn -> M S A)
  : M S A :=
  fun s =>
    match body s with
    | (Ok a, s') => (Ok a, s')
    | (Raise e, s') => handler e s'
    end.

Declare Scope method_scope.
Delimit Scope method_scope with method.
Notation "x <- m ;; k" := (bind m (fun x => k))
  (at level 100, m at next level, right associativity) : method_scope.
Notation "m ;;; k" := (bind m (fun _ => k))
  (at level 100, right associativity) : method_scope.

(** [for x in l: body(x)]. *)
Fixpoint for_each {S A : Type} (l : list A) (body : A -> M S unit) : M S unit :=
  match l with
  | [] => ret tt
  | x :: l' => bind (body x) (fun _ => for_each l' body)
  end.

(** [for x in l: acc = body(x, acc)]: a loop that updates a local variable. *)
Fixpoint for_fold {S A B : Type} (l : list A) (acc : B)
    (body : A -> B -> M S B) : M S B :=
  match l with
  | [] => ret acc
  | x :: l' => bind (body x acc) (fun acc' => for_fold l' acc' body)
  end.

Local Open Scope method_scope.

(** ** Images and the libraries the engines call *)

Inductive dtype : Type := uint8 | uint16 | float64.

(** The closed interval of values of an element type. *)
Definition value_range (t : dtype) : option (Z * Z) :=
  match t with
  | uint8 => Some (0, 255)%Z
  | uint16 => Some (0, 65535)%Z
  | float64 => None
  end.

(** A numpy array: element type, shape and the elements in row-major order. *)
Record ndarray : Type := mk_ndarray {
  nd_dtype : dtype;
  nd_shape : list nat;
  nd_data : list Z
}.

Inductive color_code : Type := COLOR_BGR2GRAY | COLOR_RGB2BGR.

(** OpenCV.  [cv2.imread] and [cv2.imdecode] return [None] for what they
    cannot read; the other two raise [cv2.error]. *)
Class Cv2 : Type := {
  cv2_imread : string -> option ndarray;
  cv2_imdecode : list Byte.byte -> option ndarray;
  cv2_cvtColor : ndarray -> color_code -> result ndarray;
  cv2_resize : ndarray -> nat * nat -> result ndarray
}.

(** [skimage.metrics.structural_similarity]; raises on arrays it cannot
    compare (different shapes, too small a window). *)
Class Skimage : Type := {
  ssim : ndarray -> ndarray -> result pyfloat
}.

(** [pickle] for values of type [T], stored as a [blob]. *)
Class Pickle (T blob : Type) : Type := {
  pickle_dumps : T -> blob;
  pickle_loads : blob -> result T
}.

(** The canonical feature representation: a single-channel 256 x 256 grid
    of 8-bit intensities. *)
Definition canonical (a : ndarray) : Prop :=
  nd_shape a = [256; 256]%nat /\ value_range (nd_dtype a) = Some (0, 255)%Z.

(** What the engines rely on from OpenCV: [cv2.resize(src, (w, h))] gives an
    [h] x [w] array for a 2-D source and keeps the element type, and the
    grayscale of an 8-bit 3-channel image is a 2-D 8-bit array, as is what
    [imread] and [imdecode] (with IMREAD_COLOR) read. *)
Record Cv2_contract (C : Cv2) : Prop := {
  imread_color : forall p a, cv2_imread p = Some a ->
    nd_dtype a = uint8 /\ exists h w, nd_shape a = [h; w; 3%nat];
  imdecode_color : forall b a, cv2_imdecode b = Some a ->
    nd_dtype a = uint8 /\ exists h w, nd_shape a = [h; w; 3%nat];
  cvtColor_gray : forall a g h w, cv2_cvtColor a COLOR_BGR2GRAY = Ok g ->
    nd_shape a = [h; w; 3%nat] ->
    nd_shape g = [h; w] /\ nd_dtype g = nd_dtype a;
  resize_shape : forall g w h r h0 w0, cv2_resize g (w, h) = Ok r ->
    nd_shape g = [h0; w0] ->
    nd_shape r = [h; w] /\ nd_dtype r = nd_dtype g
}.

(** [os.path.join(a, b)] for POSIX paths. *)
Definition os_path_join (a b : string) : string :=
  if String.prefix "/" b then b
  else if String.eqb a "" || endswith a "/" then a ++ b
  else a ++ "/" ++ b.

(** ** src/app.py: [ImageSearchEngine] *)

Module ImageSearchEngine.

(** The engine object. *)
Record engine : Type := mk_engine {
  image_directory : string;
  image_features : dict ndarray;
  is_indexed : bool
}.

(** [ImageSearchEngine.__init__]. *)
Definition init (image_directory : string) : engine :=
  {| image_directory := image_directory;
     image_features := [];
     is_indexed := false |}.

Section Methods.
Context {blob : Type} {CV : Cv2} {SK : Skimage}
        {PK : Pickle (dict ndarray) blob}.
(** [os.listdir]; raises when the directory cannot be listed. *)
Context (os_listdir : string -> result (list string)).

(** The world outside the engine: the file [image_index.pkl] of the
    image directory (absent, or its content), whether that file can be
    opened for writing, and what was printed. *)
Record world : Type := mk_world {
  index_file : option blob;
  writable : bool;
  stdout : list string
}.

Record state : Type := mk_state { self : engine; env : world }.

Definition set_image_features (d : dict ndarray) : M state unit :=
  modify (fun s =>
    {| self := {| image_directory := image_directory (self s);
                  image_features := d;
                  is_indexed := is_indexed (self s) |};
       env := env s |}).

Definition set_is_indexed (b : bool) : M state unit :=
  modify (fun s =>
    {| self := {| image_directory := image_directory (self s);
                  image_features := image_features (self s);
                  is_indexed := b |};
       env := env s |}).

(** [print(msg)]. *)
Definition print (msg : string) : M state unit :=
  modify (fun s =>
    {| self := self s;
       env := {| index_file := index_file (env s);
                 writable := writable (env s);
                 stdout := stdout (env s) ++ [msg] |} |}).

(** [with open(index_file, 'rb') as f: pickle.load(f)]. *)
Definition load_index_file : M state (dict ndarray) :=
  s <- get ;;
  match index_file (env s) with
  | None => raise (mk_exn "FileNotFoundError" "image_index.pkl")
  | Some b => lift (pickle_loads b)
  end.

(** [with open(index_file, 'wb') as f: pickle.dump(obj, f)]. *)
Definition dump_index_file (obj : dict ndarray) : M state unit :=
  s <- get ;;
  if writable (env s) then
    modify (fun s =>
      {| self := self s;
         env := {| index_file := Some (pickle_dumps obj);
                   writable := writable (env s);
                   stdout := stdout (env s) |} |})
  else raise (mk_exn "PermissionError" "image_index.pkl").

(** [preprocess_image], app.py lines 19-25. *)
Definition preprocess_image (image_path : string) : M state ndarray :=
  match cv2_imread image_path with
  | None => raise (mk_exn "ValueError" ("Could not read image: " ++ image_path))
  | Some img =>
      gray <- lift (cv2_cvtColor img COLOR_BGR2GRAY) ;;
      resized <- lift (cv2_resize gray (256, 256)%nat) ;;
      ret resized
  end.

Definition image_suffixes : list string :=
  [".png"; ".jpg"; ".jpeg"; ".bmp"; ".tiff"; ".gif"].

(** The body of the loop of [build_index], lines 41-47. *)
Definition index_one (filename : string) : M state unit :=
  if endswith_any (lower filename) image_suffixes then
    s <- get ;;
    let image_path := os_path_join (image_directory (self s)) filename in
    try_except
      (processed_img <- preprocess_image image_path ;;
       s <- get ;;
       set_image_features
         (dict_set image_path processed_img (image_features (self s))))
      (fun e => print ("Error processing " ++ image_path ++ ": " ++ exn_str e))
  else ret tt.

(** [build_index], lines 27-52.  It returns nothing ([None]). *)
Definition build_index (force_rebuild : bool) : M state unit :=
  s <- get ;;
  if is_indexed (self s) && negb force_rebuild then ret tt
  else
    if bool_decide (is_Some (index_file (env s))) && negb force_rebuild then
      d <- load_index_file ;;
      set_image_features d ;;;
      set_is_indexed true ;;;
      ret tt
    else
      set_image_features [] ;;;
      names <- lift (os_listdir (image_directory (self s))) ;;
      for_each names index_one ;;;
      s <- get ;;
      dump_index_file (image_features (self s)) ;;;
      set_is_indexed true.

(** [compute_similarity], lines 54-55. *)
Definition compute_similarity (img1 img2 : ndarray) : M state pyfloat :=
  lift (ssim img1 img2).

(** The body of the loop of [search], lines 65-70. *)
Definition compare_one (query_img : ndarray) (similarity_threshold : pyfloat)
    (item : string * ndarray) (results : list (string * pyfloat))
  : M state (list (string * pyfloat)) :=
  let '(image_path, processed_img) := item in
  try_except
    (similarity <- compute_similarity query_img processed_img ;;
     if float_ge similarity similarity_threshold
     then ret (results ++ [(image_path, similarity)])
     else ret results)
    (fun e =>
       print ("Error comparing with " ++ image_path ++ ": " ++ exn_str e) ;;;
       ret results).

(** [search], lines 57-73. *)
Definition search (query_image_path : string)
    (similarity_threshold : pyfloat) (limit : Z)
  : M state (list (string * pyfloat)) :=
  s <- get ;;
  (if is_indexed (self s) then ret tt else build_index false) ;;;
  query_img <- preprocess_image query_image_path ;;
  s <- get ;;
  results <- for_fold (dict_items (image_features (self s))) []
               (compare_one query_img similarity_threshold) ;;
  ret (slice_to (sort_reverse snd results) limit).
End Methods.
End ImageSearchEngine.

(** ** src/searchAPP.py: [GoogleDriveImageSearchEngine] *)

Module GoogleDriveImageSearchEngine.

(** An entry of a Drive listing, with the fields the query asks for. *)
Record file : Type := mk_file { id : string; name : string; mimeType : string }.

(** The value stored under a file id in [image_metadata]. *)
Record metadata : Type := mk_metadata { md_name : string; md_mimeType : string }.

(** The pickled cache: a dict whose keys ['features'] and ['metadata'] may
    each be missing. *)
Record cached_data : Type := mk_cached_data {
  cd_features : option (dict ndarray);
  cd_metadata : option (dict metadata)
}.

(** The Drive client: the listing of the image files of a folder and the
    bytes of a file; both raise on a transport or API error. *)
Class Drive : Type := {
  drive_files_list : string -> result (list file);
  drive_get_media : string -> result (list Byte.byte)
}.

(** What the engine shows through streamlit. *)
Inductive ui_event : Type :=
  | St_info (msg : string)
  | St_success (msg : string)
  | St_warning (msg : string)
  | St_progress (num den : nat)
  | Status_text (msg : string)
  | Progress_empty
  | Status_empty.

(** The query passed to [search]: a PIL image (as [np.array] reads it) or
    an array that is used as it is. *)
Inductive query_image : Type :=
  | PIL_image (img_array : ndarray)
  | Array (a : ndarray).

Record engine : Type := mk_engine {
  folder_id : string;
  image_features : dict ndarray;
  image_metadata : dict metadata;
  is_indexed : bool
}.

(** [GoogleDriveImageSearchEngine.__init__]. *)
Definition init (folder_id : string) : engine :=
  {| folder_id := folder_id;
     image_features := [];
     image_metadata := [];
     is_indexed := false |}.

Section Methods.
Context {blob : Type} {CV : Cv2} {SK : Skimage} {DR : Drive}
        {PK : Pickle cached_data blob}.

(** The world outside the engine: the file [gdrive_index_cache.pkl]
    (absent, or its content), whether it can be opened for writing, and
    what the page shows and what was printed. *)
Record world : Type := mk_world {
  cache_file : option blob;
  writable : bool;
  ui : list ui_event;
  stdout : list string
}.

Record state : Type := mk_state { self : engine; env : world }.

Definition set_image_features (d : dict ndarray) : M state unit :=
  modify (fun s =>
    {| self := {| folder_id := folder_id (self s);
                  image_features := d;
                  image_metadata := image_metadata (self s);
                  is_indexed := is_indexed (self s) |};
       env := env s |}).

Definition set_image_metadata (d : dict metadata) : M state unit :=
  modify (fun s =>
    {| self := {| folder_id := folder_id (self s);
                  image_features := image_features (self s);
                  image_metadata := d;
                  is_indexed := is_indexed (self s) |};
       env := env s |}).

Definition set_is_indexed (b : bool) : M state unit :=
  modify (fun s =>
    {| self := {| folder_id := folder_id (self s);
                  image_features := image_features (self s);
                  image_metadata := image_metadata (self s);
                  is_indexed := b |};
       env := env s |}).

(** A streamlit call. *)
Definition st (ev : ui_event) : M state unit :=
  modify (fun s =>
    {| self := self s;
       env := {| cache_file := cache_file (env s);
                 writable := writable (env s);
                 ui := ui (env s) ++ [ev];
                 stdout := stdout (env s) |} |}).

(** [print(msg)]. *)
Definition print (msg : string) : M state unit :=
  modify (fun s =>
    {| self := self s;
       env := {| cache_file := cache_file (env s);
                 writable := writable (env s);
                 ui := ui (env s);
                 stdout := stdout (env s) ++ [msg] |} |}).

(** [list_images_in_folder], lines 35-43. *)
Definition list_images_in_folder : M state (list file) :=
  s <- get ;;
  lift (drive_files_list (folder_id (self s))).

(** [download_image], lines 45-56: the whole content of the file. *)
Definition download_image (file_id : string) : M state (list Byte.byte) :=
  lift (drive_get_media file_id).

(** [preprocess_image_from_buffer], lines 58-66. *)
Definition preprocess_image_from_buffer (image_buffer : list Byte.byte)
  : M state ndarray :=
  match cv2_imdecode image_buffer with
  | None => raise (mk_exn "ValueError" "Could not decode image")
  | Some img =>
      gray <- lift (cv2_cvtColor img COLOR_BGR2GRAY) ;;
      resized <- lift (cv2_resize gray (256, 256)%nat) ;;
      ret resized
  end.

(** [preprocess_pil_image], lines 68-77. *)
Definition preprocess_pil_image (img_array : ndarray) : M state ndarray :=
  img <- (match nd_shape img_array with
          | [_; _; 3%nat] => lift (cv2_cvtColor img_array COLOR_RGB2BGR)
          | _ => ret img_array
          end) ;;
  gray <- (if bool_decide (length (nd_shape img) = 3%nat)
           then lift (cv2_cvtColor img COLOR_BGR2GRAY)
           else ret img) ;;
  resized <- lift (cv2_resize gray (256, 256)%nat) ;;
  ret resized.

(** [with open(cache_file, 'rb') as f: pickle.load(f)]. *)
Definition load_cache_file : M state cached_data :=
  s <- get ;;
  match cache_file (env s) with
  | None => raise (mk_exn "FileNotFoundError" "gdrive_index_cache.pkl")
  | Some b => lift (pickle_loads b)
  end.

(** [with open(cache_file, 'wb') as f: pickle.dump(obj, f)]. *)
Definition dump_cache_file (obj : cached_data) : M state unit :=
  s <- get ;;
  if writable (env s) then
    modify (fun s =>
      {| self := self s;
         env := {| cache_file := Some (pickle_dumps obj);
                   writable := writable (env s);
                   ui := ui (env s);
                   stdout := stdout (env s) |} |})
  else raise (mk_exn "PermissionError" "gdrive_index_cache.pkl").

(** The load step of [build_index], lines 85-93. *)
Definition load_cache : M state unit :=
  s <- get ;;
  if bool_decide (is_Some (cache_file (env s))) then
    cached <- load_cache_file ;;
    set_image_features (default [] (cd_features cached)) ;;;
    set_image_metadata (default [] (cd_metadata cached))
  else
    set_image_features [] ;;;
    set_image_metadata [].

(** The save step of [build_index], lines 130-135. *)
Definition save_cache : M state unit :=
  s <- get ;;
  dump_cache_file
    {| cd_features := Some (image_features (self s));
       cd_metadata := Some (image_metadata (self s)) |}.

(** The body of the loop of [build_index], lines 111-128. *)
Definition index_one (total : nat) (item : nat * file) : M state unit :=
  let '(idx, f) := item in
  try_except
    (st (Status_text ("Processing " ++ name f ++ " ("
                      ++ str_of_nat (idx + 1) ++ "/"
                      ++ str_of_nat total ++ ")")) ;;;
     image_buffer <- download_image (id f) ;;
     processed_img <- preprocess_image_from_buffer image_buffer ;;
     s <- get ;;
     set_image_features
       (dict_set (id f) processed_img (image_features (self s))) ;;;
     s <- get ;;
     set_image_metadata
       (dict_set (id f) {| md_name := name f; md_mimeType := mimeType f |}
          (image_metadata (self s))) ;;;
     st (St_progress (idx + 1) total))
    (fun e =>
       st (St_warning ("Error processing " ++ name f ++ ": " ++ exn_str e))).

(** [enumerate(l)]. *)
Definition enumerate {A : Type} (l : list A) : list (nat * A) :=
  zip (seq 0 (length l)) l.

(** The files of a listing that are not yet in [image_metadata],
    line 101. *)
Definition new_files_of (md : dict metadata) (files : list file) : list file :=
  List.filter (fun f => negb (dict_contains (id f) md)) files.

(** [build_index], lines 80-140.  It returns nothing ([None]). *)
Definition build_index : M state unit :=
  load_cache ;;;
  files <- list_images_in_folder ;;
  match files with
  | [] => st (St_info "No images found in the folder.")
  | _ :: _ =>
      s <- get ;;
      let new_files := new_files_of (image_metadata (self s)) files in
      match new_files with
      | [] =>
          st (St_success "All images are already indexed!") ;;;
          set_is_indexed true
      | _ :: _ =>
          st (St_progress 0 1) ;;;
          for_each (enumerate new_files) (index_one (length new_files)) ;;;
          save_cache ;;;
          st Progress_empty ;;;
          st Status_empty ;;;
          st (St_success ("Indexed " ++ str_of_nat (length new_files)
                          ++ " new images successfully!")) ;;;
          set_is_indexed true
      end
  end.

(** [compute_similarity], lines 196-198. *)
Definition compute_similarity (img1 img2 : ndarray) : M state pyfloat :=
  lift (ssim img1 img2).

(** The body of the loop of [search], lines 216-221. *)
Definition compare_one (query_img : ndarray) (similarity_threshold : pyfloat)
    (item : string * ndarray) (results : list (string * pyfloat))
  : M state (list (string * pyfloat)) :=
  let '(file_id, processed_img) := item in
  try_except
    (similarity <- compute_similarity query_img processed_img ;;
     if float_ge similarity similarity_threshold
     then ret (results ++ [(file_id, similarity)])
     else ret results)
    (fun e =>
       print ("Error comparing with " ++ file_id ++ ": " ++ exn_str e) ;;;
       ret results).

(** [search], lines 200-224. *)
Definition search (query : query_image)
    (similarity_threshold : pyfloat) (limit : Z)
  : M state (list (string * pyfloat)) :=
  s <- get ;;
  (if is_indexed (self s) then ret tt else build_index) ;;;
  query_img <- (match query with
                | PIL_image img_array => preprocess_pil_image img_array
                | Array a => ret a
                end) ;;
  s <- get ;;
  results <- for_fold (dict_items (image_features (self s))) []
               (compare_one query_img similarity_threshold) ;;
  ret (slice_to (sort_reverse snd results) limit).
End Methods.
End GoogleDriveImageSearchEngine.

(** * A small concrete world

    An instance of every interface above, used to run the engines on
    explicit inputs: images are stored raw (one byte of height, one of
    width, then the pixels, three bytes each), resizing is by nearest
    neighbour, the similarity looks at the top-left pixel only, and a pickle
    is either the pickled value or bytes that do not unpickle. *)

Module Demo.

(** The pixels of a raw image file, if it is one. *)
Definition decode_raw (b : list Byte.byte) : option ndarray :=
  match map (fun x => Z.of_N (Byte.to_N x)) b with
  | h :: w :: pixels =>
      if bool_decide (length pixels = (Z.to_nat h * Z.to_nat w * 3)%nat)
      then Some {| nd_dtype := uint8;
                   nd_shape := [Z.to_nat h; Z.to_nat w; 3%nat];
                   nd_data := pixels |}
      else None
  | _ => None
  end.

(** Consecutive groups of three elements. *)
Fixpoint triples (l : list Z) : list (Z * Z * Z) :=
  match l with
  | a :: b :: c :: l' => (a, b, c) :: triples l'
  | _ => []
  end.

Definition cv2_error (msg : string) : exn := mk_exn "cv2.error" msg.

Definition cvtColor (a : ndarray) (code : color_code) : result ndarray :=
  match nd_shape a with
  | [h; w; 3%nat] =>
      match code with
      | COLOR_BGR2GRAY =>
          Ok {| nd_dtype := nd_dtype a;
                nd_shape := [h; w];
                nd_data := map (fun '(b, g, r) =>
                                  (114 * b + 587 * g + 299 * r + 500) / 1000)%Z
                               (triples (nd_data a)) |}
      | COLOR_RGB2BGR =>
          Ok {| nd_dtype := nd_dtype a;
                nd_shape := [h; w; 3%nat];
                nd_data := flat_map (fun '(r, g, b) => [b; g; r])
                                    (triples (nd_data a)) |}
      end
  | _ => Raise (cv2_error "Invalid number of channels in input image")
  end.

(** [start, start + 1, ...], [n] integers. *)
Fixpoint zrange (start : Z) (n : nat) : list Z :=
  match n with
  | O => []
  | S n' => start :: zrange (start + 1) n'
  end.

(** Nearest-neighbour resize of a 2-D array to [h] rows of [w] columns. *)
Definition resize (g : ndarray) (dsize : nat * nat) : result ndarray :=
  let '(w, h) := dsize in
  match nd_shape g with
  | [S h0; S w0] =>
      let src_h := Z.of_nat (S h0) in
      let src_w := Z.of_nat (S w0) in
      Ok {| nd_dtype := nd_dtype g;
            nd_shape := [h; w];
            nd_data :=
              flat_map
                (fun r =>
                   map (fun c =>
                          nth (Z.to_nat ((r * src_h / Z.of_nat h) * src_w
                                         + c * src_w / Z.of_nat w))
                              (nd_data g) 0)
                       (zrange 0 w))
                (zrange 0 h) |}%Z
  | _ => Raise (cv2_error "Assertion failed: !ssize.empty()")
  end.

(** The files of the image directory ["imgs"]: one-pixel images (the third a
    copy of the first), a text file, and a file with an image suffix that is
    no image. *)
Definition disk : list (string * list Byte.byte) :=
  [("imgs/a.png", [Byte.x01; Byte.x01; Byte.x0a; Byte.x0a; Byte.x0a]);
   ("imgs/b.JPG", [Byte.x01; Byte.x01; Byte.xc8; Byte.xc8; Byte.xc8]);
   ("imgs/notes.txt", [Byte.x68; Byte.x69]);
   ("imgs/bad.png", []);
   ("imgs/c.png", [Byte.x01; Byte.x01; Byte.x0a; Byte.x0a; Byte.x0a])].

Definition imread (path : string) : option ndarray :=
  match dict_get path disk with
  | Some b => decode_raw b
  | None => None
  end.

#[export] Instance cv2 : Cv2 := {|
  cv2_imread := imread;
  cv2_imdecode := decode_raw;
  cv2_cvtColor := cvtColor;
  cv2_resize := resize
|}.

Definition listdir (path : string) : result (list string) :=
  if String.eqb path "imgs"
  then Ok ["a.png"; "b.JPG"; "notes.txt"; "bad.png"; "c.png"]
  else Raise (mk_exn "FileNotFoundError" path).

(** One minus the absolute difference of the top-left pixels, scaled to the
    8-bit range; arrays of different shapes cannot be compared. *)
Definition similarity (a b : ndarray) : result pyfloat :=
  if bool_decide (nd_shape a = nd_shape b) then
    let diff := Z.abs (hd 0%Z (nd_data a) - hd 0%Z (nd_data b)) in
    Ok (F_fin (1 - (diff # 255)))
  else Raise (mk_exn "ValueError" "Input images must have the same dimensions.").

#[export] Instance skimage : Skimage := {| ssim := similarity |}.

(** A stored pickle: [None] stands for bytes that [pickle.load] rejects. *)
#[export] Instance pickle (T : Type) : Pickle T (option T) := {|
  pickle_dumps := Some;
  pickle_loads b :=
    match b with
    | Some v => Ok v
    | None => Raise (mk_exn "UnpicklingError" "invalid load key")
    end
|}.

(** The Drive folder ["F"]: the same two images and one empty file. *)
Definition folder : list GoogleDriveImageSearchEngine.file :=
  [GoogleDriveImageSearchEngine.mk_file "id-a" "a.png" "image/png";
   GoogleDriveImageSearchEngine.mk_file "id-b" "b.JPG" "image/jpeg";
   GoogleDriveImageSearchEngine.mk_file "id-bad" "bad.png" "image/png"].

Definition media (file_id : string) : result (list Byte.byte) :=
  if String.eqb file_id "id-a" then Ok [Byte.x01; Byte.x01; Byte.x0a; Byte.x0a; Byte.x0a]
  else if String.eqb file_id "id-b" then Ok [Byte.x01; Byte.x01; Byte.xc8; Byte.xc8; Byte.xc8]
  else if String.eqb file_id "id-bad" then Ok []
  else Raise (mk_exn "HttpError" "File not found").

#[export] Instance drive : GoogleDriveImageSearchEngine.Drive := {|
  GoogleDriveImageSearchEngine.drive_files_list fid :=
    if String.eqb fid "F" then Ok folder
    else Raise (mk_exn "HttpError" "File not found");
  GoogleDriveImageSearchEngine.drive_get_media := media
|}.

(** A gray level as a 2 x 2 array, for indexes written by hand. *)
Definition flat (v : Z) : ndarray :=
  {| nd_dtype := uint8; nd_shape := [2; 2]%nat; nd_data := [v; v; v; v] |}.

(** The local engine on the directory ["imgs"]: before any call, and after
    a forced rebuild. *)
Definition app_fresh : @ImageSearchEngine.state (option (dict ndarray)) :=
  {| ImageSearchEngine.self := ImageSearchEngine.init "imgs";
     ImageSearchEngine.env :=
       {| ImageSearchEngine.index_file := None;
          ImageSearchEngine.writable := true;
          ImageSearchEngine.stdout := [] |} |}.

Definition app_built : @ImageSearchEngine.state (option (dict ndarray)) :=
  snd (ImageSearchEngine.build_index listdir true app_fresh).

(** The rebuilt engine with one more entry, of another shape, in front of
    its index. *)
Definition app_stale : @ImageSearchEngine.state (option (dict ndarray)) :=
  {| ImageSearchEngine.self :=
       {| ImageSearchEngine.image_directory := "imgs";
          ImageSearchEngine.image_features :=
            ("imgs/old.png", flat 10)
            :: ImageSearchEngine.image_features (ImageSearchEngine.self app_built);
          ImageSearchEngine.is_indexed := true |};
     ImageSearchEngine.env := ImageSearchEngine.env app_built |}.

(** The same engine, indexed, with an empty index. *)
Definition app_empty : @ImageSearchEngine.state (option (dict ndarray)) :=
  {| ImageSearchEngine.self :=
       {| ImageSearchEngine.image_directory := "imgs";
          ImageSearchEngine.image_features := [];
          ImageSearchEngine.is_indexed := true |};
     ImageSearchEngine.env := ImageSearchEngine.env app_fresh |}.

(** A Drive index written by hand: two entries of the same gray level
    around a lighter one, and an entry of another shape. *)
Definition gd_index : dict ndarray :=
  [("id-x", flat 10); ("id-y", flat 200); ("id-z", flat 10);
   ("id-w", {| nd_dtype := uint8; nd_shape := [1; 1]%nat; nd_data := [10%Z] |})].

Definition gd_index_metadata : dict GoogleDriveImageSearchEngine.metadata :=
  map (fun kv => (kv.1, GoogleDriveImageSearchEngine.mk_metadata (kv.1 ++ ".png") "image/png"))
      gd_index.

(** The Drive engine on the folder ["F"] with that index loaded, with an
    empty index, and before any call. *)
Definition gd_engine (feats : dict ndarray)
    (md : dict GoogleDriveImageSearchEngine.metadata) (indexed : bool)
    (cache : option (option GoogleDriveImageSearchEngine.cached_data))
  : @GoogleDriveImageSearchEngine.state (option GoogleDriveImageSearchEngine.cached_data) :=
  {| GoogleDriveImageSearchEngine.self :=
       {| GoogleDriveImageSearchEngine.folder_id := "F";
          GoogleDriveImageSearchEngine.image_features := feats;
          GoogleDriveImageSearchEngine.image_metadata := md;
          GoogleDriveImageSearchEngine.is_indexed := indexed |};
     GoogleDriveImageSearchEngine.env :=
       {| GoogleDriveImageSearchEngine.cache_file := cache;
          GoogleDriveImageSearchEngine.writable := true;
          GoogleDriveImageSearchEngine.ui := [];
          GoogleDriveImageSearchEngine.stdout := [] |} |}.

Definition gd_loaded := gd_engine gd_index gd_index_metadata true None.
Definition gd_loaded_good := gd_engine (take 3 gd_index) gd_index_metadata true None.
Definition gd_empty := gd_engine [] [] true None.
Definition gd_fresh := gd_engine [] [] false None.

(** Engines that find a snapshot: a well-formed one, and one that does not
    unpickle. *)
Definition app_with_file (file : option (dict ndarray))
  : @ImageSearchEngine.state (option (dict ndarray)) :=
  {| ImageSearchEngine.self := ImageSearchEngine.init "imgs";
     ImageSearchEngine.env :=
       {| ImageSearchEngine.index_file := Some file;
          ImageSearchEngine.writable := true;
          ImageSearchEngine.stdout := [] |} |}.

(** A snapshot of the local index written by hand, with an entry for a
    file that is no longer in the directory. *)
Definition app_index : dict ndarray :=
  [("imgs/old.png", flat 10); ("imgs/a.png", flat 10)].

Definition app_snapshot := app_with_file (Some app_index).
Definition app_corrupt := app_with_file None.

Definition gd_snapshot :=
  gd_engine [] [] false
    (Some (Some {| GoogleDriveImageSearchEngine.cd_features := Some gd_index;
                   GoogleDriveImageSearchEngine.cd_metadata := Some gd_index_metadata |})).
Definition gd_corrupt := gd_engine [] [] false (Some None).

(** A Drive engine that finds the cache file of an earlier build over the
    folder. *)
Definition gd_rebuilt_cache :=
  GoogleDriveImageSearchEngine.cache_file
    (GoogleDriveImageSearchEngine.env
       (snd (GoogleDriveImageSearchEngine.build_index gd_fresh))).

Definition gd_second_session := gd_engine [] [] false gd_rebuilt_cache.

(** The methods of the two engines in this world. *)
Abbreviation app_build_index :=
  (ImageSearchEngine.build_index (CV := cv2) (PK := pickle _) listdir).
Abbreviation app_search :=
  (ImageSearchEngine.search (CV := cv2) (SK := skimage) (PK := pickle _) listdir).
Abbreviation app_dump := (ImageSearchEngine.dump_index_file (PK := pickle _)).
Abbreviation app_load := (ImageSearchEngine.load_index_file (PK := pickle _)).
Abbreviation gd_build_index :=
  (GoogleDriveImageSearchEngine.build_index
     (CV := cv2) (DR := drive) (PK := pickle _)).
Abbreviation gd_search :=
  (GoogleDriveImageSearchEngine.search
     (CV := cv2) (SK := skimage) (DR := drive) (PK := pickle _)).
Abbreviation gd_save := (GoogleDriveImageSearchEngine.save_cache (PK := pickle _)).
Abbreviation gd_load := (GoogleDriveImageSearchEngine.load_cache (PK := pickle _)).

End Demo.

(** * The vocabulary of the properties

    Pure descriptions of what the methods compute (the candidates of a scan,
    the entry a file contributes, the state a loop ends in), and the
    predicates the theorems are stated with.  The properties part proves
    that the methods compute them. *)

Module App := ImageSearchEngine.
Module GD := GoogleDriveImageSearchEngine.

(** ** Lists, dicts and pickles *)

Section SortNotions.
Context {A : Type} (key : A -> pyfloat).

(** Descending order of the keys. *)
Definition desc (a b : A) : Prop := float_ge (key a) (key b) = true.

Definition key_not_nan (a : A) : Prop := is_nan (key a) = false.

(** The elements whose key equals [v], in list order. *)
Definition with_key (v : pyfloat) (l : list A) : list A :=
  List.filter (fun x => float_eq (key x) v) l.
End SortNotions.

(** [d[k] = v] for each pair of [items], in order. *)
Definition dict_set_all {V : Type} (items : list (string * V)) (d : dict V) : dict V :=
  foldl (fun d kv => dict_set kv.1 kv.2 d) d items.

(** [a] occurs in [l] at a position before an occurrence of [b]. *)
Definition before {A : Type} (a b : A) (l : list A) : Prop :=
  exists l1 l2 l3, l = l1 ++ a :: l2 ++ b :: l3.

(** [pickle.load] gives back what [pickle.dump] wrote. *)
Definition pickle_round_trip {T blob : Type} (PK : Pickle T blob) : Prop :=
  forall x : T, pickle_loads (pickle_dumps x) = Ok x.

(** Every value of a dict satisfies [P]. *)
Definition dict_all {V : Type} (P : V -> Prop) (d : dict V) : Prop :=
  Forall (fun kv => P kv.2) d.

(** The value that the last pair of key [k] gives, if there is one. *)
Fixpoint last_value {V : Type} (k : string) (items : list (string * V)) : option V :=
  match items with
  | [] => None
  | (k', v) :: rest =>
      match last_value k rest with
      | Some v' => Some v'
      | None => if decide (k = k') then Some v else None
      end
  end.

(** ** The linear scan *)

Section ScanNotions.
Context {SK : Skimage}.

(** What one entry contributes to the results: its score when the
    comparison succeeds and clears the threshold. *)
Definition scan_one (q : ndarray) (t : pyfloat) (item : string * ndarray)
  : option (string * pyfloat) :=
  match ssim q item.2 with
  | Ok s => if float_ge s t then Some (item.1, s) else None
  | Raise _ => None
  end.

(** The candidates of a search, in index order. *)
Definition scan (q : ndarray) (t : pyfloat) (items : list (string * ndarray))
  : list (string * pyfloat) :=
  omap (scan_one q t) items.

(** The message printed for an entry whose comparison raises. *)
Definition scan_error_one (q : ndarray) (item : string * ndarray) : option string :=
  match ssim q item.2 with
  | Ok _ => None
  | Raise e => Some ("Error comparing with " ++ item.1 ++ ": " ++ exn_str e)%string
  end.

Definition scan_errors (q : ndarray) (items : list (string * ndarray)) : list string :=
  omap (scan_error_one q) items.

(** The ranking of [search] once the query is preprocessed. *)
Definition rank (q : ndarray) (t : pyfloat) (limit : Z)
    (items : list (string * ndarray)) : list (string * pyfloat) :=
  slice_to (sort_reverse snd (scan q t items)) limit.

(** The three properties of a search result. *)
Definition search_result_ok (t : pyfloat) (limit : Z)
    (res : list (string * pyfloat)) : Prop :=
  (Z.of_nat (length res) <= limit)%Z
  /\ Forall (fun r => float_ge r.2 t = true) res
  /\ StronglySorted (fun a b => float_ge a.2 b.2 = true) res.
End ScanNotions.

(** ** [ImageSearchEngine] *)

Section AppNotions.
Context {blob : Type} {CV : Cv2} {SK : Skimage} {PK : Pickle (dict ndarray) blob}.

(** The state after printing the lines [msgs]. *)
Definition app_printed (msgs : list string) (s : @App.state blob) : App.state :=
  {| App.self := App.self s;
     App.env := {| App.index_file := App.index_file (App.env s);
                   App.writable := App.writable (App.env s);
                   App.stdout := App.stdout (App.env s) ++ msgs |} |}.

(** [preprocess_image] as a function of the path: it does not touch the
    state. *)
Definition app_extract (image_path : string) : result ndarray :=
  match cv2_imread image_path with
  | None => Raise (mk_exn "ValueError" ("Could not read image: " ++ image_path))
  | Some img =>
      match cv2_cvtColor img COLOR_BGR2GRAY with
      | Ok gray => cv2_resize gray (256, 256)%nat
      | Raise e => Raise e
      end
  end.

(** File names that [build_index] takes for images. *)
Definition is_image (filename : string) : bool :=
  endswith_any (lower filename) App.image_suffixes.

(** The entry that a file name of the directory contributes, if any. *)
Definition app_entry (dir filename : string) : option (string * ndarray) :=
  if is_image filename then
    match app_extract (os_path_join dir filename) with
    | Ok a => Some (os_path_join dir filename, a)
    | Raise _ => None
    end
  else None.

(** The line printed for an image file whose processing raises. *)
Definition app_entry_error (dir filename : string) : option string :=
  if is_image filename then
    match app_extract (os_path_join dir filename) with
    | Ok _ => None
    | Raise e =>
        Some ("Error processing " ++ os_path_join dir filename ++ ": " ++ exn_str e)%string
    end
  else None.

(** The state after the loop of [build_index] has gone through [names]. *)
Definition app_indexed (names : list string) (s : @App.state blob) : App.state :=
  let dir := App.image_directory (App.self s) in
  {| App.self :=
       {| App.image_directory := dir;
          App.image_features :=
            dict_set_all (omap (app_entry dir) names) (App.image_features (App.self s));
          App.is_indexed := App.is_indexed (App.self s) |};
     App.env :=
       {| App.index_file := App.index_file (App.env s);
          App.writable := App.writable (App.env s);
          App.stdout := App.stdout (App.env s) ++ omap (app_entry_error dir) names |} |}.

(** [build_index] when it goes through the directory: forced, or not yet
    indexed and without a snapshot. *)
Definition app_rebuilds (force_rebuild : bool) (s : @App.state blob) : Prop :=
  force_rebuild = true
  \/ (App.is_indexed (App.self s) = false /\ App.index_file (App.env s) = None).

(** The state after a rebuild over the listing [names]. *)
Definition app_rebuilt (names : list string) (s : @App.state blob) : App.state :=
  let dir := App.image_directory (App.self s) in
  let d := dict_set_all (omap (app_entry dir) names) [] in
  {| App.self :=
       {| App.image_directory := dir;
          App.image_features := d;
          App.is_indexed := true |};
     App.env :=
       {| App.index_file := Some (pickle_dumps d);
          App.writable := true;
          App.stdout := App.stdout (App.env s) ++ omap (app_entry_error dir) names |} |}.

(** The files of a listing are processed without error. *)
Definition app_all_ok (dir : string) (names : list string) : Prop :=
  Forall (fun n => is_image n = true ->
                   exists a, app_extract (os_path_join dir n) = Ok a) names.

(** The state with the index in memory replaced and [is_indexed] set. *)
Definition app_loaded (d : dict ndarray) (s : @App.state blob) : App.state :=
  {| App.self :=
       {| App.image_directory := App.image_directory (App.self s);
          App.image_features := d;
          App.is_indexed := true |};
     App.env := App.env s |}.

(** The state with the index in memory emptied. *)
Definition app_cleared (s : @App.state blob) : App.state :=
  {| App.self :=
       {| App.image_directory := App.image_directory (App.self s);
          App.image_features := [];
          App.is_indexed := App.is_indexed (App.self s) |};
     App.env := App.env s |}.
End AppNotions.

(** ** [GoogleDriveImageSearchEngine] *)

Section DriveNotions.
Context {blob : Type} {CV : Cv2} {SK : Skimage} {DR : GD.Drive}
        {PK : Pickle GD.cached_data blob}.

(** The state after printing the lines [msgs]. *)
Definition gd_printed (msgs : list string) (s : @GD.state blob) : GD.state :=
  {| GD.self := GD.self s;
     GD.env := {| GD.cache_file := GD.cache_file (GD.env s);
                  GD.writable := GD.writable (GD.env s);
                  GD.ui := GD.ui (GD.env s);
                  GD.stdout := GD.stdout (GD.env s) ++ msgs |} |}.

(** [preprocess_pil_image] as a function of the image. *)
Definition gd_extract_pil (img_array : ndarray) : result ndarray :=
  match (match nd_shape img_array with
         | [_; _; 3%nat] => cv2_cvtColor img_array COLOR_RGB2BGR
         | _ => Ok img_array
         end) with
  | Ok img =>
      match (if bool_decide (length (nd_shape img) = 3%nat)
             then cv2_cvtColor img COLOR_BGR2GRAY else Ok img) with
      | Ok gray => cv2_resize gray (256, 256)%nat
      | Raise e => Raise e
      end
  | Raise e => Raise e
  end.

(** The query array that [search] compares with the index. *)
Definition gd_query (query : GD.query_image) : result ndarray :=
  match query with
  | GD.PIL_image img_array => gd_extract_pil img_array
  | GD.Array a => Ok a
  end.

(** Download and preprocessing of one file, as a function of its id. *)
Definition gd_extract (file_id : string) : result ndarray :=
  match GD.drive_get_media file_id with
  | Ok image_buffer =>
      match cv2_imdecode image_buffer with
      | None => Raise (mk_exn "ValueError" "Could not decode image")
      | Some img =>
          match cv2_cvtColor img COLOR_BGR2GRAY with
          | Ok gray => cv2_resize gray (256, 256)%nat
          | Raise e => Raise e
          end
      end
  | Raise e => Raise e
  end.

(** What a file of the listing contributes to [image_features] and to
    [image_metadata], if its processing succeeds. *)
Definition gd_entry (f : GD.file) : option (string * ndarray) :=
  match gd_extract (GD.id f) with
  | Ok a => Some (GD.id f, a)
  | Raise _ => None
  end.

Definition gd_meta_entry (f : GD.file) : option (string * GD.metadata) :=
  match gd_extract (GD.id f) with
  | Ok _ => Some (GD.id f, GD.mk_metadata (GD.name f) (GD.mimeType f))
  | Raise _ => None
  end.

(** The warning shown for a file whose processing raises. *)
Definition gd_warning (f : GD.file) : option GD.ui_event :=
  match gd_extract (GD.id f) with
  | Ok _ => None
  | Raise e =>
      Some (GD.St_warning ("Error processing " ++ GD.name f ++ ": " ++ exn_str e))
  end.

(** Everything shown while one file is processed. *)
Definition gd_item_events (total : nat) (item : nat * GD.file) : list GD.ui_event :=
  GD.Status_text ("Processing " ++ GD.name item.2 ++ " ("
                  ++ str_of_nat (item.1 + 1) ++ "/" ++ str_of_nat total ++ ")")
  :: match gd_extract (GD.id item.2) with
     | Ok _ => [GD.St_progress (item.1 + 1) total]
     | Raise e =>
         [GD.St_warning ("Error processing " ++ GD.name item.2 ++ ": " ++ exn_str e)]
     end.

(** The state with the index replaced and [evs] shown. *)
Definition gd_update (feats : dict ndarray) (md : dict GD.metadata)
    (evs : list GD.ui_event) (s : @GD.state blob) : GD.state :=
  {| GD.self :=
       {| GD.folder_id := GD.folder_id (GD.self s);
          GD.image_features := feats;
          GD.image_metadata := md;
          GD.is_indexed := GD.is_indexed (GD.self s) |};
     GD.env :=
       {| GD.cache_file := GD.cache_file (GD.env s);
          GD.writable := GD.writable (GD.env s);
          GD.ui := GD.ui (GD.env s) ++ evs;
          GD.stdout := GD.stdout (GD.env s) |} |}.

(** The state after the loop of [build_index] has gone through [items]. *)
Definition gd_indexed (total : nat) (items : list (nat * GD.file))
    (s : @GD.state blob) : GD.state :=
  gd_update
    (dict_set_all (omap gd_entry items.*2) (GD.image_features (GD.self s)))
    (dict_set_all (omap gd_meta_entry items.*2) (GD.image_metadata (GD.self s)))
    (flat_map (gd_item_events total) items) s.

(** The index that the load step of [build_index] puts in memory. *)
Definition gd_loaded_index (s : @GD.state blob)
  : result (dict ndarray * dict GD.metadata) :=
  match GD.cache_file (GD.env s) with
  | None => Ok ([], [])
  | Some b =>
      match pickle_loads b with
      | Ok cached =>
          Ok (default [] (GD.cd_features cached), default [] (GD.cd_metadata cached))
      | Raise e => Raise e
      end
  end.

(** The state with [is_indexed] set. *)
Definition gd_mark_indexed (s : @GD.state blob) : GD.state :=
  {| GD.self :=
       {| GD.folder_id := GD.folder_id (GD.self s);
          GD.image_features := GD.image_features (GD.self s);
          GD.image_metadata := GD.image_metadata (GD.self s);
          GD.is_indexed := true |};
     GD.env := GD.env s |}.

(** The state with the cache file rewritten from the index in memory. *)
Definition gd_saved (s : @GD.state blob) : GD.state :=
  {| GD.self := GD.self s;
     GD.env :=
       {| GD.cache_file :=
            Some (pickle_dumps
                    {| GD.cd_features := Some (GD.image_features (GD.self s));
                       GD.cd_metadata := Some (GD.image_metadata (GD.self s)) |});
          GD.writable := GD.writable (GD.env s);
          GD.ui := GD.ui (GD.env s);
          GD.stdout := GD.stdout (GD.env s) |} |}.

(** The outcome of [build_index] from a state whose load step gave the
    index [feats], [md] and whose listing is [files]. *)
Definition gd_build_from (feats : dict ndarray) (md : dict GD.metadata)
    (files : list GD.file) (s : @GD.state blob) : result unit * GD.state :=
  match files with
  | [] => (Ok tt, gd_update feats md [GD.St_info "No images found in the folder."] s)
  | _ :: _ =>
      let new_files := GD.new_files_of md files in
      match new_files with
      | [] =>
          (Ok tt, gd_mark_indexed
                    (gd_update feats md
                       [GD.St_success "All images are already indexed!"] s))
      | _ :: _ =>
          let s2 := gd_indexed (length new_files) (GD.enumerate new_files)
                      (gd_update feats md [GD.St_progress 0 1] s) in
          if GD.writable (GD.env s) then
            (Ok tt,
             gd_mark_indexed
               (gd_update (GD.image_features (GD.self s2))
                  (GD.image_metadata (GD.self s2))
                  [GD.Progress_empty; GD.Status_empty;
                   GD.St_success ("Indexed " ++ str_of_nat (length new_files)
                                  ++ " new images successfully!")]
                  (gd_saved s2)))
          else (Raise (mk_exn "PermissionError" "gdrive_index_cache.pkl"), s2)
      end
  end.

(** The warnings among what the page shows. *)
Definition is_warning (ev : GD.ui_event) : bool :=
  match ev with GD.St_warning _ => true | _ => false end.

Definition warnings (evs : list GD.ui_event) : list GD.ui_event :=
  List.filter is_warning evs.

(** The files of a listing are downloaded and preprocessed without error. *)
Definition gd_all_ok (files : list GD.file) : Prop :=
  Forall (fun f => exists a, gd_extract (GD.id f) = Ok a) files.

(** The state after [build_index] has indexed the new files [nf] on top of
    the loaded index [feats], [md]. *)
Definition gd_built (feats : dict ndarray) (md : dict GD.metadata)
    (nf : list GD.file) (s : @GD.state blob) : GD.state :=
  let s2 := gd_indexed (length nf) (GD.enumerate nf)
              (gd_update feats md [GD.St_progress 0 1] s) in
  gd_mark_indexed
    (gd_update (GD.image_features (GD.self s2)) (GD.image_metadata (GD.self s2))
       [GD.Progress_empty; GD.Status_empty;
        GD.St_success ("Indexed " ++ str_of_nat (length nf)
                       ++ " new images successfully!")]
       (gd_saved s2)).


End DriveNotions.

(** ** Invariants and reports *)

(** The invariant of the local engine: the features in memory are
    canonical, and so are those of the snapshot, when it unpickles. *)
Definition app_snapshot_canonical {blob : Type} {PK : Pickle (dict ndarray) blob}
    (s : @App.state blob) : Prop :=
  forall b d, App.index_file (App.env s) = Some b ->
              pickle_loads b = Ok d -> dict_all canonical d.

Definition app_canonical_state {blob : Type} {PK : Pickle (dict ndarray) blob}
    (s : @App.state blob) : Prop :=
  dict_all canonical (App.image_features (App.self s)) /\ app_snapshot_canonical s.

(** The same invariant for the Drive engine. *)
Definition gd_snapshot_canonical {blob : Type} {PK : Pickle GD.cached_data blob}
    (s : @GD.state blob) : Prop :=
  forall b cached d, GD.cache_file (GD.env s) = Some b ->
                     pickle_loads b = Ok cached ->
                     GD.cd_features cached = Some d -> dict_all canonical d.

Definition gd_canonical_state {blob : Type} {PK : Pickle GD.cached_data blob}
    (s : @GD.state blob) : Prop :=
  dict_all canonical (GD.image_features (GD.self s)) /\ gd_snapshot_canonical s.


(** * The rest of src/app.py

    [get_most_recent_image], lines 75-79, with the parts of [glob],
    [fnmatch] and [max] that it runs, and the file name that the page shows
    for the best match, line 176. *)

(** ** Paths *)

(** [p] cut after its last slash. *)
Fixpoint split_at_last_slash (p : string) : string * string :=
  match p with
  | EmptyString => (EmptyString, EmptyString)
  | String c p' =>
      let '(head, tail) := split_at_last_slash p' in
      match head with
      | EmptyString =>
          if Ascii.eqb c "/" then (String c EmptyString, tail)
          else (EmptyString, String c tail)
      | _ => (String c head, tail)
      end
  end.

(** [s.rstrip('/')]. *)
Fixpoint rstrip_slashes (s : string) : string :=
  match s with
  | EmptyString => EmptyString
  | String c s' =>
      match rstrip_slashes s' with
      | EmptyString => if Ascii.eqb c "/" then EmptyString else String c EmptyString
      | r => String c r
      end
  end.

(** [os.path.split(p)] for POSIX paths: the head loses its trailing slashes
    unless it consists of slashes only. *)
Definition os_path_split (p : string) : string * string :=
  let '(head, tail) := split_at_last_slash p in
  (match rstrip_slashes head with
   | EmptyString => head
   | stripped => stripped
   end, tail).

(** ** [fnmatch] and [glob] *)

(** A shell pattern, as [fnmatch] reads it. *)
Inductive glob_item : Type :=
  | G_star                      (* a star: any run of characters *)
  | G_any                       (* a question mark: any one character *)
  | G_class (cs : list ascii)   (* a bracket: one character of the set *)
  | G_char (c : ascii).         (* any other character: itself *)

(** [fnmatch.fnmatchcase(name, pattern)]: the whole name matches, letter
    case counts (what [fnmatch] does on POSIX). *)
Fixpoint fnmatch (pattern : list glob_item) (name : string) {struct pattern} : bool :=
  match pattern with
  | [] => match name with EmptyString => true | String _ _ => false end
  | G_star :: pattern' =>
      (fix star (name : string) : bool :=
         fnmatch pattern' name
         || match name with
            | EmptyString => false
            | String _ name' => star name'
            end) name
  | G_any :: pattern' =>
      match name with
      | EmptyString => false
      | String _ name' => fnmatch pattern' name'
      end
  | G_class cs :: pattern' =>
      match name with
      | EmptyString => false
      | String c name' => existsb (Ascii.eqb c) cs && fnmatch pattern' name'
      end
  | G_char c0 :: pattern' =>
      match name with
      | EmptyString => false
      | String c name' => Ascii.eqb c c0 && fnmatch pattern' name'
      end
  end.

(** [glob.has_magic]: the string has a wildcard character. *)
Fixpoint has_magic (s : string) : bool :=
  match s with
  | EmptyString => false
  | String c s' =>
      Ascii.eqb c "*" || Ascii.eqb c "?" || Ascii.eqb c "[" || has_magic s'
  end.

(** [glob._ishidden], on a name and on a pattern. *)
Definition ishidden (name : string) : bool := String.prefix "." name.

Definition pattern_ishidden (pattern : list glob_item) : bool :=
  match pattern with
  | G_char c :: _ => Ascii.eqb c "."
  | _ => false
  end.

Section Glob.
(** The entries of a directory; raises [OSError] when it cannot be read. *)
Context (os_listdir : string -> result (list string)).
(** The directories that a directory part with wildcards stands for. *)
Context (glob_dirs : string -> list string).

(** [glob._glob1]: the names of a directory that match the pattern.  A
    directory that cannot be read has no names; hidden names are left out
    unless the pattern starts with a dot. *)
Definition glob1 (dirname : string) (pattern : list glob_item) : list string :=
  let names :=
    match os_listdir (if String.eqb dirname "" then "." else dirname) with
    | Ok names => names
    | Raise _ => []
    end in
  let names :=
    if pattern_ishidden pattern then names
    else List.filter (fun x => negb (ishidden x)) names in
  List.filter (fnmatch pattern) names.

(** [glob.glob(pathname)] for a path that [os.path.split] cuts into
    [dirname] and a last component with wildcards that reads as
    [pattern]. *)
Definition glob_glob (dirname : string) (pattern : list glob_item) : list string :=
  if String.eqb dirname "" then glob1 "" pattern
  else
    let dirs := if has_magic dirname then glob_dirs dirname else [dirname] in
    flat_map (fun d => map (os_path_join d) (glob1 d pattern)) dirs.
End Glob.

(** ** [max] with a key *)

Section Max.
Context {A : Type} (key : A -> result pyfloat).

(** The loop of [max]: the item kept is replaced by a later one only when
    the key of the later one is greater. *)
Fixpoint max_from (maxitem : A) (maxval : pyfloat) (l : list A) : result A :=
  match l with
  | [] => Ok maxitem
  | item :: l' =>
      match key item with
      | Raise e => Raise e
      | Ok val =>
          if float_lt maxval val then max_from item val l'
          else max_from maxitem maxval l'
      end
  end.

(** [max(l, key=key)]. *)
Definition py_max (l : list A) : result A :=
  match l with
  | [] => Raise (mk_exn "ValueError" "max() arg is an empty sequence")
  | item :: l' =>
      match key item with
      | Raise e => Raise e
      | Ok val => max_from item val l'
      end
  end.
End Max.

(** ** [get_most_recent_image] *)

(** The pattern of line 76 and how [fnmatch] reads it: any run, a dot, one
    of [j p J P], one of [p n P N], any run. *)
Definition image_pattern : string := "*.[jpJP][pnPN]*".

Definition image_pattern_items : list glob_item :=
  [G_star; G_char "."; G_class ["j"; "p"; "J"; "P"]%char;
   G_class ["p"; "n"; "P"; "N"]%char; G_star].

Section MostRecent.
Context (os_listdir : string -> result (list string)).
Context (glob_dirs : string -> list string).
(** [os.path.getmtime]; raises [OSError] for a file that is not there. *)
Context (os_path_getmtime : string -> result pyfloat).

(** [get_most_recent_image], app.py lines 75-79: [None], or the path. *)
Definition get_most_recent_image (directory : string) : result (option string) :=
  let pathname := os_path_join directory image_pattern in
  let image_files :=
    glob_glob os_listdir glob_dirs (os_path_split pathname).1 image_pattern_items in
  match image_files with
  | [] => Ok None
  | _ :: _ =>
      match py_max os_path_getmtime image_files with
      | Ok latest => Ok (Some latest)
      | Raise e => Raise e
      end
  end.
End MostRecent.

(** ** The name shown for the best match *)

(** [s.split(sep)] for a separator of one character. *)
Fixpoint str_split (sep : ascii) (s : string) : list string :=
  match s with
  | EmptyString => [EmptyString]
  | String c s' =>
      if Ascii.eqb c sep then EmptyString :: str_split sep s'
      else match str_split sep s' with
           | [] => [String c EmptyString]
           | w :: ws => String c w :: ws
           end
  end.

(** [l[-1]]. *)
Definition last_item {A : Type} (l : list A) : result A :=
  match last l with
  | Some x => Ok x
  | None => Raise (mk_exn "IndexError" "list index out of range")
  end.

(** The backslash. *)
Definition backslash : ascii := "092"%char.

(** Line 176 of app.py: the last piece between slashes of [top_match], and
    of that the last piece between backslashes. *)
Definition shown_name (top_match : string) : result string :=
  match last_item (str_split "/" top_match) with
  | Ok x => last_item (str_split backslash x)
  | Raise e => Raise e
  end.

(** ** A screenshot directory

    Listings and modification times to run [get_most_recent_image] on:
    ["shots"] holds two newest images of the same time, ["empty"] no
    candidate, and the only candidate of ["gone"] has no modification time
    (it was removed after the listing). *)

Module Shots.
Definition listdir (path : string) : result (list string) :=
  if String.eqb path "shots"
  then Ok ["old.png"; ".hidden.png"; "new.JPG"; "notes.txt"; "clip.jpeg"; "scan.bmp"]
  else if String.eqb path "empty" then Ok ["notes.txt"; "scan.bmp"; ".hidden.png"]
  else if String.eqb path "gone" then Ok ["lost.png"]
  else Raise (mk_exn "FileNotFoundError" path).

Definition getmtime (path : string) : result pyfloat :=
  if String.eqb path "shots/old.png" then Ok (F_fin 100)
  else if String.eqb path "shots/new.JPG" then Ok (F_fin 300)
  else if String.eqb path "shots/clip.jpeg" then Ok (F_fin 300)
  else Raise (mk_exn "FileNotFoundError" path).

Definition no_dirs (_ : string) : list string := [].
End Shots.

(** * The vocabulary of the further properties *)

(** The string has the character. *)
Fixpoint has_char (c : ascii) (s : string) : bool :=
  match s with
  | EmptyString => false
  | String c' s' => Ascii.eqb c' c || has_char c s'
  end.

(** [sep.join(l)] for a separator of one character. *)
Fixpoint str_join (sep : ascii) (l : list string) : string :=
  match l with
  | [] => EmptyString
  | [x] => x
  | x :: l' => (x ++ String sep (str_join sep l'))%string
  end.

Section MaxNotions.
Context {A : Type} (key : A -> result pyfloat).

(** [x], of key [kx], is the first item of [l] whose key is the greatest:
    the keys before it are smaller, those after it are not greater. *)
Definition first_max (l : list A) (x : A) (kx : pyfloat) : Prop :=
  exists l1 l2,
    l = l1 ++ x :: l2
    /\ key x = Ok kx
    /\ Forall (fun y => exists ky, key y = Ok ky /\ float_lt ky kx = true) l1
    /\ Forall (fun y => exists ky, key y = Ok ky /\ float_le ky kx = true) l2.

(** Every key can be read and is a number. *)
Definition keys_are_numbers (l : list A) : Prop :=
  Forall (fun y => exists ky, key y = Ok ky /\ is_nan ky = false) l.
End MaxNotions.

(** A directory path as the app writes it: not empty, without a trailing
    slash and without wildcard characters. *)
Definition plain_directory (directory : string) : Prop :=
  directory <> "" /\ endswith directory "/" = false /\ has_magic directory = false.

(** The names of a listing that [get_most_recent_image] considers. *)
Definition is_candidate (name : string) : bool :=
  negb (ishidden name) && fnmatch image_pattern_items name.

(** Two dicts have the same keys. *)
Definition same_keys {A B : Type} (d1 : dict A) (d2 : dict B) : Prop :=
  forall k, dict_contains k d1 = dict_contains k d2.

(** The keys of a dict are distinct, as those of a Python dict are. *)
Definition distinct_keys {V : Type} (d : dict V) : Prop := NoDup (dict_keys d).

(** What [preprocess_pil_image] relies on from OpenCV for a colour query:
    the channel swap of a 3-channel image keeps its shape and its element
    type. *)
Definition Cv2_swap_contract (C : Cv2) : Prop :=
  forall a b h w, cv2_cvtColor a COLOR_RGB2BGR = Ok b ->
    nd_shape a = [h; w; 3%nat] ->
    nd_shape b = [h; w; 3%nat] /\ nd_dtype b = nd_dtype a.

(** ** The index step of [search], and scores *)

(** The first two lines of [search] (app.py 58-59, searchAPP.py 205-206):
    an engine that is not indexed is built. *)
Definition app_index_step {blob : Type} {CV : Cv2} {PK : Pickle (dict ndarray) blob}
    (os_listdir : string -> result (list string)) (s : @App.state blob)
  : result unit * @App.state blob :=
  if App.is_indexed (App.self s) then (Ok tt, s)
  else App.build_index os_listdir false s.

Definition gd_index_step {blob : Type} {CV : Cv2} {DR : GD.Drive}
    {PK : Pickle GD.cached_data blob} (s : @GD.state blob)
  : result unit * @GD.state blob :=
  if GD.is_indexed (GD.self s) then (Ok tt, s) else GD.build_index s.

(** The keys with their scores, for the scores that clear the threshold. *)
Definition passing (t : pyfloat) (keys : list string) (scores : list pyfloat)
  : list (string * pyfloat) :=
  List.filter (fun r => float_ge r.2 t) (zip keys scores).

(** [scores] are the similarities of [q] and the entries of [items], in
    order: every comparison succeeds. *)
Definition scores_of {SK : Skimage} (q : ndarray) (items : list (string * ndarray))
    (scores : list pyfloat) : Prop :=
  Forall2 (fun item sc => ssim q item.2 = Ok sc) items scores.

(** A Drive folder without files. *)
Module EmptyFolder.
#[export] Instance drive : GD.Drive := {|
  GD.drive_files_list _ := Ok [];
  GD.drive_get_media := Demo.media
|}.
End EmptyFolder.

(** * Properties *)

(** ** The definitions on small inputs *)

Example lower_suffix : lower "Scan_01.JPG" = "scan_01.jpg".
Proof. reflexivity. Qed.

Example image_suffixes_accepted :
  map is_image ["a.png"; "b.JPG"; "c.Jpeg"; "d.tiff"; "e.gif.txt"; "image_index.pkl"; "png"]
  = [true; true; true; true; false; false; false].
Proof. reflexivity. Qed.

Example os_path_join_cases :
  os_path_join "imgs" "a.png" = "imgs/a.png"
  /\ os_path_join "imgs/" "a.png" = "imgs/a.png"
  /\ os_path_join "" "a.png" = "a.png"
  /\ os_path_join "imgs" "/tmp/a.png" = "/tmp/a.png".
Proof. repeat split; reflexivity. Qed.

Example str_of_nat_12 : str_of_nat 12 = "12".
Proof. reflexivity. Qed.

(** Assignment to an existing key keeps its place; a new key goes last. *)
Example dict_set_order :
  dict_set "a" 3%nat [("a", 1%nat); ("b", 2%nat)] = [("a", 3%nat); ("b", 2%nat)]
  /\ dict_set "c" 3%nat [("a", 1%nat); ("b", 2%nat)]
     = [("a", 1%nat); ("b", 2%nat); ("c", 3%nat)].
Proof. split; reflexivity. Qed.

(** A slice up to a negative limit drops elements from the end. *)
Example slice_to_cases :
  slice_to [1; 2; 3]%nat 2 = [1; 2]%nat
  /\ slice_to [1; 2; 3]%nat 5 = [1; 2; 3]%nat
  /\ slice_to [1; 2; 3]%nat 0 = []
  /\ slice_to [1; 2; 3]%nat (-1) = [1; 2]%nat
  /\ slice_to [1; 2; 3]%nat (-7) = [].
Proof. repeat split; reflexivity. Qed.

(** Every comparison with NaN is false; the two zeros of a rational are
    one. *)
Example float_comparisons :
  float_ge F_nan F_nan = false
  /\ float_ge (F_fin (1 # 5)) F_nan = false
  /\ float_ge (F_fin (1 # 5)) (F_fin (2 # 10)) = true
  /\ float_lt (F_fin (1 # 5)) (F_fin (2 # 10)) = false
  /\ float_ge F_pinf (F_fin 1) = true
  /\ float_ge (F_fin 1) F_ninf = true.
Proof. repeat split; reflexivity. Qed.

(** The sort puts the higher scores first and leaves ties as they were. *)
Example sort_reverse_ties :
  sort_reverse snd
    [("a", F_fin (1 # 2)); ("b", F_fin (9 # 10)); ("c", F_fin (1 # 2));
     ("d", F_fin (9 # 10)); ("e", F_fin (2 # 4))]
  = [("b", F_fin (9 # 10)); ("d", F_fin (9 # 10)); ("a", F_fin (1 # 2));
     ("c", F_fin (1 # 2)); ("e", F_fin (2 # 4))].
Proof. reflexivity. Qed.

(** ** Floats *)

Lemma float_le_not_nan a b :
  float_le a b = true -> is_nan a = false /\ is_nan b = false.
Proof. destruct a, b; simpl; intros H; try discriminate; auto. Qed.

Lemma float_lt_not_nan a b :
  float_lt a b = true -> is_nan a = false /\ is_nan b = false.
Proof. destruct a, b; simpl; intros H; try discriminate; auto. Qed.

Lemma float_le_trans a b c :
  float_le a b = true -> float_le b c = true -> float_le a c = true.
Proof.
  destruct a, b, c; simpl; intros H1 H2; try discriminate; auto.
  apply Qle_bool_iff. apply Qle_bool_iff in H1, H2.
  eapply Qle_trans; eauto.
Qed.

Lemma float_lt_le a b : float_lt a b = true -> float_le a b = true.
Proof.
  destruct a, b; simpl; intros H; try discriminate; auto.
  apply Qle_bool_iff. apply negb_true_iff in H.
  destruct (Qlt_le_dec q q0) as [Hlt | Hle].
  - apply Qlt_le_weak, Hlt.
  - apply Qle_bool_iff in Hle. congruence.
Qed.

Lemma float_not_lt_ge a b :
  is_nan a = false -> is_nan b = false ->
  float_lt a b = false -> float_ge a b = true.
Proof.
  unfold float_ge. destruct a, b; simpl; intros Ha Hb H; try discriminate; auto.
  apply negb_false_iff in H. exact H.
Qed.

Lemma float_lt_not_ge a b : float_lt a b = true -> float_ge a b = false.
Proof.
  unfold float_ge. destruct a, b; simpl; intros H; try discriminate; auto.
  apply negb_true_iff in H. exact H.
Qed.

Lemma float_eq_le a b : float_eq a b = true -> float_le a b = true /\ float_le b a = true.
Proof. unfold float_eq. intros H. apply andb_true_iff in H. exact H. Qed.

(** A float strictly above [a] is not equal to anything equal to [a]. *)
Lemma float_lt_eq_false a b c :
  float_eq a c = true -> float_lt a b = true -> float_eq b c = false.
Proof.
  intros Heq Hlt. apply float_eq_le in Heq as [_ Hca].
  destruct (float_eq b c) eqn:Hbc; [|reflexivity].
  apply float_eq_le in Hbc as [Hbc _].
  assert (Hba : float_le b a = true) by (eapply float_le_trans; eauto).
  apply float_lt_not_ge in Hlt. unfold float_ge in Hlt. congruence.
Qed.

(** ** Sorting and slicing *)

Section SortFacts.
Context {A : Type} (key : A -> pyfloat).

Lemma insert_desc_Forall (P : A -> Prop) x l :
  P x -> Forall P l -> Forall P (insert_desc key x l).
Proof.
  intros Hx Hl. induction Hl as [|y l Hy Hl IH]; simpl.
  - constructor; [exact Hx | constructor].
  - destruct (float_lt (key x) (key y)); repeat constructor; auto.
Qed.

Lemma sort_reverse_Forall (P : A -> Prop) l :
  Forall P l -> Forall P (sort_reverse key l).
Proof.
  induction 1 as [|x l Hx Hl IH]; simpl; [constructor|].
  apply insert_desc_Forall; assumption.
Qed.

Lemma insert_desc_length x l : length (insert_desc key x l) = S (length l).
Proof.
  induction l as [|y l IH]; simpl; [reflexivity|].
  destruct (float_lt (key x) (key y)); simpl; [rewrite IH|]; reflexivity.
Qed.

Lemma sort_reverse_length l : length (sort_reverse key l) = length l.
Proof.
  induction l as [|x l IH]; simpl; [reflexivity|].
  rewrite insert_desc_length, IH. reflexivity.
Qed.

Lemma insert_desc_Permutation x l : Permutation (insert_desc key x l) (x :: l).
Proof.
  induction l as [|y l IH]; simpl; [reflexivity|].
  destruct (float_lt (key x) (key y)); [|reflexivity].
  rewrite IH. apply perm_swap.
Qed.

Lemma sort_reverse_Permutation l : Permutation (sort_reverse key l) l.
Proof.
  induction l as [|x l IH]; simpl; [reflexivity|].
  rewrite insert_desc_Permutation, IH. reflexivity.
Qed.

Lemma insert_desc_sorted x l :
  key_not_nan key x -> Forall (key_not_nan key) l ->
  StronglySorted (desc key) l -> StronglySorted (desc key) (insert_desc key x l).
Proof.
  intros Hx Hnan Hs. induction Hs as [|y l Hs IH Hy]; simpl.
  - repeat constructor.
  - inversion Hnan as [|? ? Hynan Hlnan]; subst.
    destruct (float_lt (key x) (key y)) eqn:Hlt.
    + constructor; [apply IH, Hlnan|].
      apply insert_desc_Forall; [|exact Hy].
      unfold desc, float_ge. apply float_lt_le, Hlt.
    + assert (Hxy : desc key x y) by (apply float_not_lt_ge; assumption).
      constructor; [constructor; assumption|].
      constructor; [exact Hxy|].
      eapply Forall_impl; [exact Hy|]. cbv beta. intros z Hyz.
      unfold desc, float_ge in *. eapply float_le_trans; eassumption.
Qed.

(** Without NaN among the keys the sort gives a descending list. *)
Lemma sort_reverse_sorted l :
  Forall (key_not_nan key) l -> StronglySorted (desc key) (sort_reverse key l).
Proof.
  induction 1 as [|x l Hx Hl IH]; simpl; [constructor|].
  apply insert_desc_sorted; [exact Hx | | exact IH].
  apply sort_reverse_Forall, Hl.
Qed.

Lemma insert_desc_with_key v x l :
  with_key key v (insert_desc key x l) = with_key key v (x :: l).
Proof.
  induction l as [|y l IH]; [reflexivity|].
  simpl. destruct (float_lt (key x) (key y)) eqn:Hlt; [|reflexivity].
  simpl. rewrite IH. simpl.
  destruct (float_eq (key x) v) eqn:Hx; [|reflexivity].
  rewrite (float_lt_eq_false _ _ _ Hx Hlt). reflexivity.
Qed.

(** Stability: the sort keeps the order of the elements of equal key. *)
Lemma sort_reverse_stable v l : with_key key v (sort_reverse key l) = with_key key v l.
Proof.
  induction l as [|x l IH]; [reflexivity|].
  change (sort_reverse key (x :: l)) with (insert_desc key x (sort_reverse key l)).
  rewrite insert_desc_with_key. unfold with_key in *. simpl.
  rewrite IH. reflexivity.
Qed.

Lemma StronglySorted_take (R : A -> A -> Prop) n l :
  StronglySorted R l -> StronglySorted R (take n l).
Proof.
  intros Hs. revert n. induction Hs as [|x l Hs IH Hx]; intros [|n]; simpl;
    try constructor.
  - apply IH.
  - apply Forall_take, Hx.
Qed.
End SortFacts.

Lemma slice_to_nonneg {A : Type} (l : list A) (limit : Z) :
  (0 <= limit)%Z -> slice_to l limit = take (Z.to_nat limit) l.
Proof.
  intros H. unfold slice_to. destruct (Z.leb_spec 0 limit); [reflexivity | lia].
Qed.

Lemma slice_to_prefix {A : Type} (l : list A) (limit : Z) :
  exists rest, l = slice_to l limit ++ rest.
Proof.
  unfold slice_to. destruct (0 <=? limit)%Z;
    eexists; symmetry; apply take_drop.
Qed.

Lemma slice_to_nil {A : Type} (limit : Z) : slice_to (@nil A) limit = [].
Proof. unfold slice_to. destruct (0 <=? limit)%Z; apply take_nil. Qed.

(** ** The linear scan *)

Section Scan.
Context {SK : Skimage}.

Lemma scan_ge q t items :
  Forall (fun r => float_ge r.2 t = true) (scan q t items).
Proof.
  apply Forall_forall. intros r Hr.
  unfold scan in Hr. apply list_elem_of_omap in Hr as (item & _ & Hone).
  unfold scan_one in Hone. destruct (ssim q item.2); [|discriminate].
  destruct (float_ge a t) eqn:Hge; [|discriminate].
  inversion Hone; subst. exact Hge.
Qed.

Lemma scan_not_nan q t items :
  Forall (key_not_nan snd) (scan q t items).
Proof.
  eapply Forall_impl; [apply scan_ge|]. cbv beta. intros r Hr.
  unfold float_ge in Hr. apply float_le_not_nan in Hr. apply Hr.
Qed.

Lemma rank_ok q t limit items :
  (0 <= limit)%Z -> search_result_ok t limit (rank q t limit items).
Proof.
  intros Hl. unfold rank. rewrite slice_to_nonneg by exact Hl.
  split; [|split].
  - rewrite length_take. lia.
  - apply Forall_take, sort_reverse_Forall, scan_ge.
  - apply StronglySorted_take.
    apply (sort_reverse_sorted snd), scan_not_nan.
Qed.
End Scan.

(** ** [ImageSearchEngine]: the search loop *)

Section AppSearch.
Context {blob : Type} {CV : Cv2} {SK : Skimage} {PK : Pickle (dict ndarray) blob}.
Context (os_listdir : string -> result (list string)).

Lemma app_printed_nil (s : @App.state blob) : app_printed [] s = s.
Proof.
  destruct s as [e [f w o]]. unfold app_printed. simpl.
  rewrite app_nil_r. reflexivity.
Qed.

Lemma app_printed_app m1 m2 (s : @App.state blob) :
  app_printed m2 (app_printed m1 s) = app_printed (m1 ++ m2) s.
Proof. unfold app_printed. simpl. rewrite app_assoc. reflexivity. Qed.

(** The loop of [search] is the scan: it never raises, collects the
    candidates in index order and prints one line for each failed
    comparison. *)
Lemma app_search_loop q t items acc (s : @App.state blob) :
  for_fold items acc (App.compare_one q t) s
  = (Ok (acc ++ scan q t items), app_printed (scan_errors q items) s).
Proof.
  revert acc s. induction items as [|[k img] items IH]; intros acc s.
  - simpl. unfold ret. rewrite app_nil_r, app_printed_nil. reflexivity.
  - simpl. unfold bind at 1.
    unfold App.compare_one, try_except, bind, App.compute_similarity, lift.
    unfold scan_one, scan_error_one. simpl.
    destruct (ssim q img) as [sim|e]; simpl.
    + destruct (float_ge sim t); unfold ret; rewrite IH.
      * rewrite <- app_assoc. reflexivity.
      * reflexivity.
    + unfold App.print, modify, ret. rewrite IH.
      unfold app_printed. simpl. rewrite <- app_assoc. reflexivity.
Qed.

Lemma app_preprocess_image p (s : @App.state blob) :
  App.preprocess_image p s = (app_extract p, s).
Proof.
  unfold App.preprocess_image, app_extract.
  destruct (cv2_imread p) as [img|]; [|reflexivity].
  unfold bind, lift, ret.
  destruct (cv2_cvtColor img COLOR_BGR2GRAY) as [gray|e]; [|reflexivity].
  destruct (cv2_resize gray (256, 256)%nat); reflexivity.
Qed.

(** [search] after the index step, from state [s]. *)
Lemma app_search_from path t limit (s : @App.state blob) :
  App.is_indexed (App.self s) = true ->
  App.search os_listdir path t limit s
  = match app_extract path with
    | Ok q =>
        (Ok (rank q t limit (App.image_features (App.self s))),
         app_printed (scan_errors q (App.image_features (App.self s))) s)
    | Raise e => (Raise e, s)
    end.
Proof.
  intros Hidx. unfold App.search, bind, get. rewrite Hidx. unfold ret.
  rewrite app_preprocess_image.
  destruct (app_extract path) as [q|e]; [|reflexivity].
  unfold dict_items. rewrite app_search_loop. reflexivity.
Qed.

(** Whatever the index step does, a result of [search] is the ranking of
    the index that the engine holds when it returns. *)
Lemma app_search_is_rank path t limit (s s' : @App.state blob) res :
  App.search os_listdir path t limit s = (Ok res, s') ->
  exists q, app_extract path = Ok q
            /\ res = rank q t limit (App.image_features (App.self s')).
Proof.
  unfold App.search, bind, get. intros H.
  assert (Hloop : forall s1 : @App.state blob,
    match App.preprocess_image path s1 with
    | (Ok q, s2) =>
        match for_fold (dict_items (App.image_features (App.self s2))) []
                (App.compare_one q t) s2 with
        | (Ok results, s3) => ret (slice_to (sort_reverse snd results) limit) s3
        | (Raise e, s3) => (Raise e, s3)
        end
    | (Raise e, s2) => (Raise e, s2)
    end = (Ok res, s') ->
    exists q, app_extract path = Ok q
              /\ res = rank q t limit (App.image_features (App.self s'))).
  { intros s1. rewrite app_preprocess_image.
    destruct (app_extract path) as [q|e]; [|discriminate].
    unfold dict_items. rewrite app_search_loop. unfold ret.
    intros H1. inversion H1. subst. eauto. }
  destruct (App.is_indexed (App.self s)).
  - unfold ret in H at 1. eapply Hloop, H.
  - destruct (App.build_index os_listdir false s) as [[[]|e] s1];
      [eapply Hloop, H | discriminate].
Qed.
End AppSearch.

(** ** [GoogleDriveImageSearchEngine]: the search loop *)

Section DriveSearch.
Context {blob : Type} {CV : Cv2} {SK : Skimage} {DR : GD.Drive}
        {PK : Pickle GD.cached_data blob}.

Lemma gd_printed_nil (s : @GD.state blob) : gd_printed [] s = s.
Proof.
  destruct s as [e [f w u o]]. unfold gd_printed. simpl.
  rewrite app_nil_r. reflexivity.
Qed.

(** The loop of [search] is the scan, as in the other engine. *)
Lemma gd_search_loop q t items acc (s : @GD.state blob) :
  for_fold items acc (GD.compare_one q t) s
  = (Ok (acc ++ scan q t items), gd_printed (scan_errors q items) s).
Proof.
  revert acc s. induction items as [|[k img] items IH]; intros acc s.
  - simpl. unfold ret. rewrite app_nil_r, gd_printed_nil. reflexivity.
  - simpl. unfold bind at 1.
    unfold GD.compare_one, try_except, bind, GD.compute_similarity, lift.
    unfold scan_one, scan_error_one. simpl.
    destruct (ssim q img) as [sim|e]; simpl.
    + destruct (float_ge sim t); unfold ret; rewrite IH.
      * rewrite <- app_assoc. reflexivity.
      * reflexivity.
    + unfold GD.print, modify, ret. rewrite IH.
      unfold gd_printed. simpl. rewrite <- app_assoc. reflexivity.
Qed.

Lemma gd_preprocess_query query (s : @GD.state blob) :
  match query with
  | GD.PIL_image img_array => GD.preprocess_pil_image img_array
  | GD.Array a => ret a
  end s = (gd_query query, s).
Proof.
  destruct query as [a|a]; [|reflexivity].
  unfold GD.preprocess_pil_image, gd_query, gd_extract_pil, bind, lift, ret.
  destruct (nd_shape a) as [|? [|? [|[|[|[|[|?]]]] [|? ?]]]];
    repeat match goal with
    | |- context [cv2_cvtColor ?x ?c] => destruct (cv2_cvtColor x c); try reflexivity
    | |- context [bool_decide ?P] => destruct (bool_decide P); try reflexivity
    | |- context [cv2_resize ?x ?c] => destruct (cv2_resize x c); try reflexivity
    end.
Qed.

(** [search] after the index step, from state [s]. *)
Lemma gd_search_from query t limit (s : @GD.state blob) :
  GD.is_indexed (GD.self s) = true ->
  GD.search query t limit s
  = match gd_query query with
    | Ok q =>
        (Ok (rank q t limit (GD.image_features (GD.self s))),
         gd_printed (scan_errors q (GD.image_features (GD.self s))) s)
    | Raise e => (Raise e, s)
    end.
Proof.
  intros Hidx. unfold GD.search, bind, get. rewrite Hidx. unfold ret at 1.
  rewrite gd_preprocess_query.
  destruct (gd_query query) as [q|e]; [|reflexivity].
  unfold dict_items. rewrite gd_search_loop. reflexivity.
Qed.

(** Whatever the index step does, a result of [search] is the ranking of
    the index that the engine holds when it returns. *)
Lemma gd_search_is_rank query t limit (s s' : @GD.state blob) res :
  GD.search query t limit s = (Ok res, s') ->
  exists q, gd_query query = Ok q
            /\ res = rank q t limit (GD.image_features (GD.self s')).
Proof.
  unfold GD.search, bind, get. intros H.
  assert (Hloop : forall s1 : @GD.state blob,
    match (match query with
           | GD.PIL_image img_array => GD.preprocess_pil_image img_array
           | GD.Array a => ret a
           end) s1 with
    | (Ok q, s2) =>
        match for_fold (dict_items (GD.image_features (GD.self s2))) []
                (GD.compare_one q t) s2 with
        | (Ok results, s3) => ret (slice_to (sort_reverse snd results) limit) s3
        | (Raise e, s3) => (Raise e, s3)
        end
    | (Raise e, s2) => (Raise e, s2)
    end = (Ok res, s') ->
    exists q, gd_query query = Ok q
              /\ res = rank q t limit (GD.image_features (GD.self s'))).
  { intros s1. rewrite gd_preprocess_query.
    destruct (gd_query query) as [q|e]; [|discriminate].
    unfold dict_items. rewrite gd_search_loop. unfold ret.
    intros H1. inversion H1. subst. eauto. }
  destruct (GD.is_indexed (GD.self s)).
  - unfold ret in H at 1. eapply Hloop, H.
  - destruct (GD.build_index s) as [[[]|e] s1];
      [eapply Hloop, H | discriminate].
Qed.
End DriveSearch.

(** C1.  In both engines, for every index, query, threshold [t] and limit
    [n >= 0], a list returned by [search] has at most [n] entries, every
    score in it is [>= t], and its scores are in descending order. *)
Theorem search_capped_thresholded_descending :
  (forall (blob : Type) (CV : Cv2) (SK : Skimage) (PK : Pickle (dict ndarray) blob)
          (os_listdir : string -> result (list string))
          (path : string) (t : pyfloat) (n : Z) (s s' : @App.state blob) res,
      (0 <= n)%Z ->
      App.search os_listdir path t n s = (Ok res, s') ->
      search_result_ok t n res)
  /\
  (forall (blob : Type) (CV : Cv2) (SK : Skimage) (DR : GD.Drive)
          (PK : Pickle GD.cached_data blob)
          (query : GD.query_image) (t : pyfloat) (n : Z) (s s' : @GD.state blob) res,
      (0 <= n)%Z ->
      GD.search query t n s = (Ok res, s') ->
      search_result_ok t n res).
Proof.
  split; intros.
  - match goal with H : App.search _ _ _ _ _ = _ |- _ =>
      apply app_search_is_rank in H as (q & _ & ->) end.
    apply rank_ok. assumption.
  - match goal with H : GD.search _ _ _ _ = _ |- _ =>
      apply gd_search_is_rank in H as (q & _ & ->) end.
    apply rank_ok. assumption.
Qed.

(** ** Dicts *)

Section DictFacts.
Context {V : Type}.
Implicit Types (d : dict V) (k : string) (v : V).

Lemma dict_get_mapping k d : dict_get k d = dict_mapping d !! k.
Proof.
  unfold dict_mapping. induction d as [|[k' v'] d IH]; simpl.
  - symmetry. apply lookup_empty.
  - destruct (decide (k = k')) as [->|Hne].
    + symmetry. apply lookup_insert_eq.
    + rewrite lookup_insert_ne by congruence. exact IH.
Qed.

Lemma dict_mapping_set k v d :
  dict_mapping (dict_set k v d) = <[k := v]> (dict_mapping d).
Proof.
  unfold dict_mapping. induction d as [|[k' v'] d IH]; simpl.
  - reflexivity.
  - destruct (decide (k = k')) as [->|Hne]; simpl.
    + symmetry. apply insert_insert_eq.
    + rewrite IH. apply insert_insert_ne. congruence.
Qed.

Lemma dict_contains_keys k d : dict_contains k d = true <-> k ∈ dict_keys d.
Proof.
  unfold dict_contains, dict_keys. induction d as [|[k' v'] d IH]; simpl.
  - split; [discriminate | intros H; inversion H].
  - destruct (decide (k = k')) as [->|Hne].
    + split; [intros _; left | reflexivity].
    + rewrite IH. split; [intros H; right; exact H|].
      intros H. inversion H; subst; [congruence | assumption].
Qed.

Lemma dict_set_fresh k v d : k ∉ dict_keys d -> dict_set k v d = d ++ [(k, v)].
Proof.
  unfold dict_keys. induction d as [|[k' v'] d IH]; simpl; intros Hk.
  - reflexivity.
  - apply not_elem_of_cons in Hk as [Hne Hk].
    destruct (decide (k = k')); [congruence|]. rewrite IH by exact Hk. reflexivity.
Qed.

(** Adding pairs with fresh, distinct keys appends them in order. *)
Lemma dict_set_all_fresh items d :
  NoDup (dict_keys d ++ items.*1) -> dict_set_all items d = d ++ items.
Proof.
  unfold dict_set_all, dict_keys. revert d.
  induction items as [|[k v] items IH]; intros d Hnd; simpl.
  - symmetry. apply app_nil_r.
  - rewrite dict_set_fresh.
    + rewrite IH.
      * rewrite <- app_assoc. reflexivity.
      * rewrite fmap_app. simpl. rewrite <- app_assoc. exact Hnd.
    + apply NoDup_app in Hnd as (_ & Hdisj & _). intros Hin.
      apply (Hdisj k Hin). simpl. left.
Qed.

Lemma dict_mapping_set_all items d :
  dict_mapping (dict_set_all items d)
  = foldl (fun m kv => <[kv.1 := kv.2]> m) (dict_mapping d) items.
Proof.
  unfold dict_set_all. revert d. induction items as [|[k v] items IH]; intros d.
  - reflexivity.
  - simpl. rewrite IH, dict_mapping_set. reflexivity.
Qed.
End DictFacts.

(** ** [ImageSearchEngine]: building the index *)

Lemma os_path_join_inj dir a b :
  String.prefix "/" a = false -> String.prefix "/" b = false ->
  os_path_join dir a = os_path_join dir b -> a = b.
Proof.
  unfold os_path_join. intros -> ->.
  destruct (String.eqb dir "" || endswith dir "/"); intros H.
  - eapply String.app_inj, H.
  - apply String.app_inj in H. eapply String.app_inj, H.
Qed.

Section AppBuild.
Context {blob : Type} {CV : Cv2} {SK : Skimage} {PK : Pickle (dict ndarray) blob}.
Context (os_listdir : string -> result (list string)).

Lemma app_index_one filename (s : @App.state blob) :
  App.index_one filename s = (Ok tt, app_indexed [filename] s).
Proof.
  destruct s as [[dir feats idx] [f w o]].
  unfold App.index_one, app_indexed.
  cbn [App.self App.env App.image_directory App.image_features App.is_indexed
       App.index_file App.writable App.stdout omap list_omap].
  change (endswith_any (lower filename) App.image_suffixes) with (is_image filename).
  unfold app_entry, app_entry_error.
  destruct (is_image filename).
  - unfold bind at 1. unfold get at 1. unfold try_except, bind.
    rewrite app_preprocess_image.
    cbn [App.self App.image_directory].
    destruct (app_extract (os_path_join dir filename)) as [a|e].
    + cbn. rewrite app_nil_r. reflexivity.
    + reflexivity.
  - unfold ret. cbn. rewrite app_nil_r. reflexivity.
Qed.

Lemma app_indexed_cons filename names (s : @App.state blob) :
  app_indexed (filename :: names) s = app_indexed names (app_indexed [filename] s).
Proof.
  unfold app_indexed. simpl.
  destruct (app_entry _ filename), (app_entry_error _ filename); simpl;
    rewrite ?app_nil_r, <- ?app_assoc; reflexivity.
Qed.

(** The loop never raises: a failing file only prints a line. *)
Lemma app_build_loop names (s : @App.state blob) :
  for_each names App.index_one s = (Ok tt, app_indexed names s).
Proof.
  revert s. induction names as [|n names IH]; intros s.
  - destruct s as [[dir feats idx] [f w o]]. unfold app_indexed. simpl.
    rewrite app_nil_r. reflexivity.
  - simpl. unfold bind. rewrite app_index_one, IH, <- app_indexed_cons. reflexivity.
Qed.

Lemma app_build_index_rebuild force_rebuild names (s : @App.state blob) :
  app_rebuilds force_rebuild s ->
  os_listdir (App.image_directory (App.self s)) = Ok names ->
  App.writable (App.env s) = true ->
  App.build_index os_listdir force_rebuild s = (Ok tt, app_rebuilt names s).
Proof.
  intros Hre Hls Hw. destruct s as [[dir feats idx] [f w o]].
  unfold app_rebuilds in Hre. simpl in *. subst w.
  unfold App.build_index, bind, get. simpl.
  assert (Hc : idx && negb force_rebuild = false
               /\ bool_decide (is_Some f) && negb force_rebuild = false).
  { destruct Hre as [->|[-> ->]]; simpl.
    - rewrite !andb_false_r. auto.
    - split; reflexivity. }
  destruct Hc as [-> ->]. unfold App.set_image_features, modify, lift. simpl.
  rewrite Hls, app_build_loop. unfold app_indexed, App.dump_index_file, bind, get.
  simpl. reflexivity.
Qed.
End AppBuild.

(** ** [GoogleDriveImageSearchEngine]: building the index *)

Section DriveBuild.
Context {blob : Type} {CV : Cv2} {SK : Skimage} {DR : GD.Drive}
        {PK : Pickle GD.cached_data blob}.

Lemma gd_preprocess_image_from_buffer b (s : @GD.state blob) :
  GD.preprocess_image_from_buffer b s
  = (match cv2_imdecode b with
     | None => Raise (mk_exn "ValueError" "Could not decode image")
     | Some img =>
         match cv2_cvtColor img COLOR_BGR2GRAY with
         | Ok gray => cv2_resize gray (256, 256)%nat
         | Raise e => Raise e
         end
     end, s).
Proof.
  unfold GD.preprocess_image_from_buffer.
  destruct (cv2_imdecode b) as [img|]; [|reflexivity].
  unfold bind, lift, ret.
  destruct (cv2_cvtColor img COLOR_BGR2GRAY) as [gray|e]; [|reflexivity].
  destruct (cv2_resize gray (256, 256)%nat); reflexivity.
Qed.

Lemma gd_index_one total item (s : @GD.state blob) :
  GD.index_one total item s = (Ok tt, gd_indexed total [item] s).
Proof.
  destruct s as [[fid feats md idx] [f w u o]]. destruct item as [i fl].
  unfold GD.index_one, gd_indexed, gd_update.
  cbn [GD.self GD.env GD.image_features GD.image_metadata GD.is_indexed
       GD.folder_id GD.cache_file GD.writable GD.ui GD.stdout
       omap list_omap fmap list_fmap flat_map snd fst].
  unfold gd_entry, gd_meta_entry, gd_item_events, gd_extract.
  unfold try_except, bind, GD.st, modify, GD.download_image, lift.
  cbn [GD.self GD.env GD.image_features GD.image_metadata GD.is_indexed
       GD.folder_id GD.cache_file GD.writable GD.ui GD.stdout snd fst].
  destruct (GD.drive_get_media (GD.id fl)) as [buf|e].
  - rewrite gd_preprocess_image_from_buffer.
    destruct (cv2_imdecode buf) as [img|].
    + destruct (cv2_cvtColor img COLOR_BGR2GRAY) as [gray|e].
      * destruct (cv2_resize gray (256, 256)%nat) as [r|e]; cbn;
          rewrite ?app_nil_r, <- ?app_assoc; reflexivity.
      * cbn. rewrite ?app_nil_r, <- ?app_assoc. reflexivity.
    + cbn. rewrite ?app_nil_r, <- ?app_assoc. reflexivity.
  - cbn. rewrite ?app_nil_r, <- ?app_assoc. reflexivity.
Qed.

Lemma gd_indexed_cons total item items (s : @GD.state blob) :
  gd_indexed total (item :: items) s
  = gd_indexed total items (gd_indexed total [item] s).
Proof.
  unfold gd_indexed, gd_update, gd_entry, gd_meta_entry. simpl.
  destruct (gd_extract (GD.id item.2)); simpl;
    rewrite ?app_nil_r, <- ?app_assoc; reflexivity.
Qed.

(** The loop never raises: a failing file only shows a warning. *)
Lemma gd_build_loop total items (s : @GD.state blob) :
  for_each items (GD.index_one total) s = (Ok tt, gd_indexed total items s).
Proof.
  revert s. induction items as [|item items IH]; intros s.
  - destruct s as [[fid feats md idx] [f w u o]]. unfold gd_indexed, gd_update.
    simpl. rewrite app_nil_r. reflexivity.
  - simpl. unfold bind. rewrite gd_index_one, IH, <- gd_indexed_cons. reflexivity.
Qed.

Lemma enumerate_snd {A : Type} (l : list A) : (GD.enumerate l).*2 = l.
Proof. unfold GD.enumerate. apply snd_zip. rewrite length_seq. reflexivity. Qed.

Lemma gd_update_nil (s : @GD.state blob) :
  gd_update (GD.image_features (GD.self s)) (GD.image_metadata (GD.self s)) [] s = s.
Proof.
  destruct s as [[fid feats md idx] [f w u o]]. unfold gd_update. simpl.
  rewrite app_nil_r. reflexivity.
Qed.

Lemma gd_load_cache (s : @GD.state blob) :
  GD.load_cache s
  = match gd_loaded_index s with
    | Ok (feats, md) => (Ok tt, gd_update feats md [] s)
    | Raise e => (Raise e, s)
    end.
Proof.
  destruct s as [[fid feats md idx] [f w u o]].
  unfold GD.load_cache, gd_loaded_index, bind, get, GD.load_cache_file, gd_update.
  cbn [GD.self GD.env GD.cache_file].
  destruct f as [b|].
  - rewrite bool_decide_eq_true_2 by eauto. unfold bind, get, lift.
    cbn [GD.self GD.env GD.cache_file].
    destruct (pickle_loads b) as [cached|e]; [|reflexivity].
    cbn. rewrite app_nil_r. reflexivity.
  - cbn. rewrite app_nil_r. reflexivity.
Qed.

Lemma gd_save_cache (s : @GD.state blob) :
  GD.save_cache s
  = if GD.writable (GD.env s) then (Ok tt, gd_saved s)
    else (Raise (mk_exn "PermissionError" "gdrive_index_cache.pkl"), s).
Proof.
  unfold GD.save_cache, GD.dump_cache_file, bind, get.
  destruct (GD.writable (GD.env s)); reflexivity.
Qed.

(** [build_index], path by path. *)
Lemma gd_build_index_eq (s : @GD.state blob) :
  GD.build_index s
  = match gd_loaded_index s with
    | Raise e => (Raise e, s)
    | Ok (feats, md) =>
        match GD.drive_files_list (GD.folder_id (GD.self s)) with
        | Raise e => (Raise e, gd_update feats md [] s)
        | Ok files => gd_build_from feats md files s
        end
    end.
Proof.
  unfold GD.build_index. unfold bind at 1. rewrite gd_load_cache.
  destruct (gd_loaded_index s) as [[feats md]|e]; [|reflexivity].
  unfold bind at 1. unfold GD.list_images_in_folder.
  unfold bind at 1. unfold get at 1. unfold lift at 1.
  cbn [GD.self gd_update GD.folder_id].
  destruct (GD.drive_files_list (GD.folder_id (GD.self s))) as [files|e];
    [|reflexivity].
  destruct s as [[fid feats0 md0 idx] [f w u o]].
  unfold gd_build_from. destruct files as [|f0 files].
  - unfold GD.st, modify, gd_update. simpl.
    rewrite app_nil_r. reflexivity.
  - cbn [GD.self gd_update GD.image_metadata].
    destruct (GD.new_files_of md (f0 :: files)) as [|n0 nf] eqn:Hnf.
    + unfold bind, get, GD.st, GD.set_is_indexed, modify, gd_update, gd_mark_indexed.
      simpl. simpl in Hnf. rewrite Hnf. simpl. rewrite app_nil_r. reflexivity.
    + unfold bind at 1. unfold get at 1.
      cbn [GD.self gd_update GD.image_metadata]. rewrite Hnf.
      unfold bind at 1. unfold GD.st at 1. unfold modify at 1.
      unfold bind at 1. rewrite gd_build_loop.
      unfold bind at 1. rewrite gd_save_cache.
      cbn [GD.self GD.env gd_update GD.writable gd_indexed
           GD.cache_file GD.ui GD.stdout GD.image_features GD.image_metadata
           GD.folder_id GD.is_indexed].
      destruct w; [|rewrite app_nil_r; reflexivity].
      unfold bind, GD.st, GD.set_is_indexed, modify, gd_update, gd_mark_indexed,
        gd_saved.
      simpl. rewrite app_nil_r, <- !app_assoc. reflexivity.
Qed.
End DriveBuild.

(** ** Order of occurrence in a list *)

Section Before.
Context {A : Type}.
Implicit Types (a b x : A) (l r : list A).

Lemma before_cons x a b l : before a b l -> before a b (x :: l).
Proof. intros (l1 & l2 & l3 & ->). exists (x :: l1), l2, l3. reflexivity. Qed.

Lemma before_app_l a b l r : before a b l -> before a b (l ++ r).
Proof.
  intros (l1 & l2 & l3 & ->). exists l1, l2, (l3 ++ r).
  rewrite <- !app_assoc. simpl. rewrite <- app_assoc. reflexivity.
Qed.

Lemma before_head a b l : b ∈ l -> before a b (a :: l).
Proof.
  intros Hb. apply list_elem_of_split in Hb as (l2 & l3 & ->).
  exists [], l2, l3. reflexivity.
Qed.

Lemma before_inv_cons x a b l :
  before a b (x :: l) -> (x = a /\ b ∈ l) \/ before a b l.
Proof.
  intros (l1 & l2 & l3 & H). destruct l1 as [|y l1]; simpl in H.
  - inversion H; subst. left. split; [reflexivity|].
    apply elem_of_app. right. left.
  - inversion H; subst. right. exists l1, l2, l3. reflexivity.
Qed.

Lemma before_filter (P : A -> bool) a b l :
  before a b (List.filter P l) -> before a b l.
Proof.
  induction l as [|x l IH]; simpl; intros H.
  - destruct H as ([|? ?] & ? & ? & H); discriminate.
  - destruct (P x).
    + apply before_inv_cons in H as [[-> Hb]|H].
      * apply before_head. apply list_elem_of_In in Hb.
        apply filter_In in Hb as [Hb _]. apply list_elem_of_In, Hb.
      * apply before_cons, IH, H.
    + apply before_cons, IH, H.
Qed.

Lemma before_filter_keep (P : A -> bool) a b l :
  P a = true -> P b = true -> before a b l -> before a b (List.filter P l).
Proof.
  intros Ha Hb (l1 & l2 & l3 & ->).
  exists (List.filter P l1), (List.filter P l2), (List.filter P l3).
  rewrite List.filter_app. simpl. rewrite Ha, List.filter_app. simpl. rewrite Hb.
  reflexivity.
Qed.

Lemma before_omap {B : Type} (f : B -> option A) a b (items : list B) :
  before a b (omap f items) ->
  exists u v : B, f u = Some a /\ f v = Some b /\ before u v items.
Proof.
  induction items as [|z items IH]; simpl; intros H.
  - destruct H as ([|? ?] & ? & ? & H); discriminate.
  - destruct (f z) as [c|] eqn:Hz.
    + apply before_inv_cons in H as [[-> Hb]|H].
      * apply list_elem_of_omap in Hb as (y & Hy & Hfy).
        exists z, y. split; [exact Hz|]. split; [exact Hfy|].
        apply list_elem_of_split in Hy as (l2 & l3 & ->).
        exists [], l2, l3. reflexivity.
      * destruct (IH H) as (u & v & Hu & Hv & Huv).
        exists u, v. split; [exact Hu|]. split; [exact Hv|].
        destruct Huv as (l1 & l2 & l3 & ->). exists (z :: l1), l2, l3. reflexivity.
    + destruct (IH H) as (u & v & Hu & Hv & Huv).
      exists u, v. split; [exact Hu|]. split; [exact Hv|].
      destruct Huv as (l1 & l2 & l3 & ->). exists (z :: l1), l2, l3. reflexivity.
Qed.
End Before.

(** Two results of equal score come out of the ranking in the order in
    which their entries are in the index. *)
Lemma rank_stable {SK : Skimage} q t limit items a b :
  before a b (rank q t limit items) ->
  float_eq a.2 b.2 = true ->
  exists fa fb, before (a.1, fa) (b.1, fb) items.
Proof.
  unfold rank. intros Hab Heq.
  destruct (slice_to_prefix (sort_reverse snd (scan q t items)) limit) as [rest Hrest].
  apply (before_app_l _ _ _ rest) in Hab. rewrite <- Hrest in Hab.
  assert (Hbb : float_eq b.2 b.2 = true).
  { apply float_eq_le in Heq as [_ Hba]. apply float_le_not_nan in Hba as [Hb _].
    unfold float_eq. destruct (b.2); try discriminate; simpl; auto.
    assert (Hq : Qle_bool q0 q0 = true) by (apply Qle_bool_iff, Qle_refl).
    rewrite Hq. reflexivity. }
  apply (before_filter_keep (fun x => float_eq x.2 b.2)) in Hab; [|exact Heq|exact Hbb].
  change (before a b (with_key snd b.2 (sort_reverse snd (scan q t items)))) in Hab.
  rewrite sort_reverse_stable in Hab. apply before_filter in Hab.
  apply before_omap in Hab as ([ka fa] & [kb fb] & Ha & Hb & Hxy).
  unfold scan_one in Ha, Hb. simpl in Ha, Hb.
  destruct (ssim q fa) as [sa|]; [|discriminate].
  destruct (float_ge sa t); [|discriminate].
  destruct (ssim q fb) as [sb|]; [|discriminate].
  destruct (float_ge sb t); [|discriminate].
  inversion Ha; inversion Hb; subst. simpl. eauto.
Qed.

Lemma scan_none {SK : Skimage} q t items :
  Forall (fun item => forall sc, ssim q item.2 = Ok sc -> float_ge sc t = false) items ->
  scan q t items = [].
Proof.
  induction 1 as [|item items Hi _ IH]; [reflexivity|].
  unfold scan in *.
  change (omap (scan_one q t) (item :: items))
    with (match scan_one q t item with
          | Some y => y :: omap (scan_one q t) items
          | None => omap (scan_one q t) items
          end).
  rewrite IH. unfold scan_one.
  destruct (ssim q item.2) as [sc|]; [|reflexivity].
  rewrite (Hi sc eq_refl). reflexivity.
Qed.

Lemma rank_none {SK : Skimage} q t limit items :
  Forall (fun item => forall sc, ssim q item.2 = Ok sc -> float_ge sc t = false) items ->
  rank q t limit items = [].
Proof. intros H. unfold rank. rewrite (scan_none _ _ _ H). apply slice_to_nil. Qed.

(** C6.  In both engines, when two entries of a search result have equal
    scores, the one that comes first in the result is the one whose entry
    comes first in the iteration order of the index: the sort is stable. *)
Theorem search_ties_in_index_order :
  (forall (blob : Type) (CV : Cv2) (SK : Skimage) (PK : Pickle (dict ndarray) blob)
          (os_listdir : string -> result (list string))
          (path : string) (t : pyfloat) (n : Z) (s s' : @App.state blob) res a b,
      App.search os_listdir path t n s = (Ok res, s') ->
      before a b res ->
      float_eq a.2 b.2 = true ->
      exists fa fb,
        before (a.1, fa) (b.1, fb) (dict_items (App.image_features (App.self s'))))
  /\
  (forall (blob : Type) (CV : Cv2) (SK : Skimage) (DR : GD.Drive)
          (PK : Pickle GD.cached_data blob)
          (query : GD.query_image) (t : pyfloat) (n : Z) (s s' : @GD.state blob) res a b,
      GD.search query t n s = (Ok res, s') ->
      before a b res ->
      float_eq a.2 b.2 = true ->
      exists fa fb,
        before (a.1, fa) (b.1, fb) (dict_items (GD.image_features (GD.self s')))).
Proof.
  split; intros.
  - match goal with H : App.search _ _ _ _ _ = _ |- _ =>
      apply app_search_is_rank in H as (q & _ & ->) end.
    eapply rank_stable; eassumption.
  - match goal with H : GD.search _ _ _ _ = _ |- _ =>
      apply gd_search_is_rank in H as (q & _ & ->) end.
    eapply rank_stable; eassumption.
Qed.

(** C10.  In both engines, [search] on an engine whose [is_indexed] flag is
    set leaves the engine object as it was: [image_features],
    [image_metadata] and [is_indexed] are the same after the call, whether
    it returns or raises. *)
Theorem search_leaves_engine_unchanged :
  (forall (blob : Type) (CV : Cv2) (SK : Skimage) (PK : Pickle (dict ndarray) blob)
          (os_listdir : string -> result (list string))
          (path : string) (t : pyfloat) (n : Z) (s : @App.state blob),
      App.is_indexed (App.self s) = true ->
      App.self (snd (App.search os_listdir path t n s)) = App.self s)
  /\
  (forall (blob : Type) (CV : Cv2) (SK : Skimage) (DR : GD.Drive)
          (PK : Pickle GD.cached_data blob)
          (query : GD.query_image) (t : pyfloat) (n : Z) (s : @GD.state blob),
      GD.is_indexed (GD.self s) = true ->
      GD.self (snd (GD.search query t n s)) = GD.self s).
Proof.
  split; intros * Hidx.
  - rewrite (app_search_from _ _ _ _ _ Hidx).
    destruct (app_extract path); reflexivity.
  - rewrite (gd_search_from _ _ _ _ Hidx).
    destruct (gd_query query); reflexivity.
Qed.

(** The stored images of the local demo engine score 1, 13/51 and 1 against
    the first of them; the search keeps the two that tie in index order. *)
Example demo_app_search :
  fst (Demo.app_search "imgs/a.png" (F_fin (1 # 5)) 3 Demo.app_built)
  = Ok [("imgs/a.png", F_fin (255 # 255)); ("imgs/c.png", F_fin (255 # 255));
        ("imgs/b.JPG", F_fin (65 # 255))].
Proof. reflexivity. Qed.

Example demo_gd_search :
  fst (Demo.gd_search (GD.Array (Demo.flat 10)) (F_fin (1 # 5)) 3 Demo.gd_loaded)
  = Ok [("id-x", F_fin (255 # 255)); ("id-z", F_fin (255 # 255));
        ("id-y", F_fin (65 # 255))].
Proof. reflexivity. Qed.

(** A call as the pair of its outcome and its final state. *)
Lemma run_eq {S A : Type} (m : M S A) (s : S) (r : result A) :
  fst (m s) = r -> m s = (r, snd (m s)).
Proof. intros <-. apply surjective_pairing. Qed.

(** The theorem for C1 at the two demo engines, threshold 1/5. *)
Lemma search_capped_thresholded_descending_witness :
  search_result_ok (F_fin (1 # 5)) 3
    [("imgs/a.png", F_fin (255 # 255)); ("imgs/c.png", F_fin (255 # 255));
     ("imgs/b.JPG", F_fin (65 # 255))]
  /\ search_result_ok (F_fin (1 # 5)) 2
       [("id-x", F_fin (255 # 255)); ("id-z", F_fin (255 # 255))].
Proof.
  split.
  - apply (proj1 search_capped_thresholded_descending _ Demo.cv2 Demo.skimage
             (Demo.pickle _) Demo.listdir "imgs/a.png" (F_fin (1 # 5)) 3%Z
             Demo.app_built
             (snd (Demo.app_search "imgs/a.png" (F_fin (1 # 5)) 3 Demo.app_built))).
    + lia.
    + apply (run_eq (Demo.app_search "imgs/a.png" (F_fin (1 # 5)) 3)). reflexivity.
  - apply (proj2 search_capped_thresholded_descending _ Demo.cv2 Demo.skimage
             Demo.drive (Demo.pickle _) (GD.Array (Demo.flat 10)) (F_fin (1 # 5)) 2%Z
             Demo.gd_loaded
             (snd (Demo.gd_search (GD.Array (Demo.flat 10)) (F_fin (1 # 5)) 2
                     Demo.gd_loaded))).
    + lia.
    + apply (run_eq (Demo.gd_search (GD.Array (Demo.flat 10)) (F_fin (1 # 5)) 2)).
      reflexivity.
Defined.

(** The entries of an index that do not clear the threshold, as a test. *)
Lemma none_clears_test {SK : Skimage} q t (items : list (string * ndarray)) :
  forallb (fun item => match ssim q item.2 with
                       | Ok sc => negb (float_ge sc t)
                       | Raise _ => true
                       end) items = true ->
  Forall (fun item => forall sc, ssim q item.2 = Ok sc -> float_ge sc t = false) items.
Proof.
  intros H. apply Forall_forall. intros item Hin sc Hsc.
  rewrite forallb_forall in H. apply list_elem_of_In in Hin.
  specialize (H item Hin). rewrite Hsc in H. apply negb_true_iff, H.
Qed.

(** The theorem for C6 at the two demo engines: the two entries that tie
    against the query are in the index in the order of the result. *)
Lemma search_ties_in_index_order_witness :
  (exists fa fb,
     before ("imgs/a.png", fa) ("imgs/c.png", fb)
       (dict_items (App.image_features (App.self
          (snd (Demo.app_search "imgs/a.png" (F_fin (1 # 5)) 3 Demo.app_built))))))
  /\ (exists fa fb, before ("id-x", fa) ("id-z", fb) (dict_items Demo.gd_index)).
Proof.
  split.
  - apply (proj1 search_ties_in_index_order _ Demo.cv2 Demo.skimage
             (Demo.pickle _) Demo.listdir "imgs/a.png" (F_fin (1 # 5)) 3%Z
             Demo.app_built _
             [("imgs/a.png", F_fin (255 # 255)); ("imgs/c.png", F_fin (255 # 255));
              ("imgs/b.JPG", F_fin (65 # 255))]
             ("imgs/a.png", F_fin (255 # 255)) ("imgs/c.png", F_fin (255 # 255))).
    + apply (run_eq (Demo.app_search "imgs/a.png" (F_fin (1 # 5)) 3)). reflexivity.
    + exists [], [], [("imgs/b.JPG", F_fin (65 # 255))]. reflexivity.
    + reflexivity.
  - apply (proj2 search_ties_in_index_order _ Demo.cv2 Demo.skimage
             Demo.drive (Demo.pickle _) (GD.Array (Demo.flat 10)) (F_fin (1 # 5)) 3%Z
             Demo.gd_loaded
             (snd (Demo.gd_search (GD.Array (Demo.flat 10)) (F_fin (1 # 5)) 3
                     Demo.gd_loaded))
             [("id-x", F_fin (255 # 255)); ("id-z", F_fin (255 # 255));
              ("id-y", F_fin (65 # 255))]
             ("id-x", F_fin (255 # 255)) ("id-z", F_fin (255 # 255))).
    + apply (run_eq (Demo.gd_search (GD.Array (Demo.flat 10)) (F_fin (1 # 5)) 3)).
      reflexivity.
    + exists [], [], [("id-y", F_fin (65 # 255))]. reflexivity.
    + reflexivity.
Defined.

(** The theorem for C10 at the two demo engines. *)
Lemma search_leaves_engine_unchanged_witness :
  App.self (snd (Demo.app_search "imgs/a.png" (F_fin (1 # 5)) 3 Demo.app_built))
  = App.self Demo.app_built
  /\ GD.self (snd (Demo.gd_search (GD.Array (Demo.flat 10)) (F_fin (1 # 5)) 3
                     Demo.gd_loaded))
     = GD.self Demo.gd_loaded.
Proof.
  split.
  - apply (proj1 search_leaves_engine_unchanged _ Demo.cv2 Demo.skimage
             (Demo.pickle _) Demo.listdir "imgs/a.png" (F_fin (1 # 5)) 3%Z
             Demo.app_built).
    reflexivity.
  - apply (proj2 search_leaves_engine_unchanged _ Demo.cv2 Demo.skimage
             Demo.drive (Demo.pickle _) (GD.Array (Demo.flat 10)) (F_fin (1 # 5)) 3%Z
             Demo.gd_loaded).
    reflexivity.
Defined.

(** ** One bad item in a batch *)

Lemma omap_cons {A B : Type} (f : A -> option B) (x : A) (l : list A) :
  omap f (x :: l)
  = match f x with Some y => y :: omap f l | None => omap f l end.
Proof. reflexivity. Qed.

Lemma omap_keys_sublist {A V : Type} (f : A -> option (string * V))
    (key : A -> string) (l : list A) :
  (forall x kv, f x = Some kv -> kv.1 = key x) ->
  (omap f l).*1 `sublist_of` key <$> l.
Proof.
  intros Hkey. induction l as [|x l IH]; [constructor|].
  rewrite omap_cons, fmap_cons. destruct (f x) as [kv|] eqn:Hx.
  - rewrite fmap_cons, (Hkey x kv Hx). constructor. exact IH.
  - constructor. exact IH.
Qed.

Lemma omap_length_filter {A B : Type} (f : A -> option B) (p : A -> bool)
    (l : list A) :
  Forall (fun x => p x = true <-> is_Some (f x)) l ->
  length (omap f l) = length (List.filter p l).
Proof.
  induction 1 as [|x l Hx _ IH]; [reflexivity|].
  rewrite omap_cons. simpl List.filter.
  destruct (f x) as [y|] eqn:Hf, (p x) eqn:Hp; simpl length.
  - rewrite IH. reflexivity.
  - destruct Hx as [_ Hx]. specialize (Hx (ex_intro _ y eq_refl)). discriminate.
  - destruct Hx as [Hx _]. destruct (Hx eq_refl) as [? ?]. discriminate.
  - exact IH.
Qed.

Lemma omap_all_none {A B : Type} (f : A -> option B) (l : list A) :
  Forall (fun x => f x = None) l -> omap f l = [].
Proof.
  induction 1 as [|x l Hx _ IH]; [reflexivity|].
  rewrite omap_cons, Hx. exact IH.
Qed.

Section AppBatch.
Context {blob : Type} {CV : Cv2} {SK : Skimage} {PK : Pickle (dict ndarray) blob}.

Lemma app_entry_keys_NoDup dir names :
  NoDup names -> Forall (fun n => String.prefix "/" n = false) names ->
  NoDup (omap (app_entry dir) names).*1.
Proof.
  intros Hnd Hplain.
  eapply sublist_NoDup.
  - apply (NoDup_fmap_2_strong (os_path_join dir)); [|exact Hnd].
    intros a b Ha Hb. rewrite Forall_forall in Hplain.
    apply os_path_join_inj; auto.
  - apply omap_keys_sublist.
    intros n kv. unfold app_entry.
    destruct (is_image n); [|discriminate].
    destruct (app_extract (os_path_join dir n)); [|discriminate].
    intros H. inversion H. reflexivity.
Qed.

Lemma app_all_ok_entries dir names :
  app_all_ok dir names ->
  length (omap (app_entry dir) names) = length (List.filter is_image names)
  /\ omap (app_entry_error dir) names = [].
Proof.
  intros Hok. split.
  - apply omap_length_filter. eapply Forall_impl; [exact Hok|].
    cbv beta. intros n Hn. unfold app_entry.
    destruct (is_image n).
    + destruct (Hn eq_refl) as [a ->]. split; eauto.
    + split; [discriminate | intros [? ?]; discriminate].
  - apply omap_all_none. eapply Forall_impl; [exact Hok|].
    cbv beta. intros n Hn. unfold app_entry_error.
    destruct (is_image n); [|reflexivity].
    destruct (Hn eq_refl) as [a ->]. reflexivity.
Qed.

(** A rebuild over a listing with one bad image file among files that are
    processed without error. *)
Lemma app_rebuilt_one_bad dir l1 bad l2 e :
  NoDup (l1 ++ bad :: l2) ->
  Forall (fun n => String.prefix "/" n = false) (l1 ++ bad :: l2) ->
  app_all_ok dir (l1 ++ l2) ->
  is_image bad = true ->
  app_extract (os_path_join dir bad) = Raise e ->
  dict_len (dict_set_all (omap (app_entry dir) (l1 ++ bad :: l2)) [])
  = length (List.filter is_image (l1 ++ l2))
  /\ omap (app_entry_error dir) (l1 ++ bad :: l2)
     = [("Error processing " ++ os_path_join dir bad ++ ": " ++ exn_str e)%string].
Proof.
  intros Hnd Hplain Hok Hbad He.
  apply Forall_app in Hok as [Hok1 Hok2].
  destruct (app_all_ok_entries dir l1 Hok1) as [Hlen1 Herr1].
  destruct (app_all_ok_entries dir l2 Hok2) as [Hlen2 Herr2].
  split.
  - rewrite dict_set_all_fresh
      by (apply (app_entry_keys_NoDup dir _ Hnd Hplain)).
    unfold dict_len. rewrite app_nil_l, omap_app, length_app, omap_cons.
    unfold app_entry at 2. rewrite Hbad, He.
    rewrite List.filter_app, length_app. lia.
  - rewrite omap_app, omap_cons. unfold app_entry_error at 2. rewrite Hbad, He.
    rewrite Herr1, Herr2. reflexivity.
Qed.
End AppBatch.

Section DriveBatch.
Context {blob : Type} {CV : Cv2} {SK : Skimage} {DR : GD.Drive}
        {PK : Pickle GD.cached_data blob}.

Lemma gd_entry_keys_NoDup files :
  NoDup (GD.id <$> files) ->
  NoDup (omap gd_entry files).*1 /\ NoDup (omap gd_meta_entry files).*1.
Proof.
  intros Hnd. split; (eapply sublist_NoDup; [exact Hnd|]);
    apply omap_keys_sublist; intros f kv.
  - unfold gd_entry. destruct (gd_extract (GD.id f)); [|discriminate].
    intros H. inversion H. reflexivity.
  - unfold gd_meta_entry. destruct (gd_extract (GD.id f)); [|discriminate].
    intros H. inversion H. reflexivity.
Qed.

Lemma gd_all_ok_entries files :
  gd_all_ok files ->
  length (omap gd_entry files) = length files
  /\ length (omap gd_meta_entry files) = length files
  /\ omap gd_warning files = [].
Proof.
  induction 1 as [|f files [a Ha] _ (IH1 & IH2 & IH3)]; [auto|].
  rewrite !omap_cons. unfold gd_entry at 1, gd_meta_entry at 1, gd_warning at 1.
  rewrite Ha. simpl. auto.
Qed.

Lemma warnings_item_events total items :
  warnings (flat_map (gd_item_events total) items) = omap gd_warning items.*2.
Proof.
  induction items as [|[i f] items IH]; [reflexivity|].
  rewrite fmap_cons, omap_cons. unfold gd_warning at 1.
  simpl. unfold warnings in *. rewrite List.filter_app, IH.
  destruct (gd_extract (GD.id f)); reflexivity.
Qed.

Lemma new_files_of_nil files : GD.new_files_of [] files = files.
Proof.
  unfold GD.new_files_of. induction files as [|f files IH]; [reflexivity|].
  simpl. f_equal. exact IH.
Qed.

Lemma gd_built_index feats md nf (s : @GD.state blob) :
  GD.image_features (GD.self (gd_built feats md nf s))
  = dict_set_all (omap gd_entry nf) feats
  /\ GD.image_metadata (GD.self (gd_built feats md nf s))
     = dict_set_all (omap gd_meta_entry nf) md
  /\ warnings (GD.ui (GD.env (gd_built feats md nf s)))
     = warnings (GD.ui (GD.env s)) ++ omap gd_warning nf.
Proof.
  unfold gd_built, gd_mark_indexed, gd_update, gd_saved, gd_indexed, gd_update.
  cbn [GD.self GD.env GD.image_features GD.image_metadata GD.ui].
  rewrite enumerate_snd. split; [reflexivity|]. split; [reflexivity|].
  unfold warnings. rewrite !List.filter_app.
  change (List.filter is_warning (flat_map (gd_item_events (length nf)) (GD.enumerate nf)))
    with (warnings (flat_map (gd_item_events (length nf)) (GD.enumerate nf))).
  rewrite warnings_item_events, enumerate_snd. simpl.
  rewrite !app_nil_r. reflexivity.
Qed.

(** [build_index] without a cache file, over a listing that is not empty. *)
Lemma gd_build_index_fresh files (s : @GD.state blob) :
  GD.cache_file (GD.env s) = None ->
  GD.drive_files_list (GD.folder_id (GD.self s)) = Ok files ->
  files <> [] ->
  GD.writable (GD.env s) = true ->
  GD.build_index s = (Ok tt, gd_built [] [] files s).
Proof.
  intros Hc Hl Hne Hw. rewrite gd_build_index_eq. unfold gd_loaded_index.
  rewrite Hc, Hl. unfold gd_build_from. rewrite new_files_of_nil, Hw.
  destruct files as [|f files]; [congruence|]. reflexivity.
Qed.
End DriveBatch.

(** ** The persisted snapshot *)

Section AppSnapshot.
Context {blob : Type} {CV : Cv2} {SK : Skimage} {PK : Pickle (dict ndarray) blob}.
Context (os_listdir : string -> result (list string)).

(** [build_index] when it takes the snapshot: not forced, not yet indexed,
    and the index file exists. *)
Lemma app_build_index_load b (s : @App.state blob) :
  App.is_indexed (App.self s) = false ->
  App.index_file (App.env s) = Some b ->
  App.build_index os_listdir false s
  = match pickle_loads b with
    | Ok d => (Ok tt, app_loaded d s)
    | Raise e => (Raise e, s)
    end.
Proof.
  intros Hi Hf. destruct s as [[dir feats idx] [f w o]]. simpl in *. subst.
  unfold App.build_index, bind, get. simpl.
  unfold App.load_index_file, bind, get, lift. simpl.
  destruct (pickle_loads b); reflexivity.
Qed.

(** [build_index] when it goes through the directory, whatever the listing
    and the write do. *)
Lemma app_build_index_rebuild_eq force_rebuild (s : @App.state blob) :
  app_rebuilds force_rebuild s ->
  App.build_index os_listdir force_rebuild s
  = match os_listdir (App.image_directory (App.self s)) with
    | Raise e => (Raise e, app_cleared s)
    | Ok names =>
        if App.writable (App.env s) then (Ok tt, app_rebuilt names s)
        else (Raise (mk_exn "PermissionError" "image_index.pkl"),
              app_indexed names (app_cleared s))
    end.
Proof.
  intros Hre.
  destruct (os_listdir (App.image_directory (App.self s))) as [names|e] eqn:Hls.
  - destruct (App.writable (App.env s)) eqn:Hw.
    + apply app_build_index_rebuild; assumption.
    + destruct s as [[dir feats idx] [f w o]].
      unfold app_rebuilds in Hre. simpl in *. subst w.
      unfold App.build_index, bind, get. simpl.
      assert (Hc : idx && negb force_rebuild = false
                   /\ bool_decide (is_Some f) && negb force_rebuild = false).
      { destruct Hre as [->|[-> ->]]; simpl.
        - rewrite !andb_false_r. auto.
        - split; reflexivity. }
      destruct Hc as [-> ->]. unfold App.set_image_features, modify, lift. simpl.
      rewrite Hls, app_build_loop. unfold app_indexed, App.dump_index_file, bind, get.
      simpl. reflexivity.
  - destruct s as [[dir feats idx] [f w o]].
    unfold app_rebuilds in Hre. simpl in *.
    unfold App.build_index, bind, get. simpl.
    assert (Hc : idx && negb force_rebuild = false
                 /\ bool_decide (is_Some f) && negb force_rebuild = false).
    { destruct Hre as [->|[-> ->]]; simpl.
      - rewrite !andb_false_r. auto.
      - split; reflexivity. }
    destruct Hc as [-> ->]. unfold App.set_image_features, modify, lift. simpl.
    rewrite Hls. reflexivity.
Qed.

(** The three ways through [build_index]. *)
Lemma app_build_index_cases force_rebuild (s : @App.state blob) :
  (App.is_indexed (App.self s) = true /\ force_rebuild = false
   /\ App.build_index os_listdir force_rebuild s = (Ok tt, s))
  \/ (exists b, App.is_indexed (App.self s) = false /\ force_rebuild = false
                /\ App.index_file (App.env s) = Some b)
  \/ app_rebuilds force_rebuild s.
Proof.
  destruct force_rebuild.
  - right. right. left. reflexivity.
  - destruct (App.is_indexed (App.self s)) eqn:Hi.
    + left. split; [reflexivity|]. split; [reflexivity|].
      unfold App.build_index, bind, get. rewrite Hi. reflexivity.
    + destruct (App.index_file (App.env s)) as [b|] eqn:Hf.
      * right. left. exists b. auto.
      * right. right. right. auto.
Qed.

Lemma app_dump_load (X : dict ndarray) (s : @App.state blob) :
  pickle_round_trip PK ->
  App.writable (App.env s) = true ->
  fst (App.dump_index_file X s) = Ok tt
  /\ fst (App.load_index_file (snd (App.dump_index_file X s))) = Ok X.
Proof.
  intros Hrt Hw. unfold App.dump_index_file, App.load_index_file, bind, get.
  rewrite Hw. simpl. unfold lift. rewrite Hrt. auto.
Qed.

(** After a build that did some work and returned, the index file loads to
    the index in memory. *)
Lemma app_build_mirror force_rebuild (s : @App.state blob) :
  pickle_round_trip PK ->
  App.is_indexed (App.self s) = false \/ force_rebuild = true ->
  fst (App.build_index os_listdir force_rebuild s) = Ok tt ->
  let s' := snd (App.build_index os_listdir force_rebuild s) in
  fst (App.load_index_file s') = Ok (App.image_features (App.self s')).
Proof.
  intros Hrt Hwork Hok s'. subst s'.
  destruct (app_build_index_cases force_rebuild s)
    as [(Hi & Hf & _)|[(b & Hi & -> & Hb)|Hre]].
  - destruct Hwork; congruence.
  - rewrite (app_build_index_load _ _ Hi Hb) in *.
    destruct (pickle_loads b) as [d|e] eqn:Hl; [|discriminate].
    unfold App.load_index_file, bind, get, lift. simpl. rewrite Hb, Hl. reflexivity.
  - rewrite (app_build_index_rebuild_eq _ _ Hre) in *.
    destruct (os_listdir (App.image_directory (App.self s))); [|discriminate].
    destruct (App.writable (App.env s)); [|discriminate].
    unfold App.load_index_file, bind, get, lift. simpl. rewrite Hrt. reflexivity.
Qed.
End AppSnapshot.

Section DriveSnapshot.
Context {blob : Type} {CV : Cv2} {SK : Skimage} {DR : GD.Drive}
        {PK : Pickle GD.cached_data blob}.

Lemma gd_save_load (s s2 : @GD.state blob) :
  pickle_round_trip PK ->
  GD.writable (GD.env s) = true ->
  GD.cache_file (GD.env s2) = GD.cache_file (GD.env (snd (GD.save_cache s))) ->
  fst (GD.save_cache s) = Ok tt
  /\ fst (GD.load_cache s2) = Ok tt
  /\ GD.image_features (GD.self (snd (GD.load_cache s2))) = GD.image_features (GD.self s)
  /\ GD.image_metadata (GD.self (snd (GD.load_cache s2))) = GD.image_metadata (GD.self s).
Proof.
  intros Hrt Hw. rewrite gd_save_cache, Hw. simpl. intros Hc.
  rewrite gd_load_cache. unfold gd_loaded_index. rewrite Hc, Hrt. simpl. auto.
Qed.

(** After a build that returned, the cache file loads to the index in
    memory. *)
Lemma gd_build_mirror (s : @GD.state blob) :
  pickle_round_trip PK ->
  fst (GD.build_index s) = Ok tt ->
  let s' := snd (GD.build_index s) in
  gd_loaded_index s'
  = Ok (GD.image_features (GD.self s'), GD.image_metadata (GD.self s')).
Proof.
  intros Hrt Hok s'. subst s'. rewrite gd_build_index_eq in *.
  destruct (gd_loaded_index s) as [[feats md]|e] eqn:Hl; [|discriminate].
  destruct (GD.drive_files_list (GD.folder_id (GD.self s))) as [files|e];
    [|discriminate].
  unfold gd_build_from in *. destruct files as [|f files]; [exact Hl|].
  destruct (GD.new_files_of md (f :: files)) as [|n nf]; [exact Hl|].
  cbn [gd_update GD.env GD.writable] in *.
  destruct (GD.writable (GD.env s)); [|discriminate].
  unfold gd_loaded_index. cbn. rewrite Hrt. reflexivity.
Qed.
End DriveSnapshot.

(** The round trip of a persisted index itself is pickle's: the engines
    hand the index to [pickle.dump] and take what [pickle.load] gives, and
    encode nothing themselves.  The lemmas above say what the engines make
    of a pickle that reads back what it writes ([pickle_round_trip]). *)

Lemma demo_pickle_round_trip (T : Type) : pickle_round_trip (Demo.pickle T).
Proof. intros x. reflexivity. Qed.

(** ** The load step *)

(** The claim of C5 fails on a snapshot that does not unpickle: in both
    engines [build_index] raises the unpickling error to its caller. *)
Lemma corrupt_snapshot_raises :
  fst (Demo.app_build_index false Demo.app_corrupt)
  = Raise (mk_exn "UnpicklingError" "invalid load key")
  /\ fst (Demo.gd_build_index Demo.gd_corrupt)
     = Raise (mk_exn "UnpicklingError" "invalid load key").
Proof. split; reflexivity. Qed.

(** Without a snapshot a first build is the forced build. *)
Lemma app_build_index_absent {blob : Type} {CV : Cv2} {PK : Pickle (dict ndarray) blob}
    (os_listdir : string -> result (list string)) (s : @App.state blob) :
  App.is_indexed (App.self s) = false ->
  App.index_file (App.env s) = None ->
  App.build_index os_listdir false s = App.build_index os_listdir true s.
Proof.
  intros Hi Hf.
  rewrite !app_build_index_rebuild_eq; [reflexivity | left; reflexivity | right; auto].
Qed.

(** C5, amended.  The load step by the state of the snapshot.  Absent: the
    index starts empty and the build goes on (in app.py as a forced build
    does).  Present and unpickled: its content becomes the index.  Present
    but not unpickled: the error of [pickle.load] is raised to the caller of
    [build_index] and the engine is left as it was. *)
Theorem load_step_by_snapshot_state :
  (forall (blob : Type) (CV : Cv2) (PK : Pickle (dict ndarray) blob)
          (os_listdir : string -> result (list string)) (s : @App.state blob),
      App.is_indexed (App.self s) = false ->
      (App.index_file (App.env s) = None ->
       App.build_index os_listdir false s = App.build_index os_listdir true s)
      /\ (forall b d, App.index_file (App.env s) = Some b -> pickle_loads b = Ok d ->
          App.build_index os_listdir false s = (Ok tt, app_loaded d s))
      /\ (forall b e, App.index_file (App.env s) = Some b -> pickle_loads b = Raise e ->
          App.build_index os_listdir false s = (Raise e, s)))
  /\
  (forall (blob : Type) (CV : Cv2) (DR : GD.Drive) (PK : Pickle GD.cached_data blob)
          (s : @GD.state blob),
      (GD.cache_file (GD.env s) = None ->
       GD.load_cache s = (Ok tt, gd_update [] [] [] s))
      /\ (forall b cached, GD.cache_file (GD.env s) = Some b ->
          pickle_loads b = Ok cached ->
          GD.load_cache s
          = (Ok tt, gd_update (default [] (GD.cd_features cached))
                      (default [] (GD.cd_metadata cached)) [] s))
      /\ (forall b e, GD.cache_file (GD.env s) = Some b -> pickle_loads b = Raise e ->
          GD.load_cache s = (Raise e, s) /\ GD.build_index s = (Raise e, s))).
Proof.
  split.
  - intros blob CV PK os_listdir s Hi. split; [|split].
    + apply app_build_index_absent, Hi.
    + intros b d Hb Hl. rewrite (app_build_index_load _ _ _ Hi Hb), Hl. reflexivity.
    + intros b e Hb Hl. rewrite (app_build_index_load _ _ _ Hi Hb), Hl. reflexivity.
  - intros blob CV DR PK s. split; [|split].
    + intros Hc. rewrite gd_load_cache. unfold gd_loaded_index. rewrite Hc. reflexivity.
    + intros b cached Hc Hl. rewrite gd_load_cache. unfold gd_loaded_index.
      rewrite Hc, Hl. reflexivity.
    + intros b e Hc Hl. rewrite gd_build_index_eq, gd_load_cache.
      unfold gd_loaded_index. rewrite Hc, Hl. auto.
Qed.

(** The theorem for C5 in the demo world: a local engine without a
    snapshot, with a snapshot and with one that does not unpickle, and the
    Drive engine with one that does not unpickle. *)
Lemma load_step_by_snapshot_state_witness :
  Demo.app_build_index false Demo.app_fresh = Demo.app_build_index true Demo.app_fresh
  /\ Demo.app_build_index false Demo.app_snapshot
     = (Ok tt, app_loaded Demo.app_index Demo.app_snapshot)
  /\ Demo.app_build_index false Demo.app_corrupt
     = (Raise (mk_exn "UnpicklingError" "invalid load key"), Demo.app_corrupt)
  /\ Demo.gd_build_index Demo.gd_corrupt
     = (Raise (mk_exn "UnpicklingError" "invalid load key"), Demo.gd_corrupt).
Proof.
  split; [|split; [|split]].
  - refine (proj1 (proj1 load_step_by_snapshot_state _ Demo.cv2 (Demo.pickle _)
                     Demo.listdir Demo.app_fresh _) _); reflexivity.
  - refine (proj1 (proj2 (proj1 load_step_by_snapshot_state _ Demo.cv2 (Demo.pickle _)
                     Demo.listdir Demo.app_snapshot _)) (Some Demo.app_index) _ _ _);
      reflexivity.
  - refine (proj2 (proj2 (proj1 load_step_by_snapshot_state _ Demo.cv2 (Demo.pickle _)
                     Demo.listdir Demo.app_corrupt _)) None _ _ _);
      reflexivity.
  - refine (proj2 (proj2 (proj2 (proj2 load_step_by_snapshot_state _ Demo.cv2
                     Demo.drive (Demo.pickle _) Demo.gd_corrupt)) None _ _ _));
      reflexivity.
Defined.

(** ** The shape of the stored features *)

Lemma dict_all_set {V : Type} (P : V -> Prop) k v (d : dict V) :
  P v -> dict_all P d -> dict_all P (dict_set k v d).
Proof.
  unfold dict_all. intros Hv Hd. induction Hd as [|[k' v'] d Hk Hd IH]; simpl.
  - repeat constructor. exact Hv.
  - destruct (decide (k = k')); constructor; auto.
Qed.

Lemma dict_all_set_all {V : Type} (P : V -> Prop) items (d : dict V) :
  dict_all P items -> dict_all P d -> dict_all P (dict_set_all items d).
Proof.
  unfold dict_set_all. intros Hi. revert d.
  induction Hi as [|[k v] items Hk Hi IH]; intros d Hd; simpl; [exact Hd|].
  apply IH, dict_all_set; assumption.
Qed.

Section Canonical.
Context {CV : Cv2} (contract : Cv2_contract CV).

Lemma color_pipeline_canonical img a :
  nd_dtype img = uint8 ->
  (exists h w, nd_shape img = [h; w; 3%nat]) ->
  match cv2_cvtColor img COLOR_BGR2GRAY with
  | Ok gray => cv2_resize gray (256, 256)%nat
  | Raise e => Raise e
  end = Ok a ->
  canonical a.
Proof.
  intros Hd (h & w & Hs) Ha.
  destruct (cv2_cvtColor img COLOR_BGR2GRAY) as [gray|] eqn:Hg; [|discriminate].
  destruct (cvtColor_gray CV contract _ _ _ _ Hg Hs) as [Hgs Hgd].
  destruct (resize_shape CV contract _ _ _ _ _ _ Ha Hgs) as [Hrs Hrd].
  split; [exact Hrs|]. rewrite Hrd, Hgd, Hd. reflexivity.
Qed.

Lemma app_extract_canonical path a : app_extract path = Ok a -> canonical a.
Proof.
  unfold app_extract. destruct (cv2_imread path) as [img|] eqn:Hr; [|discriminate].
  destruct (imread_color CV contract _ _ Hr) as [Hd Hs].
  apply color_pipeline_canonical; assumption.
Qed.

Lemma gd_extract_canonical {DR : GD.Drive} file_id a :
  gd_extract file_id = Ok a -> canonical a.
Proof.
  unfold gd_extract. destruct (GD.drive_get_media file_id) as [buf|]; [|discriminate].
  destruct (cv2_imdecode buf) as [img|] eqn:Hr; [|discriminate].
  destruct (imdecode_color CV contract _ _ Hr) as [Hd Hs].
  apply color_pipeline_canonical; assumption.
Qed.

Lemma app_entries_canonical dir names :
  dict_all canonical (omap (app_entry dir) names).
Proof.
  apply Forall_forall. intros kv Hin.
  apply list_elem_of_omap in Hin as (n & _ & Hn). unfold app_entry in Hn.
  destruct (is_image n); [|discriminate].
  destruct (app_extract (os_path_join dir n)) as [a|] eqn:Ha; [|discriminate].
  inversion Hn; subst. simpl. eapply app_extract_canonical, Ha.
Qed.

Lemma gd_entries_canonical {DR : GD.Drive} files :
  dict_all canonical (omap gd_entry files).
Proof.
  apply Forall_forall. intros kv Hin.
  apply list_elem_of_omap in Hin as (f & _ & Hf). unfold gd_entry in Hf.
  destruct (gd_extract (GD.id f)) as [a|] eqn:Ha; [|discriminate].
  inversion Hf; subst. simpl. eapply gd_extract_canonical, Ha.
Qed.

Lemma app_build_index_canonical {blob : Type} {PK : Pickle (dict ndarray) blob}
    (os_listdir : string -> result (list string)) force_rebuild
    (s : @App.state blob) :
  pickle_round_trip PK ->
  app_canonical_state s ->
  app_canonical_state (snd (App.build_index os_listdir force_rebuild s)).
Proof.
  intros Hrt [Hmem Hsnap].
  destruct (app_build_index_cases os_listdir force_rebuild s)
    as [(_ & _ & ->)|[(b & Hi & -> & Hb)|Hre]].
  - split; assumption.
  - rewrite (app_build_index_load _ _ _ Hi Hb).
    destruct (pickle_loads b) as [d|e] eqn:Hl; [|split; assumption].
    split; [|exact Hsnap]. simpl. eapply Hsnap; eassumption.
  - rewrite (app_build_index_rebuild_eq _ _ _ Hre).
    destruct (os_listdir (App.image_directory (App.self s))) as [names|e].
    + assert (Hd : dict_all canonical
                     (dict_set_all
                        (omap (app_entry (App.image_directory (App.self s))) names) []))
        by (apply dict_all_set_all; [apply app_entries_canonical | constructor]).
      destruct (App.writable (App.env s)); (split; [exact Hd|]).
      * intros b d Hb Hl. simpl in Hb. inversion Hb; subst.
        rewrite Hrt in Hl. inversion Hl; subst. exact Hd.
      * exact Hsnap.
    + split; [constructor | exact Hsnap].
Qed.

Lemma gd_build_index_canonical {blob : Type} {DR : GD.Drive}
    {PK : Pickle GD.cached_data blob} (s : @GD.state blob) :
  pickle_round_trip PK ->
  gd_canonical_state s ->
  gd_canonical_state (snd (GD.build_index s)).
Proof.
  intros Hrt [Hmem Hsnap]. rewrite gd_build_index_eq.
  destruct (gd_loaded_index s) as [[feats md]|e] eqn:Hl; [|split; assumption].
  assert (Hfeats : dict_all canonical feats).
  { unfold gd_loaded_index in Hl.
    destruct (GD.cache_file (GD.env s)) as [b|] eqn:Hc.
    - destruct (pickle_loads b) as [cached|] eqn:Hp; [|discriminate].
      inversion Hl; subst.
      destruct (GD.cd_features cached) as [d|] eqn:Hd; simpl; [|constructor].
      eapply Hsnap; eassumption.
    - inversion Hl. constructor. }
  destruct (GD.drive_files_list (GD.folder_id (GD.self s))) as [files|e];
    [|split; assumption].
  unfold gd_build_from. destruct files as [|f files]; [split; assumption|].
  destruct (GD.new_files_of md (f :: files)) as [|n nf]; [split; assumption|].
  cbn [gd_update GD.env GD.writable].
  assert (Hd : dict_all canonical
                 (dict_set_all (omap gd_entry (GD.enumerate (n :: nf)).*2) feats))
    by (apply dict_all_set_all; [apply gd_entries_canonical | exact Hfeats]).
  destruct (GD.writable (GD.env s));
    cbn [snd gd_mark_indexed gd_update gd_indexed gd_saved GD.self GD.image_features];
    (split; [exact Hd|]).
  - intros b cached d Hb Hl' Hc. cbn in Hb. inversion Hb; subst.
    rewrite Hrt in Hl'. inversion Hl'; subst. cbn in Hc. inversion Hc; subst.
    exact Hd.
  - exact Hsnap.
Qed.

(** [search] ends in the state of its index step, with some more lines
    printed. *)
Lemma app_search_state {blob : Type} {SK : Skimage} {PK : Pickle (dict ndarray) blob}
    (os_listdir : string -> result (list string)) path t n (s : @App.state blob) :
  exists msgs s1,
    (s1 = s \/ s1 = snd (App.build_index os_listdir false s))
    /\ snd (App.search os_listdir path t n s) = app_printed msgs s1.
Proof.
  destruct (App.is_indexed (App.self s)) eqn:Hi.
  - rewrite (app_search_from _ _ _ _ _ Hi).
    destruct (app_extract path) as [q|e].
    + eexists _, s. split; [left; reflexivity | reflexivity].
    + exists [], s. split; [left; reflexivity|]. rewrite app_printed_nil. reflexivity.
  - unfold App.search, bind, get. rewrite Hi.
    destruct (App.build_index os_listdir false s) as [[[]|e] s1] eqn:Hb.
    + rewrite app_preprocess_image. destruct (app_extract path) as [q|e].
      * unfold dict_items. rewrite app_search_loop. unfold ret.
        eexists _, s1. split; [right; reflexivity | reflexivity].
      * exists [], s1. split; [right; reflexivity|].
        rewrite app_printed_nil. reflexivity.
    + exists [], s1. split; [right; reflexivity|].
      rewrite app_printed_nil. reflexivity.
Qed.

Lemma gd_search_state {blob : Type} {SK : Skimage} {DR : GD.Drive}
    {PK : Pickle GD.cached_data blob} query t n (s : @GD.state blob) :
  exists msgs s1,
    (s1 = s \/ s1 = snd (GD.build_index s))
    /\ snd (GD.search query t n s) = gd_printed msgs s1.
Proof.
  destruct (GD.is_indexed (GD.self s)) eqn:Hi.
  - rewrite (gd_search_from _ _ _ _ Hi).
    destruct (gd_query query) as [q|e].
    + eexists _, s. split; [left; reflexivity | reflexivity].
    + exists [], s. split; [left; reflexivity|]. rewrite gd_printed_nil. reflexivity.
  - unfold GD.search, bind, get. rewrite Hi.
    destruct (GD.build_index s) as [[[]|e] s1] eqn:Hb.
    + rewrite gd_preprocess_query. destruct (gd_query query) as [q|e].
      * unfold dict_items. rewrite gd_search_loop. unfold ret.
        eexists _, s1. split; [right; reflexivity | reflexivity].
      * exists [], s1. split; [right; reflexivity|].
        rewrite gd_printed_nil. reflexivity.
    + exists [], s1. split; [right; reflexivity|].
      rewrite gd_printed_nil. reflexivity.
Qed.
End Canonical.

(** C9.  With OpenCV behaving as documented, every feature that an
    extractor returns is a single-channel 256 x 256 grid of 8-bit values.
    With a pickle that reads back what it writes, "every stored feature, in
    memory and in the snapshot, is such a grid" is an invariant of each
    engine: it holds of a new engine without a snapshot, and [build_index]
    and [search] keep it, whether they return or raise. *)
Theorem stored_features_are_canonical :
  forall (CV : Cv2), Cv2_contract CV ->
    (forall path a, app_extract path = Ok a -> canonical a)
    /\ (forall (DR : GD.Drive) file_id a, gd_extract file_id = Ok a -> canonical a)
    /\ (forall (blob : Type) (SK : Skimage) (PK : Pickle (dict ndarray) blob)
               (os_listdir : string -> result (list string)),
          pickle_round_trip PK ->
          (forall dir w out,
              app_canonical_state
                {| App.self := App.init dir;
                   App.env := {| App.index_file := None; App.writable := w;
                                 App.stdout := out |} |})
          /\ (forall force_rebuild (s : @App.state blob),
                 app_canonical_state s ->
                 app_canonical_state (snd (App.build_index os_listdir force_rebuild s)))
          /\ (forall path t n (s : @App.state blob),
                 app_canonical_state s ->
                 app_canonical_state (snd (App.search os_listdir path t n s))))
    /\ (forall (blob : Type) (SK : Skimage) (DR : GD.Drive)
               (PK : Pickle GD.cached_data blob),
          pickle_round_trip PK ->
          (forall fid w evs out,
              gd_canonical_state
                {| GD.self := GD.init fid;
                   GD.env := {| GD.cache_file := None; GD.writable := w;
                                GD.ui := evs; GD.stdout := out |} |})
          /\ (forall s : @GD.state blob,
                 gd_canonical_state s -> gd_canonical_state (snd (GD.build_index s)))
          /\ (forall query t n (s : @GD.state blob),
                 gd_canonical_state s ->
                 gd_canonical_state (snd (GD.search query t n s)))).
Proof.
  intros CV contract. split; [|split; [|split]].
  - apply app_extract_canonical, contract.
  - intros DR. apply gd_extract_canonical, contract.
  - intros blob SK PK os_listdir Hrt. split; [|split].
    + intros dir w out. split; [constructor|]. intros b d Hb. discriminate Hb.
    + intros. apply app_build_index_canonical; assumption.
    + intros path t n s Hs.
      destruct (app_search_state os_listdir path t n s) as (msgs & s1 & Hs1 & ->).
      assert (H1 : app_canonical_state s1).
      { destruct Hs1 as [->| ->]; [exact Hs|].
        apply app_build_index_canonical; assumption. }
      exact H1.
  - intros blob SK DR PK Hrt. split; [|split].
    + intros fid w evs out. split; [constructor|]. intros b cached d Hb. discriminate Hb.
    + intros. apply gd_build_index_canonical; assumption.
    + intros query t n s Hs.
      destruct (gd_search_state query t n s) as (msgs & s1 & Hs1 & ->).
      assert (H1 : gd_canonical_state s1).
      { destruct Hs1 as [->| ->]; [exact Hs|].
        apply gd_build_index_canonical; assumption. }
      exact H1.
Qed.

Lemma demo_decode_raw_color b a :
  Demo.decode_raw b = Some a ->
  nd_dtype a = uint8 /\ exists h w, nd_shape a = [h; w; 3%nat].
Proof.
  unfold Demo.decode_raw.
  destruct (map _ b) as [|h [|w pixels]]; try discriminate.
  destruct (bool_decide _); [|discriminate].
  intros H. inversion H; subst. simpl. eauto.
Qed.

Lemma demo_cv2_contract : Cv2_contract Demo.cv2.
Proof.
  split.
  - intros p a. simpl. unfold Demo.imread.
    destruct (dict_get p Demo.disk); [|discriminate]. apply demo_decode_raw_color.
  - intros b a. simpl. apply demo_decode_raw_color.
  - intros a g h w. simpl. unfold Demo.cvtColor. intros Hg Hs. rewrite Hs in Hg.
    inversion Hg; subst. simpl. auto.
  - intros g w h r h0 w0. simpl. unfold Demo.resize. intros Hr Hs. rewrite Hs in Hr.
    destruct h0 as [|h0]; [discriminate|]. destruct w0 as [|w0]; [discriminate|].
    inversion Hr; subst. simpl. auto.
Qed.

(** The theorem for C9 in the demo world: the two engines after a first
    build, started without a snapshot. *)
Lemma stored_features_are_canonical_witness :
  app_canonical_state (PK := Demo.pickle _)
    (snd (Demo.app_build_index true Demo.app_fresh))
  /\ gd_canonical_state (PK := Demo.pickle _)
       (snd (Demo.gd_build_index Demo.gd_fresh)).
Proof.
  pose proof (stored_features_are_canonical Demo.cv2 demo_cv2_contract)
    as (_ & _ & Happ & Hgd).
  split.
  - destruct (Happ _ Demo.skimage (Demo.pickle _) Demo.listdir
                (demo_pickle_round_trip _)) as (Hinit & Hbuild & _).
    apply (Hbuild true Demo.app_fresh). apply (Hinit "imgs" true []).
  - destruct (Hgd _ Demo.skimage Demo.drive (Demo.pickle _)
                (demo_pickle_round_trip _)) as (Hinit & Hbuild & _).
    apply (Hbuild Demo.gd_fresh). apply (Hinit "F" true [] []).
Defined.

(** ** What [build_index] returns *)




(** ** Full rebuild and incremental build *)

Lemma lookup_dict_set_all {V : Type} (k : string) (items : list (string * V))
    (d : dict V) :
  dict_mapping (dict_set_all items d) !! k
  = match last_value k items with
    | Some v => Some v
    | None => dict_mapping d !! k
    end.
Proof.
  rewrite dict_mapping_set_all. generalize (dict_mapping d). clear d.
  induction items as [|[k' v] items IH]; intros m; [reflexivity|].
  simpl. rewrite IH. destruct (last_value k items); [reflexivity|].
  destruct (decide (k = k')) as [->|Hne].
  - apply lookup_insert_eq.
  - apply lookup_insert_ne. congruence.
Qed.

Section LastValue.
Context {A V : Type} (f : A -> option (string * V)) (key : A -> string).
Context (Hkey : forall x kv, f x = Some kv -> kv.1 = key x).


Lemma last_value_omap_filter_none k (p : A -> bool) (l : list A) :
  (forall x, key x = k -> p x = false) ->
  last_value k (omap f (List.filter p l)) = None.
Proof.
  intros Hp. induction l as [|x l IH]; [reflexivity|].
  simpl List.filter. destruct (p x) eqn:Hpx; [|exact IH].
  rewrite omap_cons. destruct (f x) as [[k' v]|] eqn:Hfx; [|exact IH].
  simpl. rewrite IH. destruct (decide (k = k')) as [->|Hne]; [|reflexivity].
  apply Hkey in Hfx. simpl in Hfx. rewrite (Hp x) in Hpx by congruence.
  discriminate.
Qed.
End LastValue.

Section Convergence.
Context {blob : Type} {CV : Cv2} {SK : Skimage} {DR : GD.Drive}
        {PK : Pickle GD.cached_data blob}.

(** The index in memory after [build_index], from the loaded index and the
    listing. *)
Lemma gd_build_index_index feats md files (s : @GD.state blob) :
  gd_loaded_index s = Ok (feats, md) ->
  GD.drive_files_list (GD.folder_id (GD.self s)) = Ok files ->
  GD.image_features (GD.self (snd (GD.build_index s)))
  = dict_set_all (omap gd_entry (GD.new_files_of md files)) feats
  /\ GD.image_metadata (GD.self (snd (GD.build_index s)))
     = dict_set_all (omap gd_meta_entry (GD.new_files_of md files)) md.
Proof.
  intros Hl Hls. rewrite gd_build_index_eq, Hl, Hls. unfold gd_build_from.
  destruct files as [|f files]; [split; reflexivity|].
  destruct (GD.new_files_of md (f :: files)) as [|n nf] eqn:Hnf; [split; reflexivity|].
  cbn [gd_update GD.env GD.writable].
  destruct (GD.writable (GD.env s)).
  - cbn [snd]. change (gd_mark_indexed _) with (gd_built feats md (n :: nf) s).
    destruct (gd_built_index feats md (n :: nf) s) as (-> & -> & _).
    split; reflexivity.
  - cbn [snd gd_indexed gd_update GD.self GD.image_features GD.image_metadata].
    rewrite enumerate_snd. split; reflexivity.
Qed.

Lemma gd_entry_key f kv : gd_entry f = Some kv -> kv.1 = GD.id f.
Proof.
  unfold gd_entry. destruct (gd_extract (GD.id f)); [|discriminate].
  intros H. inversion H. reflexivity.
Qed.

Lemma gd_meta_entry_key f kv : gd_meta_entry f = Some kv -> kv.1 = GD.id f.
Proof.
  unfold gd_meta_entry. destruct (gd_extract (GD.id f)); [|discriminate].
  intros H. inversion H. reflexivity.
Qed.

End Convergence.



Section ScratchBuild.
Context {blob : Type} {CV : Cv2} {DR : GD.Drive} {PK : Pickle GD.cached_data blob}.



End ScratchBuild.


(** * Further properties

    Properties that the code has and that its specification does not
    state: the rest of app.py, and more of what [build_index] and [search]
    do. *)

(** ** Strings *)

Lemma string_app_nil_l (s : string) : ("" ++ s)%string = s.
Proof. reflexivity. Qed.

Lemma string_app_cons c (s t : string) :
  (String c s ++ t)%string = String c (s ++ t)%string.
Proof. reflexivity. Qed.

Lemma string_app_nil_r (s : string) : (s ++ "")%string = s.
Proof.
  induction s as [|c s IH]; [reflexivity|]. rewrite string_app_cons, IH. reflexivity.
Qed.

Lemma string_app_assoc (s t u : string) :
  (s ++ (t ++ u))%string = ((s ++ t) ++ u)%string.
Proof.
  induction s as [|c s IH]; [reflexivity|]. rewrite !string_app_cons, IH. reflexivity.
Qed.

Lemma string_app_length (s t : string) :
  String.length (s ++ t) = (String.length s + String.length t)%nat.
Proof.
  induction s as [|c s IH]; [reflexivity|]. rewrite string_app_cons. simpl.
  rewrite IH. reflexivity.
Qed.

Lemma string_app_eq_nil (s t : string) : (s ++ t)%string = "" -> s = "" /\ t = "".
Proof. destruct s; [auto | discriminate]. Qed.

(** ** Patterns *)

Lemma fnmatch_star_cons pattern c name :
  fnmatch (G_star :: pattern) (String c name)
  = fnmatch pattern (String c name) || fnmatch (G_star :: pattern) name.
Proof. reflexivity. Qed.

Lemma fnmatch_star_nil pattern :
  fnmatch (G_star :: pattern) "" = fnmatch pattern "".
Proof. simpl. apply orb_false_r. Qed.

(** A star takes any prefix of the name. *)
Lemma fnmatch_star pattern name :
  fnmatch (G_star :: pattern) name = true
  <-> exists a b, name = (a ++ b)%string /\ fnmatch pattern b = true.
Proof.
  induction name as [|c name IH].
  - rewrite fnmatch_star_nil. split.
    + intros H. exists "", "". auto.
    + intros (a & b & Hab & Hb). symmetry in Hab.
      apply string_app_eq_nil in Hab as [_ ->]. exact Hb.
  - rewrite fnmatch_star_cons, orb_true_iff, IH. split.
    + intros [H|(a & b & -> & Hb)].
      * exists "", (String c name). auto.
      * exists (String c a), b. auto.
    + intros (a & b & Hab & Hb). destruct a as [|c' a].
      * rewrite string_app_nil_l in Hab. subst b. auto.
      * rewrite string_app_cons in Hab. inversion Hab; subst. right. eauto.
Qed.

Lemma fnmatch_star_only name : fnmatch [G_star] name = true.
Proof.
  apply fnmatch_star. exists name, "". split; [|reflexivity].
  symmetry. apply string_app_nil_r.
Qed.

Lemma existsb_ascii c cs : existsb (Ascii.eqb c) cs = true <-> c ∈ cs.
Proof.
  rewrite existsb_exists. split.
  - intros (x & Hin & Heq). apply Ascii.eqb_eq in Heq. subst.
    apply list_elem_of_In, Hin.
  - intros Hin. exists c. split; [apply list_elem_of_In, Hin | apply Ascii.eqb_refl].
Qed.

(** A name that the pattern takes has a dot, one of the first letters and
    one of the second. *)
Lemma image_pattern_inv name :
  fnmatch image_pattern_items name = true ->
  exists pre c1 c2 post,
    name = (pre ++ String "." (String c1 (String c2 post)))%string
    /\ c1 ∈ ["j"; "p"; "J"; "P"]%char
    /\ c2 ∈ ["p"; "n"; "P"; "N"]%char.
Proof.
  unfold image_pattern_items. intros H.
  apply fnmatch_star in H as (pre & b & -> & Hb).
  destruct b as [|c0 [|c1 [|c2 post]]]; cbn [fnmatch] in Hb;
    rewrite ?andb_false_r in Hb; try discriminate.
  apply andb_true_iff in Hb as [H0 Hb]. apply Ascii.eqb_eq in H0. subst c0.
  apply andb_true_iff in Hb as [H1 Hb]. apply existsb_ascii in H1.
  apply andb_true_iff in Hb as [H2 _]. apply existsb_ascii in H2.
  exists pre, c1, c2, post. auto.
Qed.

(** The pattern takes a dot with two such letters, whatever is around. *)
Lemma image_pattern_intro pre c1 c2 post :
  c1 ∈ ["j"; "p"; "J"; "P"]%char ->
  c2 ∈ ["p"; "n"; "P"; "N"]%char ->
  fnmatch image_pattern_items (pre ++ String "." (String c1 (String c2 post))) = true.
Proof.
  intros H1 H2. unfold image_pattern_items. apply fnmatch_star.
  exists pre, (String "." (String c1 (String c2 post))). split; [reflexivity|].
  change (Ascii.eqb "." "." && (existsb (Ascii.eqb c1) ["j"; "p"; "J"; "P"]%char
          && (existsb (Ascii.eqb c2) ["p"; "n"; "P"; "N"]%char
              && fnmatch [G_star] post)) = true).
  rewrite fnmatch_star_only.
  apply existsb_ascii in H1, H2. rewrite H1, H2. reflexivity.
Qed.

(** X1.  The pattern of [get_most_recent_image] takes a file name exactly
    when the name has a dot followed by one of [j p J P] and then one of
    [p n P N]; what comes before and after is free. *)
Theorem image_pattern_takes name :
  fnmatch image_pattern_items name = true
  <-> exists pre c1 c2 post,
        name = (pre ++ String "." (String c1 (String c2 post)))%string
        /\ c1 ∈ ["j"; "p"; "J"; "P"]%char
        /\ c2 ∈ ["p"; "n"; "P"; "N"]%char.
Proof.
  split.
  - apply image_pattern_inv.
  - intros (pre & c1 & c2 & post & -> & H1 & H2).
    apply image_pattern_intro; assumption.
Qed.

(** ** Suffixes *)

Lemma substring_all (s : string) : String.substring 0 (String.length s) s = s.
Proof. induction s as [|c s IH]; [reflexivity|]. simpl. rewrite IH. reflexivity. Qed.

Lemma substring_split (s : string) (k : nat) :
  (k <= String.length s)%nat ->
  s = (String.substring 0 k s ++ String.substring k (String.length s - k) s)%string.
Proof.
  revert k. induction s as [|c s IH]; intros k Hk.
  - destruct k; [reflexivity | simpl in Hk; lia].
  - destruct k as [|k].
    + rewrite Nat.sub_0_r, substring_all. reflexivity.
    + simpl in Hk. simpl. rewrite string_app_cons. f_equal. apply IH. lia.
Qed.

(** A string that ends with a suffix is something followed by it. *)
Lemma endswith_inv s suffix :
  endswith s suffix = true -> exists pre, s = (pre ++ suffix)%string.
Proof.
  unfold endswith. intros H. apply andb_true_iff in H as [Hle Heq].
  apply Nat.leb_le in Hle. apply String.eqb_eq in Heq.
  exists (String.substring 0 (String.length s - String.length suffix) s).
  pose proof (substring_split s (String.length s - String.length suffix)
                ltac:(lia)) as Hs.
  replace (String.length s - (String.length s - String.length suffix))%nat
    with (String.length suffix) in Hs by lia.
  rewrite Heq in Hs. exact Hs.
Qed.

Lemma substring_app_r (a b : string) :
  String.substring (String.length a) (String.length b) (a ++ b) = b.
Proof.
  induction a as [|c a IH]; [apply substring_all|].
  rewrite string_app_cons. simpl. exact IH.
Qed.

Lemma endswith_app (a b : string) : endswith (a ++ b) b = true.
Proof.
  unfold endswith. rewrite string_app_length.
  replace (String.length a + String.length b - String.length b)%nat
    with (String.length a) by lia.
  rewrite substring_app_r, String.eqb_refl, andb_true_r.
  apply Nat.leb_le. lia.
Qed.

Lemma lower_app (a b : string) : lower (a ++ b) = (lower a ++ lower b)%string.
Proof.
  induction a as [|c a IH]; [reflexivity|].
  rewrite string_app_cons. simpl. rewrite string_app_cons, IH. reflexivity.
Qed.

Lemma lower_app_inv (s x y : string) :
  lower s = (x ++ y)%string ->
  exists a b, s = (a ++ b)%string /\ lower a = x /\ lower b = y.
Proof.
  revert s. induction x as [|c x IH]; intros s H.
  - exists "", s. auto.
  - rewrite string_app_cons in H. destruct s as [|c' s]; [discriminate|].
    simpl in H. inversion H as [[Hc Hs]]. destruct (IH s Hs) as (a & b & -> & <- & <-).
    exists (String c' a), b. rewrite string_app_cons. auto.
Qed.

Ltac ascii_cases c H :=
  destruct c as [[] [] [] [] [] [] [] []]; vm_compute in H;
  try discriminate H; auto.

Lemma lower_ascii_dot c : lower_ascii c = "."%char -> c = "."%char.
Proof. intros H. ascii_cases c H. Qed.

Lemma lower_ascii_j c : lower_ascii c = "j"%char -> c = "j"%char \/ c = "J"%char.
Proof. intros H. ascii_cases c H. Qed.

Lemma lower_ascii_p c : lower_ascii c = "p"%char -> c = "p"%char \/ c = "P"%char.
Proof. intros H. ascii_cases c H. Qed.

Lemma lower_ascii_n c : lower_ascii c = "n"%char -> c = "n"%char \/ c = "N"%char.
Proof. intros H. ascii_cases c H. Qed.

(** A name that has a dot, then a letter whose lower case is the first of
    [x1 x2] among [j p] and [p n], is taken by the pattern. *)
Lemma image_pattern_takes_lower name pre x1 x2 rest :
  lower name = (pre ++ String "." (String x1 (String x2 rest)))%string ->
  x1 = "j"%char \/ x1 = "p"%char ->
  x2 = "p"%char \/ x2 = "n"%char ->
  fnmatch image_pattern_items name = true.
Proof.
  intros H H1 H2. apply lower_app_inv in H as (a & b & -> & _ & Hb).
  destruct b as [|c0 [|c1 [|c2 post]]]; try discriminate.
  simpl in Hb. inversion Hb as [[H0 Hc1 Hc2 Hpost]].
  apply lower_ascii_dot in H0. subst c0.
  apply image_pattern_intro.
  - destruct H1 as [E|E]; rewrite E in Hc1.
    + apply lower_ascii_j in Hc1 as [->| ->]; apply list_elem_of_In; simpl; auto.
    + apply lower_ascii_p in Hc1 as [->| ->]; apply list_elem_of_In; simpl; auto.
  - destruct H2 as [E|E]; rewrite E in Hc2.
    + apply lower_ascii_p in Hc2 as [->| ->]; apply list_elem_of_In; simpl; auto.
    + apply lower_ascii_n in Hc2 as [->| ->]; apply list_elem_of_In; simpl; auto.
Qed.

(** X2.  Every file name that [build_index] takes for a PNG or JPEG image
    (suffix [.png], [.jpg] or [.jpeg] in any letter case) and that is not
    hidden is a candidate of [get_most_recent_image]. *)
Theorem png_and_jpeg_names_are_candidates name :
  ishidden name = false ->
  endswith_any (lower name) [".png"; ".jpg"; ".jpeg"] = true ->
  is_candidate name = true.
Proof.
  intros Hhid. unfold is_candidate. rewrite Hhid. cbn [negb andb].
  unfold endswith_any. cbn [existsb]. rewrite orb_false_r, !orb_true_iff.
  intros [H|[H|H]]; apply endswith_inv in H as [pre H].
  - apply (image_pattern_takes_lower name pre "p" "n" "g" H); auto.
  - apply (image_pattern_takes_lower name pre "j" "p" "g" H); auto.
  - apply (image_pattern_takes_lower name pre "j" "p" "eg" H); auto.
Qed.

Lemma has_char_app c (a b : string) :
  has_char c (a ++ b) = has_char c a || has_char c b.
Proof.
  induction a as [|c' a IH]; [reflexivity|].
  rewrite string_app_cons. simpl. rewrite IH, orb_assoc. reflexivity.
Qed.

(** The place of the only dot of a name. *)
Lemma only_dot_unique (a r pre r' : string) :
  (a ++ String "." r)%string = (pre ++ String "." r')%string ->
  has_char "." a = false -> has_char "." r = false ->
  a = pre /\ r = r'.
Proof.
  revert pre. induction a as [|c a IH]; intros pre H Ha Hr.
  - rewrite string_app_nil_l in H. destruct pre as [|c' pre].
    + rewrite string_app_nil_l in H. inversion H. auto.
    + rewrite string_app_cons in H. inversion H as [[Hc Hrest]].
      rewrite Hrest, has_char_app in Hr. simpl in Hr.
      rewrite orb_true_r in Hr. discriminate.
  - rewrite string_app_cons in H. simpl in Ha. apply orb_false_iff in Ha as [Hc Ha].
    destruct pre as [|c' pre].
    + rewrite string_app_nil_l in H. inversion H as [[Hc' Hrest]]. subst c.
      discriminate.
    + rewrite string_app_cons in H. inversion H as [[Hc' Hrest]]. subst c'.
      destruct (IH pre Hrest Ha Hr) as [-> ->]. auto.
Qed.

Lemma lower_no_dot (s : string) : has_char "." (lower s) = false -> has_char "." s = false.
Proof.
  induction s as [|c s IH]; [reflexivity|]. simpl. intros H.
  apply orb_false_iff in H as [Hc Hs]. rewrite (IH Hs), orb_false_r.
  destruct (Ascii.eqb c ".") eqn:E; [|reflexivity].
  apply Ascii.eqb_eq in E. subst c. discriminate.
Qed.

Lemma dotted_suffix_inv ext x1 rest :
  lower ext = String "." (String x1 rest) ->
  has_char "." (String x1 rest) = false ->
  exists e1 r, ext = String "." (String e1 r)
               /\ has_char "." (String e1 r) = false
               /\ lower_ascii e1 = x1.
Proof.
  intros H Hr. destruct ext as [|e0 [|e1 r]]; try discriminate.
  simpl in H. injection H as E0 E1 Er. apply lower_ascii_dot in E0. subst e0.
  exists e1, r. split; [reflexivity|]. split; [|exact E1].
  apply lower_no_dot. simpl. rewrite E1, Er. exact Hr.
Qed.

(** X3.  A file name with a single dot and the suffix [.bmp], [.tiff] or
    [.gif] (in any letter case) is an image for [build_index] and is no
    candidate of [get_most_recent_image]. *)
Theorem bmp_tiff_gif_names_are_no_candidates base ext :
  has_char "." base = false ->
  lower ext ∈ [".bmp"; ".tiff"; ".gif"] ->
  is_image (base ++ ext) = true /\ is_candidate (base ++ ext) = false.
Proof.
  intros Hbase Hext. unfold is_candidate.
  cut (is_image (base ++ ext) = true
       /\ fnmatch image_pattern_items (base ++ ext) = false).
  { intros [Hi ->]. rewrite andb_false_r. auto. }
  assert (Hcases : lower ext = ".bmp" \/ lower ext = ".tiff" \/ lower ext = ".gif").
  { apply list_elem_of_In in Hext. simpl in Hext. intuition auto. }
  clear Hext. split.
  - unfold is_image. rewrite lower_app. unfold endswith_any, App.image_suffixes.
    cbn [existsb].
    assert (He := endswith_app (lower base) (lower ext)).
    destruct Hcases as [E|[E|E]]; rewrite E in He |- *;
      rewrite He, ?orb_true_r; reflexivity.
  - destruct (fnmatch image_pattern_items (base ++ ext)) eqn:Hm; [|reflexivity].
    exfalso. apply image_pattern_inv in Hm as (pre & c1 & c2 & post & Heq & H1 & _).
    assert (Hshape : exists e1 r, ext = String "." (String e1 r)
                       /\ has_char "." (String e1 r) = false
                       /\ (lower_ascii e1 = "b" \/ lower_ascii e1 = "t"
                           \/ lower_ascii e1 = "g")%char).
    { destruct Hcases as [E|[E|E]];
        apply dotted_suffix_inv in E as (e1 & r & -> & Hr & He1);
        try reflexivity; exists e1, r; auto. }
    destruct Hshape as (e1 & r & -> & Hr & He1).
    destruct (only_dot_unique base (String e1 r) pre (String c1 (String c2 post))
                Heq Hbase Hr) as [_ Hrr].
    injection Hrr as Hc _. subst e1.
    apply list_elem_of_In in H1. simpl in H1.
    destruct H1 as [<-|[<-|[<-|[<-|[]]]]]; vm_compute in He1;
      destruct He1 as [E|[E|E]]; discriminate E.
Qed.

(** ** The directory that [glob] lists *)

Lemma split_at_last_slash_plain (t : string) :
  has_char "/" t = false -> split_at_last_slash t = ("", t).
Proof.
  induction t as [|c t IH]; [reflexivity|]. simpl. intros H.
  apply orb_false_iff in H as [Hc Ht]. rewrite (IH Ht), Hc. reflexivity.
Qed.

Lemma split_at_last_slash_app (x t : string) :
  has_char "/" t = false ->
  split_at_last_slash (x ++ "/" ++ t) = ((x ++ "/")%string, t).
Proof.
  intros Ht. induction x as [|c x IH].
  - rewrite !string_app_nil_l, string_app_cons, string_app_nil_l. simpl.
    rewrite (split_at_last_slash_plain t Ht). reflexivity.
  - rewrite (string_app_cons c x), (string_app_cons c x "/").
    cbn [split_at_last_slash]. rewrite IH.
    destruct x; reflexivity.
Qed.

Lemma rstrip_slashes_snoc (x : string) :
  rstrip_slashes (x ++ "/") = rstrip_slashes x.
Proof.
  induction x as [|c x IH]; [reflexivity|].
  rewrite string_app_cons. simpl. rewrite IH. reflexivity.
Qed.

Lemma endswith_cons c (s : string) :
  s <> "" -> endswith (String c s) "/" = endswith s "/".
Proof.
  intros Hs. destruct s as [|c' s]; [contradiction|].
  unfold endswith. cbn [String.length]. simpl Nat.leb.
  replace (S (S (String.length s)) - 1)%nat with (S (String.length s)) by lia.
  replace (S (String.length s) - 1)%nat with (String.length s) by lia.
  reflexivity.
Qed.

Lemma rstrip_slashes_plain (d : string) :
  d <> "" -> endswith d "/" = false -> rstrip_slashes d = d.
Proof.
  induction d as [|c d IH]; [contradiction|]. intros _ He.
  destruct d as [|c' d].
  - simpl. destruct (Ascii.eqb c "/") eqn:E; [|reflexivity].
    apply Ascii.eqb_eq in E. subst c. discriminate.
  - rewrite endswith_cons in He by discriminate.
    change (rstrip_slashes (String c (String c' d)))
      with (match rstrip_slashes (String c' d) with
            | EmptyString => if Ascii.eqb c "/" then EmptyString else String c EmptyString
            | r => String c r
            end).
    rewrite IH by (discriminate || exact He). reflexivity.
Qed.

(** Joining a plain directory with a slash-free last component and
    splitting the path again gives the two back. *)
Lemma os_path_split_join (d t : string) :
  d <> "" -> endswith d "/" = false -> has_char "/" t = false ->
  os_path_split (os_path_join d t) = (d, t).
Proof.
  intros Hd He Ht. unfold os_path_join.
  assert (Hp : String.prefix "/" t = false).
  { destruct t as [|c t]; [reflexivity|]. simpl in Ht.
    apply orb_false_iff in Ht as [Hc _]. cbn [String.prefix].
    destruct (ascii_dec "/" c) as [<-|Hne]; [discriminate | reflexivity]. }
  rewrite Hp, He, orb_false_r.
  destruct (String.eqb d "") eqn:E; [apply String.eqb_eq in E; contradiction|].
  unfold os_path_split. rewrite (split_at_last_slash_app d t Ht).
  rewrite rstrip_slashes_snoc, (rstrip_slashes_plain d Hd He).
  destruct d; [contradiction | reflexivity].
Qed.

(** ** The greatest key *)

Lemma float_lt_trans a b c :
  float_lt a b = true -> float_lt b c = true -> float_lt a c = true.
Proof.
  destruct a, b, c; simpl; intros H1 H2; try discriminate; auto.
  apply negb_true_iff in H1, H2. apply negb_true_iff.
  destruct (Qle_bool q1 q) eqn:E; [|reflexivity].
  apply Qle_bool_iff in E.
  assert (Hab : (q < q0)%Q).
  { apply Qnot_le_lt. intros Hle. apply Qle_bool_iff in Hle. congruence. }
  assert (Hbc : (q0 < q1)%Q).
  { apply Qnot_le_lt. intros Hle. apply Qle_bool_iff in Hle. congruence. }
  exfalso. apply (Qlt_irrefl q).
  eapply Qlt_le_trans; [|exact E]. eapply Qlt_trans; eauto.
Qed.

Lemma float_le_lt_trans a b c :
  float_le a b = true -> float_lt b c = true -> float_lt a c = true.
Proof.
  destruct a, b, c; simpl; intros H1 H2; try discriminate; auto.
  apply negb_true_iff in H2. apply negb_true_iff.
  destruct (Qle_bool q1 q) eqn:E; [|reflexivity].
  apply Qle_bool_iff in E, H1.
  assert (Hbc : (q0 < q1)%Q).
  { apply Qnot_le_lt. intros Hle. apply Qle_bool_iff in Hle. congruence. }
  exfalso. apply (Qlt_irrefl q0).
  eapply Qlt_le_trans; [exact Hbc|]. eapply Qle_trans; eauto.
Qed.

Section MaxFacts.
Context {A : Type} (key : A -> result pyfloat).

Lemma max_from_first_max (done l : list A) maxitem maxval x :
  keys_are_numbers key l ->
  is_nan maxval = false ->
  first_max key done maxitem maxval ->
  max_from key maxitem maxval l = Ok x ->
  exists kx, first_max key (done ++ l) x kx.
Proof.
  revert done maxitem maxval.
  induction l as [|item l IH]; intros done maxitem maxval Hnum Hnan Hfm Hmax.
  - simpl in Hmax. inversion Hmax; subst. rewrite app_nil_r. eauto.
  - simpl in Hmax. inversion Hnum as [|? ? (val & Hkey & Hval) Hnum']; subst.
    rewrite Hkey in Hmax.
    replace (done ++ item :: l) with ((done ++ [item]) ++ l)
      by (rewrite <- app_assoc; reflexivity).
    destruct Hfm as (l1 & l2 & -> & Hk & H1 & H2).
    destruct (float_lt maxval val) eqn:Hlt.
    + apply (IH _ item val Hnum' Hval); [|exact Hmax].
      exists ((l1 ++ maxitem :: l2)), []. split; [reflexivity|].
      split; [exact Hkey|]. split; [|constructor].
      apply Forall_app. split.
      * eapply Forall_impl; [exact H1|]. intros y (ky & Hy & Hly).
        exists ky. split; [exact Hy|]. eapply float_lt_trans; eauto.
      * constructor; [eauto|].
        eapply Forall_impl; [exact H2|]. intros y (ky & Hy & Hly).
        exists ky. split; [exact Hy|]. eapply float_le_lt_trans; eauto.
    + apply (IH _ maxitem maxval Hnum' Hnan); [|exact Hmax].
      exists l1, (l2 ++ [item]). split; [rewrite <- app_assoc; reflexivity|].
      split; [exact Hk|]. split; [exact H1|].
      apply Forall_app. split; [exact H2|]. constructor; [|constructor].
      exists val. split; [exact Hkey|].
      apply (float_not_lt_ge maxval val Hnan Hval Hlt).
Qed.

(** [max] gives the first item with the greatest key. *)
Lemma py_max_first_max (l : list A) x :
  keys_are_numbers key l ->
  py_max key l = Ok x -> exists kx, first_max key l x kx.
Proof.
  intros Hnum Hmax. destruct l as [|item l]; [discriminate|].
  inversion Hnum as [|? ? (val & Hkey & Hval) Hnum']; subst.
  simpl in Hmax. rewrite Hkey in Hmax.
  apply (max_from_first_max [item] l item val x Hnum' Hval); [|exact Hmax].
  exists [], []. split; [reflexivity|]. split; [exact Hkey|]. split; constructor.
Qed.

Lemma max_from_returns (l : list A) maxitem maxval :
  Forall (fun y => exists ky, key y = Ok ky) l ->
  exists x, max_from key maxitem maxval l = Ok x.
Proof.
  revert maxitem maxval. induction l as [|item l IH]; intros maxitem maxval H.
  - simpl. eauto.
  - inversion H as [|? ? (val & Hkey) H']; subst. simpl. rewrite Hkey.
    destruct (float_lt maxval val); apply IH, H'.
Qed.

(** [max] returns when the list is not empty and every key can be read. *)
Lemma py_max_returns (l : list A) :
  l <> [] -> Forall (fun y => exists ky, key y = Ok ky) l ->
  exists x, py_max key l = Ok x.
Proof.
  intros Hne H. destruct l as [|item l]; [contradiction|].
  inversion H as [|? ? (val & Hkey) H']; subst. simpl. rewrite Hkey.
  apply max_from_returns, H'.
Qed.

Lemma max_from_raises (l : list A) maxitem maxval e :
  max_from key maxitem maxval l = Raise e -> exists y, y ∈ l /\ key y = Raise e.
Proof.
  revert maxitem maxval. induction l as [|item l IH]; intros maxitem maxval H.
  - discriminate.
  - simpl in H. destruct (key item) as [val|e'] eqn:Hkey.
    + destruct (float_lt maxval val); apply IH in H as (y & Hy & Hk);
        exists y; split; [right; exact Hy | exact Hk | right; exact Hy | exact Hk].
    + inversion H; subst. exists item. split; [left | exact Hkey].
Qed.

(** An exception of [max] over a list that is not empty is an exception
    of the key. *)
Lemma py_max_raises (l : list A) e :
  l <> [] -> py_max key l = Raise e -> exists y, y ∈ l /\ key y = Raise e.
Proof.
  intros Hne H. destruct l as [|item l]; [contradiction|].
  simpl in H. destruct (key item) as [val|e'] eqn:Hkey.
  - apply max_from_raises in H as (y & Hy & Hk). exists y. split; [right|]; assumption.
  - inversion H; subst. exists item. split; [left | exact Hkey].
Qed.
End MaxFacts.

(** ** [get_most_recent_image] *)

Section MostRecentFacts.
Context (os_listdir : string -> result (list string)).
Context (glob_dirs : string -> list string).
Context (os_path_getmtime : string -> result pyfloat).

Lemma image_pattern_plain : has_char "/" image_pattern = false.
Proof. reflexivity. Qed.

(** The files that [get_most_recent_image] chooses from, for a plain
    directory: the candidates of its listing, as paths. *)
Lemma image_files_plain directory :
  plain_directory directory ->
  glob_glob os_listdir glob_dirs
    (os_path_split (os_path_join directory image_pattern)).1 image_pattern_items
  = map (os_path_join directory)
      (List.filter is_candidate
         (match os_listdir directory with Ok names => names | Raise _ => [] end)).
Proof.
  intros (Hne & Hslash & Hmagic).
  rewrite (os_path_split_join directory image_pattern Hne Hslash image_pattern_plain).
  cbn [fst]. unfold glob_glob.
  destruct (String.eqb directory "") eqn:E; [apply String.eqb_eq in E; contradiction|].
  rewrite Hmagic. cbn [flat_map]. rewrite app_nil_r. unfold glob1. rewrite E.
  cbn [pattern_ishidden image_pattern_items].
  f_equal. generalize (match os_listdir directory with
                       | Ok names => names | Raise _ => [] end).
  intros names. induction names as [|n names IH]; [reflexivity|].
  unfold is_candidate in *. cbn [List.filter].
  destruct (ishidden n); cbn [negb andb List.filter].
  - exact IH.
  - destruct (fnmatch image_pattern_items n); [f_equal|]; exact IH.
Qed.

Lemma filter_nil_iff {B : Type} (p : B -> bool) (l : list B) :
  List.filter p l = [] <-> forall x, x ∈ l -> p x = false.
Proof.
  induction l as [|y l IH]; [split; [intros _ x Hx; inversion Hx | reflexivity]|].
  cbn [List.filter]. destruct (p y) eqn:Hy.
  - split; [discriminate|]. intros H. specialize (H y ltac:(left)). congruence.
  - rewrite IH. split.
    + intros H x Hx. inversion Hx; subst; auto.
    + intros H x Hx. apply H. right. exact Hx.
Qed.

(** X4.  [get_most_recent_image] on a plain directory: a directory that
    cannot be listed gives [None], not an exception; a directory that can
    gives [None] exactly when none of its names is a candidate (not hidden
    and taken by the pattern). *)
Theorem no_screenshot_gives_none directory :
  plain_directory directory ->
  (forall e, os_listdir directory = Raise e ->
     get_most_recent_image os_listdir glob_dirs os_path_getmtime directory = Ok None)
  /\ (forall names, os_listdir directory = Ok names ->
        (get_most_recent_image os_listdir glob_dirs os_path_getmtime directory = Ok None
         <-> forall n, n ∈ names -> is_candidate n = false)).
Proof.
  intros Hplain. unfold get_most_recent_image. cbv zeta.
  rewrite (image_files_plain directory Hplain). split.
  - intros e ->. reflexivity.
  - intros names ->. rewrite <- filter_nil_iff.
    destruct (List.filter is_candidate names) as [|n l] eqn:Hf.
    + split; reflexivity.
    + cbn [map]. split; [|discriminate].
      destruct (py_max os_path_getmtime _); discriminate.
Qed.

(** X5.  When [get_most_recent_image] returns a path, the path is a
    candidate of the listing whose modification time is the greatest, and
    the first such in listing order; it does return one when the listing
    has a candidate and every modification time can be read. *)
Theorem most_recent_is_newest directory names :
  plain_directory directory ->
  os_listdir directory = Ok names ->
  let image_files := map (os_path_join directory) (List.filter is_candidate names) in
  keys_are_numbers os_path_getmtime image_files ->
  (image_files <> [] ->
   exists latest,
     get_most_recent_image os_listdir glob_dirs os_path_getmtime directory
     = Ok (Some latest))
  /\ (forall latest,
        get_most_recent_image os_listdir glob_dirs os_path_getmtime directory
        = Ok (Some latest) ->
        exists mtime, first_max os_path_getmtime image_files latest mtime).
Proof.
  intros Hplain Hls image_files Hnum. unfold get_most_recent_image. cbv zeta.
  rewrite (image_files_plain directory Hplain), Hls. fold image_files. split.
  - intros Hne.
    destruct (py_max_returns os_path_getmtime image_files Hne) as [x Hx].
    { eapply Forall_impl; [exact Hnum|]. intros y (ky & Hy & _). eauto. }
    rewrite Hx. destruct image_files; [contradiction|]. eauto.
  - intros latest H. destruct image_files as [|f fs] eqn:Hfiles; [discriminate|].
    destruct (py_max os_path_getmtime (f :: fs)) as [x|e] eqn:Hmax; [|discriminate].
    inversion H; subst. apply py_max_first_max; assumption.
Qed.

(** X6.  [get_most_recent_image] on a plain directory raises only what
    reading the modification time of one of the candidates raises. *)
Theorem most_recent_raises_from_getmtime directory e :
  plain_directory directory ->
  get_most_recent_image os_listdir glob_dirs os_path_getmtime directory = Raise e ->
  exists names n,
    os_listdir directory = Ok names
    /\ n ∈ names /\ is_candidate n = true
    /\ os_path_getmtime (os_path_join directory n) = Raise e.
Proof.
  intros Hplain. unfold get_most_recent_image. cbv zeta.
  rewrite (image_files_plain directory Hplain).
  destruct (os_listdir directory) as [names|e0]; [|discriminate].
  destruct (map (os_path_join directory) (List.filter is_candidate names))
    as [|f fs] eqn:Hfiles; [discriminate|].
  destruct (py_max os_path_getmtime (f :: fs)) as [x|e'] eqn:Hmax; [discriminate|].
  intros H. inversion H; subst.
  apply py_max_raises in Hmax as (y & Hy & Hk); [|discriminate].
  rewrite <- Hfiles in Hy. apply list_elem_of_fmap in Hy as (n & -> & Hn).
  apply list_elem_of_In, List.filter_In in Hn as [Hn Hc].
  exists names, n. split; [reflexivity|]. split; [apply list_elem_of_In, Hn|]. auto.
Qed.
End MostRecentFacts.

(** The theorems about the pattern on two file names. *)
Lemma png_and_jpeg_names_are_candidates_witness :
  is_candidate "Shot 01.PNG" = true.
Proof. apply (png_and_jpeg_names_are_candidates "Shot 01.PNG"); reflexivity. Defined.

Lemma bmp_tiff_gif_names_are_no_candidates_witness :
  is_image ("scan" ++ ".BMP") = true /\ is_candidate ("scan" ++ ".BMP") = false.
Proof.
  apply (bmp_tiff_gif_names_are_no_candidates "scan" ".BMP").
  - reflexivity.
  - apply list_elem_of_In. simpl. auto.
Defined.

Lemma shots_plain_directory :
  plain_directory "shots" /\ plain_directory "empty"
  /\ plain_directory "gone" /\ plain_directory "missing".
Proof. repeat split; (discriminate || reflexivity). Qed.

(** The theorems about [get_most_recent_image] on the screenshot
    directories: a directory that is not there and one without a candidate
    give [None]; the first of the two newest images is returned; a
    candidate removed after the listing makes the function raise. *)
Lemma no_screenshot_gives_none_witness :
  get_most_recent_image Shots.listdir Shots.no_dirs Shots.getmtime "missing" = Ok None
  /\ get_most_recent_image Shots.listdir Shots.no_dirs Shots.getmtime "empty" = Ok None.
Proof.
  split.
  - apply (proj1 (no_screenshot_gives_none Shots.listdir Shots.no_dirs Shots.getmtime
                    "missing" (proj2 (proj2 (proj2 shots_plain_directory))))
             (mk_exn "FileNotFoundError" "missing")).
    reflexivity.
  - apply (proj2 (no_screenshot_gives_none Shots.listdir Shots.no_dirs Shots.getmtime
                    "empty" (proj1 (proj2 shots_plain_directory)))
             ["notes.txt"; "scan.bmp"; ".hidden.png"] eq_refl).
    intros n Hn. apply list_elem_of_In in Hn. simpl in Hn.
    destruct Hn as [<-|[<-|[<-|[]]]]; reflexivity.
Defined.

Lemma most_recent_is_newest_witness :
  exists mtime,
    first_max Shots.getmtime ["shots/old.png"; "shots/new.JPG"; "shots/clip.jpeg"]
      "shots/new.JPG" mtime.
Proof.
  apply (proj2 (most_recent_is_newest Shots.listdir Shots.no_dirs Shots.getmtime
                  "shots"
                  ["old.png"; ".hidden.png"; "new.JPG"; "notes.txt"; "clip.jpeg";
                   "scan.bmp"]
                  (proj1 shots_plain_directory) eq_refl
                  ltac:(repeat constructor; eexists; split; reflexivity))
           "shots/new.JPG").
  reflexivity.
Defined.

Lemma most_recent_raises_from_getmtime_witness :
  exists names n,
    Shots.listdir "gone" = Ok names
    /\ n ∈ names /\ is_candidate n = true
    /\ Shots.getmtime (os_path_join "gone" n)
       = Raise (mk_exn "FileNotFoundError" "gone/lost.png").
Proof.
  apply (most_recent_raises_from_getmtime Shots.listdir Shots.no_dirs Shots.getmtime
           "gone" (mk_exn "FileNotFoundError" "gone/lost.png")
           (proj1 (proj2 (proj2 shots_plain_directory)))).
  reflexivity.
Defined.

(** ** The name shown for the best match *)

Lemma str_split_plain sep (s : string) :
  has_char sep s = false -> str_split sep s = [s].
Proof.
  induction s as [|c s IH]; [reflexivity|]. simpl. intros H.
  apply orb_false_iff in H as [Hc Hs]. rewrite Hc, (IH Hs). reflexivity.
Qed.

(** Splitting cuts the string at its separators: joining the pieces gives
    the string back, and no piece has a separator. *)
Lemma str_split_join sep (s : string) :
  str_split sep s <> []
  /\ str_join sep (str_split sep s) = s
  /\ Forall (fun w => has_char sep w = false) (str_split sep s).
Proof.
  induction s as [|c s (Hne & Hjoin & Hall)].
  - simpl. repeat split; [discriminate | repeat constructor].
  - simpl. destruct (Ascii.eqb c sep) eqn:Hc.
    + apply Ascii.eqb_eq in Hc. subst c. split; [discriminate|]. split.
      * destruct (str_split sep s) as [|w ws]; [contradiction|].
        change (str_join sep ("" :: w :: ws))
          with ("" ++ String sep (str_join sep (w :: ws)))%string.
        rewrite Hjoin. reflexivity.
      * constructor; [reflexivity | exact Hall].
    + destruct (str_split sep s) as [|w ws]; [contradiction|].
      split; [discriminate|]. split.
      * rewrite <- Hjoin. destruct ws; reflexivity.
      * inversion Hall; subst. constructor; [|assumption].
        simpl. rewrite Hc. assumption.
Qed.

(** The last of the pieces joined is what follows the last separator. *)
Lemma str_join_last sep (l : list string) x :
  last l = Some x ->
  exists pre, str_join sep l = (pre ++ x)%string
              /\ (pre = "" \/ exists pre', pre = (pre' ++ String sep "")%string).
Proof.
  induction l as [|w l IH]; [discriminate|]. intros Hlast.
  destruct l as [|w' l].
  - inversion Hlast; subst. exists "". auto.
  - change (last (w :: w' :: l)) with (last (w' :: l)) in Hlast.
    destruct (IH Hlast) as (pre & Hj & Hpre).
    change (str_join sep (w :: w' :: l))
      with (w ++ String sep (str_join sep (w' :: l)))%string.
    rewrite Hj. exists (w ++ String sep pre)%string. split.
    + rewrite <- string_app_assoc, string_app_cons. reflexivity.
    + right. destruct Hpre as [->|(pre' & ->)].
      * exists w. reflexivity.
      * exists (w ++ String sep pre')%string.
        rewrite <- string_app_assoc, string_app_cons. reflexivity.
Qed.

Lemma last_item_split sep (s : string) :
  exists x pre,
    last_item (str_split sep s) = Ok x
    /\ s = (pre ++ x)%string
    /\ has_char sep x = false
    /\ (pre = "" \/ exists pre', pre = (pre' ++ String sep "")%string).
Proof.
  destruct (str_split_join sep s) as (Hne & Hjoin & Hall).
  unfold last_item. destruct (last (str_split sep s)) as [x|] eqn:Hlast.
  - destruct (str_join_last sep _ x Hlast) as (pre & Hj & Hpre).
    exists x, pre. split; [reflexivity|]. split; [congruence|]. split; [|exact Hpre].
    apply last_Some in Hlast as (l' & Hl'). rewrite Hl' in Hall.
    apply Forall_app in Hall as [_ Hx]. inversion Hx; assumption.
  - apply last_None in Hlast. contradiction.
Qed.

(** X7.  The name that the page shows for the best match, line 176: the
    expression never raises, and what it gives is the end of the path
    after its last slash or backslash, with neither of them in it. *)
Theorem shown_name_is_last_component top_match :
  exists name pre,
    shown_name top_match = Ok name
    /\ top_match = (pre ++ name)%string
    /\ has_char "/" name = false /\ has_char backslash name = false
    /\ (pre = ""
        \/ exists pre', pre = (pre' ++ "/")%string \/ pre = (pre' ++ String backslash "")%string).
Proof.
  unfold shown_name.
  destruct (last_item_split "/" top_match) as (x & pre1 & -> & -> & Hx & Hpre1).
  destruct (last_item_split backslash x) as (name & pre2 & -> & -> & Hname & Hpre2).
  rewrite has_char_app in Hx. apply orb_false_iff in Hx as [_ Hslash].
  exists name, (pre1 ++ pre2)%string. split; [reflexivity|].
  split; [apply string_app_assoc|]. split; [exact Hslash|]. split; [exact Hname|].
  destruct Hpre2 as [->|(pre' & ->)].
  - rewrite string_app_nil_r. destruct Hpre1 as [->|(pre' & ->)]; [left; reflexivity|].
    right. exists pre'. left. reflexivity.
  - right. exists (pre1 ++ pre')%string. right. apply string_app_assoc.
Qed.

Lemma last_item_split_app sep (a y : string) :
  has_char sep y = false ->
  last_item (str_split sep (a ++ String sep y)) = Ok y.
Proof.
  intros Hy.
  destruct (last_item_split sep (a ++ String sep y))
    as (x & pre & -> & Heq & Hx & Hpre).
  f_equal. destruct Hpre as [->|(pre' & ->)].
  - rewrite string_app_nil_l in Heq. subst x.
    rewrite has_char_app in Hx. simpl in Hx. rewrite Ascii.eqb_refl in Hx.
    rewrite orb_true_r in Hx. discriminate.
  - rewrite <- string_app_assoc, string_app_cons, string_app_nil_l in Heq.
    revert pre' Heq. induction a as [|c a IH]; intros pre' Heq.
    + rewrite string_app_nil_l in Heq. destruct pre' as [|c' pre'].
      * rewrite string_app_nil_l in Heq. congruence.
      * rewrite string_app_cons in Heq. injection Heq as _ Heq. subst y.
        rewrite has_char_app in Hy. simpl in Hy. rewrite Ascii.eqb_refl in Hy.
        rewrite orb_true_r in Hy. discriminate.
    + rewrite string_app_cons in Heq. destruct pre' as [|c' pre'].
      * rewrite string_app_nil_l in Heq. injection Heq as _ Heq. subst x.
        rewrite has_char_app in Hx. simpl in Hx. rewrite Ascii.eqb_refl in Hx.
        rewrite orb_true_r in Hx. discriminate.
      * rewrite string_app_cons in Heq. injection Heq as _ Heq. eapply IH, Heq.
Qed.

(** X8.  For a key that [build_index] stores, the path of a listed file
    name in the image directory, the name shown is that file name, when it
    has no backslash. *)
Theorem shown_name_of_indexed_path dir filename :
  has_char "/" filename = false ->
  has_char backslash filename = false ->
  shown_name (os_path_join dir filename) = Ok filename.
Proof.
  intros Hslash Hback.
  assert (Hlast : last_item (str_split "/" (os_path_join dir filename)) = Ok filename).
  { unfold os_path_join.
    assert (Hp : String.prefix "/" filename = false).
    { destruct filename as [|c t]; [reflexivity|]. simpl in Hslash.
      apply orb_false_iff in Hslash as [Hc _]. cbn [String.prefix].
      destruct (ascii_dec "/" c) as [<-|Hne]; [discriminate | reflexivity]. }
    rewrite Hp. destruct (String.eqb dir "") eqn:Hd.
    - apply String.eqb_eq in Hd. subst dir. cbn [orb]. rewrite string_app_nil_l.
      rewrite (str_split_plain "/" filename Hslash). reflexivity.
    - cbn [orb]. destruct (endswith dir "/") eqn:He.
      + apply endswith_inv in He as [d' ->].
        rewrite <- string_app_assoc, string_app_cons, string_app_nil_l.
        apply last_item_split_app, Hslash.
      + rewrite string_app_cons, string_app_nil_l.
        apply last_item_split_app, Hslash. }
  unfold shown_name. rewrite Hlast, (str_split_plain backslash filename Hback). reflexivity.
Qed.

Lemma shown_name_of_indexed_path_witness :
  shown_name (os_path_join "imgs" "b.JPG") = Ok "b.JPG".
Proof. apply (shown_name_of_indexed_path "imgs" "b.JPG"); reflexivity. Defined.

(** ** What [search] returns, beyond its order and its bounds *)

Lemma slice_to_elem {A : Type} (l : list A) (limit : Z) x :
  x ∈ slice_to l limit -> x ∈ l.
Proof.
  intros Hx. destruct (slice_to_prefix l limit) as [rest Hl]. rewrite Hl.
  apply elem_of_app. left. exact Hx.
Qed.

Lemma StronglySorted_app_Forall {A : Type} (R : A -> A -> Prop) (l1 l2 : list A) :
  StronglySorted R (l1 ++ l2) -> Forall (fun a => Forall (R a) l2) l1.
Proof.
  induction l1 as [|x l1 IH]; [constructor|]. simpl. intros Hs.
  inversion Hs as [|? ? Hs' Hx]; subst. constructor; [|apply IH, Hs'].
  apply Forall_app in Hx. apply Hx.
Qed.

Section ScanFacts.
Context {SK : Skimage}.

Lemma scan_one_Some q t item r :
  scan_one q t item = Some r
  <-> r.1 = item.1 /\ ssim q item.2 = Ok r.2 /\ float_ge r.2 t = true.
Proof.
  unfold scan_one. destruct r as [k sc]. simpl. split.
  - destruct (ssim q item.2) as [s0|]; [|discriminate].
    destruct (float_ge s0 t) eqn:Hge; [|discriminate].
    intros H. inversion H; subst. auto.
  - intros (-> & -> & ->). reflexivity.
Qed.

(** Every ranked pair is the key of an entry with its score. *)
Lemma rank_sound q t limit items :
  Forall (fun r => exists img, (r.1, img) ∈ items /\ ssim q img = Ok r.2)
         (rank q t limit items).
Proof.
  apply Forall_forall. intros r Hr. unfold rank in Hr.
  apply slice_to_elem in Hr. rewrite sort_reverse_Permutation in Hr.
  unfold scan in Hr. apply list_elem_of_omap in Hr as ([k img] & Hin & Hone).
  apply scan_one_Some in Hone as (Hk & Hs & _). simpl in *.
  exists img. rewrite Hk. auto.
Qed.

(** An entry that clears the threshold is ranked, or is no better than any
    ranked one; and then, for a limit that is not negative, the ranking is
    full. *)
Lemma rank_best q t limit items k img sc :
  (k, img) ∈ items -> ssim q img = Ok sc -> float_ge sc t = true ->
  (k, sc) ∈ rank q t limit items
  \/ (Forall (fun r => float_ge r.2 sc = true) (rank q t limit items)
      /\ ((0 <= limit)%Z -> Z.of_nat (length (rank q t limit items)) = limit)).
Proof.
  intros Hin Hs Hge.
  assert (Hc : (k, sc) ∈ sort_reverse snd (scan q t items)).
  { rewrite sort_reverse_Permutation. unfold scan. apply list_elem_of_omap.
    exists (k, img). split; [exact Hin|]. apply scan_one_Some. auto. }
  assert (Hsorted : StronglySorted (desc snd) (sort_reverse snd (scan q t items)))
    by apply (sort_reverse_sorted snd), scan_not_nan.
  unfold rank.
  destruct (slice_to_prefix (sort_reverse snd (scan q t items)) limit) as [rest Hl].
  set (res := slice_to (sort_reverse snd (scan q t items)) limit) in *.
  rewrite Hl in Hc, Hsorted. apply elem_of_app in Hc as [Hc|Hc]; [left; exact Hc|].
  right. split.
  - apply StronglySorted_app_Forall in Hsorted.
    eapply Forall_impl; [exact Hsorted|]. cbv beta. intros r Hr.
    rewrite Forall_forall in Hr. apply (Hr (k, sc) Hc).
  - intros Hlim. subst res. rewrite slice_to_nonneg in * by exact Hlim.
    pose proof (f_equal length Hl) as Hlen.
    rewrite length_app, length_take in Hlen. rewrite length_take.
    destruct rest as [|r0 rest]; [inversion Hc|]. simpl in Hlen. lia.
Qed.

(** The keys of a ranking are distinct when those of the index are. *)
Lemma rank_NoDup q t limit (items : list (string * ndarray)) :
  NoDup items.*1 -> NoDup (rank q t limit items).*1.
Proof.
  intros Hnd. unfold rank.
  assert (Hs : NoDup (sort_reverse snd (scan q t items)).*1).
  { rewrite sort_reverse_Permutation. unfold scan.
    eapply sublist_NoDup; [exact Hnd|].
    clear Hnd. induction items as [|[k img] items IH]; [constructor|].
    rewrite omap_cons. destruct (scan_one q t (k, img)) as [r|] eqn:Hone.
    - apply scan_one_Some in Hone as (Hk & _). rewrite !fmap_cons.
      cbn [fst] in Hk |- *. rewrite Hk. apply sublist_skip, IH.
    - rewrite fmap_cons. apply sublist_cons, IH. }
  destruct (slice_to_prefix (sort_reverse snd (scan q t items)) limit) as [rest Hl].
  rewrite Hl, fmap_app in Hs. apply NoDup_app in Hs. apply Hs.
Qed.
End ScanFacts.

(** X9.  In both engines every pair that [search] returns is the key of
    an entry of the index together with the score of the query against that
    entry. *)
Theorem search_results_are_index_entries :
  (forall (blob : Type) (CV : Cv2) (SK : Skimage) (PK : Pickle (dict ndarray) blob)
          (os_listdir : string -> result (list string))
          (path : string) (t : pyfloat) (n : Z) (s s' : @App.state blob) res,
      App.search os_listdir path t n s = (Ok res, s') ->
      exists q, app_extract path = Ok q
        /\ Forall (fun r => exists img,
                     (r.1, img) ∈ App.image_features (App.self s')
                     /\ ssim q img = Ok r.2) res)
  /\
  (forall (blob : Type) (CV : Cv2) (SK : Skimage) (DR : GD.Drive)
          (PK : Pickle GD.cached_data blob)
          (query : GD.query_image) (t : pyfloat) (n : Z) (s s' : @GD.state blob) res,
      GD.search query t n s = (Ok res, s') ->
      exists q, gd_query query = Ok q
        /\ Forall (fun r => exists img,
                     (r.1, img) ∈ GD.image_features (GD.self s')
                     /\ ssim q img = Ok r.2) res).
Proof.
  split; intros.
  - match goal with H : App.search _ _ _ _ _ = _ |- _ =>
      apply app_search_is_rank in H as (q & Hq & ->) end.
    exists q. split; [exact Hq | apply rank_sound].
  - match goal with H : GD.search _ _ _ _ = _ |- _ =>
      apply gd_search_is_rank in H as (q & Hq & ->) end.
    exists q. split; [exact Hq | apply rank_sound].
Qed.

(** X10.  In both engines [search] returns the best matches: an entry of
    the index whose score clears the threshold is among the results, or the
    results are full (there are [n] of them, for [n >= 0]) and each of them
    scores at least as much. *)
Theorem search_returns_the_best :
  (forall (blob : Type) (CV : Cv2) (SK : Skimage) (PK : Pickle (dict ndarray) blob)
          (os_listdir : string -> result (list string))
          (path : string) (t : pyfloat) (n : Z) (s s' : @App.state blob) res,
      App.search os_listdir path t n s = (Ok res, s') ->
      exists q, app_extract path = Ok q
        /\ forall k img sc,
             (k, img) ∈ App.image_features (App.self s') ->
             ssim q img = Ok sc -> float_ge sc t = true ->
             (k, sc) ∈ res
             \/ (Forall (fun r => float_ge r.2 sc = true) res
                 /\ ((0 <= n)%Z -> Z.of_nat (length res) = n)))
  /\
  (forall (blob : Type) (CV : Cv2) (SK : Skimage) (DR : GD.Drive)
          (PK : Pickle GD.cached_data blob)
          (query : GD.query_image) (t : pyfloat) (n : Z) (s s' : @GD.state blob) res,
      GD.search query t n s = (Ok res, s') ->
      exists q, gd_query query = Ok q
        /\ forall k img sc,
             (k, img) ∈ GD.image_features (GD.self s') ->
             ssim q img = Ok sc -> float_ge sc t = true ->
             (k, sc) ∈ res
             \/ (Forall (fun r => float_ge r.2 sc = true) res
                 /\ ((0 <= n)%Z -> Z.of_nat (length res) = n))).
Proof.
  split; intros.
  - match goal with H : App.search _ _ _ _ _ = _ |- _ =>
      apply app_search_is_rank in H as (q & Hq & ->) end.
    exists q. split; [exact Hq|]. intros k img sc. apply rank_best.
  - match goal with H : GD.search _ _ _ _ = _ |- _ =>
      apply gd_search_is_rank in H as (q & Hq & ->) end.
    exists q. split; [exact Hq|]. intros k img sc. apply rank_best.
Qed.

(** The two theorems at the demo engines: the local engine after a forced
    rebuild, queried with its first image, and the Drive engine with the
    hand-written index, queried with a gray level, limit 2. *)
Lemma search_results_are_index_entries_witness :
  (exists q, app_extract (CV := Demo.cv2) "imgs/a.png" = Ok q
     /\ Forall (fun r => exists img,
                  (r.1, img) ∈ App.image_features
                                 (App.self (snd (Demo.app_search "imgs/a.png"
                                                   (F_fin (1 # 5)) 3 Demo.app_built)))
                  /\ ssim (Skimage := Demo.skimage) q img = Ok r.2)
          [("imgs/a.png", F_fin (255 # 255)); ("imgs/c.png", F_fin (255 # 255));
           ("imgs/b.JPG", F_fin (65 # 255))])
  /\ (exists q, gd_query (CV := Demo.cv2) (GD.Array (Demo.flat 10)) = Ok q
        /\ Forall (fun r => exists img,
                     (r.1, img) ∈ GD.image_features
                                    (GD.self (snd (Demo.gd_search (GD.Array (Demo.flat 10))
                                                     (F_fin (1 # 5)) 2 Demo.gd_loaded)))
                     /\ ssim (Skimage := Demo.skimage) q img = Ok r.2)
             [("id-x", F_fin (255 # 255)); ("id-z", F_fin (255 # 255))]).
Proof.
  split.
  - apply (proj1 search_results_are_index_entries _ Demo.cv2 Demo.skimage
             (Demo.pickle _) Demo.listdir "imgs/a.png" (F_fin (1 # 5)) 3%Z
             Demo.app_built
             (snd (Demo.app_search "imgs/a.png" (F_fin (1 # 5)) 3 Demo.app_built))).
    apply (run_eq (Demo.app_search "imgs/a.png" (F_fin (1 # 5)) 3)). reflexivity.
  - apply (proj2 search_results_are_index_entries _ Demo.cv2 Demo.skimage
             Demo.drive (Demo.pickle _) (GD.Array (Demo.flat 10)) (F_fin (1 # 5)) 2%Z
             Demo.gd_loaded
             (snd (Demo.gd_search (GD.Array (Demo.flat 10)) (F_fin (1 # 5)) 2
                     Demo.gd_loaded))).
    apply (run_eq (Demo.gd_search (GD.Array (Demo.flat 10)) (F_fin (1 # 5)) 2)).
    reflexivity.
Defined.

Lemma search_returns_the_best_witness :
  (exists q, app_extract (CV := Demo.cv2) "imgs/a.png" = Ok q
     /\ forall k img sc,
          (k, img) ∈ App.image_features
                       (App.self (snd (Demo.app_search "imgs/a.png"
                                         (F_fin (1 # 5)) 2 Demo.app_built))) ->
          ssim (Skimage := Demo.skimage) q img = Ok sc ->
          float_ge sc (F_fin (1 # 5)) = true ->
          (k, sc) ∈ [("imgs/a.png", F_fin (255 # 255)); ("imgs/c.png", F_fin (255 # 255))]
          \/ (Forall (fun r => float_ge r.2 sc = true)
                [("imgs/a.png", F_fin (255 # 255)); ("imgs/c.png", F_fin (255 # 255))]
              /\ ((0 <= 2)%Z
                  -> Z.of_nat (length [("imgs/a.png", F_fin (255 # 255));
                                       ("imgs/c.png", F_fin (255 # 255))]) = 2%Z)))
  /\ (exists q, gd_query (CV := Demo.cv2) (GD.Array (Demo.flat 10)) = Ok q
        /\ forall k img sc,
             (k, img) ∈ GD.image_features
                          (GD.self (snd (Demo.gd_search (GD.Array (Demo.flat 10))
                                           (F_fin (1 # 5)) 2 Demo.gd_loaded))) ->
             ssim (Skimage := Demo.skimage) q img = Ok sc ->
             float_ge sc (F_fin (1 # 5)) = true ->
             (k, sc) ∈ [("id-x", F_fin (255 # 255)); ("id-z", F_fin (255 # 255))]
             \/ (Forall (fun r => float_ge r.2 sc = true)
                   [("id-x", F_fin (255 # 255)); ("id-z", F_fin (255 # 255))]
                 /\ ((0 <= 2)%Z
                     -> Z.of_nat (length [("id-x", F_fin (255 # 255));
                                          ("id-z", F_fin (255 # 255))]) = 2%Z))).
Proof.
  split.
  - apply (proj1 search_returns_the_best _ Demo.cv2 Demo.skimage
             (Demo.pickle _) Demo.listdir "imgs/a.png" (F_fin (1 # 5)) 2%Z
             Demo.app_built
             (snd (Demo.app_search "imgs/a.png" (F_fin (1 # 5)) 2 Demo.app_built))).
    apply (run_eq (Demo.app_search "imgs/a.png" (F_fin (1 # 5)) 2)). reflexivity.
  - apply (proj2 search_returns_the_best _ Demo.cv2 Demo.skimage
             Demo.drive (Demo.pickle _) (GD.Array (Demo.flat 10)) (F_fin (1 # 5)) 2%Z
             Demo.gd_loaded
             (snd (Demo.gd_search (GD.Array (Demo.flat 10)) (F_fin (1 # 5)) 2
                     Demo.gd_loaded))).
    apply (run_eq (Demo.gd_search (GD.Array (Demo.flat 10)) (F_fin (1 # 5)) 2)).
    reflexivity.
Defined.

(** ** The keys of an index *)

Section DictKeys.
Context {V : Type}.
Implicit Types (d : dict V) (k : string) (v : V).

Lemma dict_keys_set k v d :
  dict_keys (dict_set k v d)
  = if dict_contains k d then dict_keys d else dict_keys d ++ [k].
Proof.
  unfold dict_keys, dict_contains. induction d as [|[k' v'] d IH]; [reflexivity|].
  simpl. destruct (decide (k = k')) as [->|Hne]; [reflexivity|].
  rewrite fmap_cons, IH. destruct (dict_get k d); reflexivity.
Qed.

Lemma dict_set_distinct k v d : distinct_keys d -> distinct_keys (dict_set k v d).
Proof.
  unfold distinct_keys. intros Hnd. rewrite dict_keys_set.
  destruct (dict_contains k d) eqn:Hk; [exact Hnd|].
  apply NoDup_app. split; [exact Hnd|]. split; [|apply NoDup_singleton].
  intros x Hx Hx'. apply list_elem_of_singleton in Hx'. subst x.
  apply dict_contains_keys in Hx. congruence.
Qed.

Lemma dict_set_all_distinct items d :
  distinct_keys d -> distinct_keys (dict_set_all items d).
Proof.
  unfold dict_set_all. revert d. induction items as [|[k v] items IH]; intros d Hd.
  - exact Hd.
  - simpl. apply IH, dict_set_distinct, Hd.
Qed.

(** Setting keys keeps the keys that are there, in their places. *)
Lemma dict_keys_set_all items d :
  exists extra, dict_keys (dict_set_all items d) = dict_keys d ++ extra.
Proof.
  unfold dict_set_all. revert d. induction items as [|[k v] items IH]; intros d.
  - exists []. rewrite app_nil_r. reflexivity.
  - simpl. destruct (IH (dict_set k v d)) as [extra ->]. rewrite dict_keys_set.
    destruct (dict_contains k d); [eauto|].
    exists ([k] ++ extra). rewrite app_assoc. reflexivity.
Qed.

Lemma dict_get_set_all k items d :
  dict_get k (dict_set_all items d)
  = match last_value k items with
    | Some v => Some v
    | None => dict_get k d
    end.
Proof. rewrite !dict_get_mapping. apply lookup_dict_set_all. Qed.

Lemma last_value_elem k v (items : list (string * V)) :
  last_value k items = Some v -> (k, v) ∈ items.
Proof.
  induction items as [|[k' v'] items IH]; [discriminate|]. simpl.
  destruct (last_value k items) as [v0|].
  - intros H. inversion H; subst. right. apply IH. reflexivity.
  - destruct (decide (k = k')) as [->|]; [|discriminate].
    intros H. inversion H; subst. left.
Qed.

Lemma last_value_is_Some k (items : list (string * V)) :
  is_Some (last_value k items) <-> k ∈ items.*1.
Proof.
  induction items as [|[k' v'] items IH].
  - split; [intros [? ?]; discriminate | intros H; inversion H].
  - simpl. rewrite elem_of_cons. destruct (last_value k items) as [v0|].
    + split; [|eauto]. intros _. right. apply IH. eauto.
    + destruct (decide (k = k')) as [->|Hne].
      * split; eauto.
      * split; [intros [? ?]; discriminate|].
        intros [?|Hin]; [contradiction|]. apply IH in Hin as [? ?]. discriminate.
Qed.

Lemma dict_contains_set_all_keys k items d :
  dict_contains k (dict_set_all items d) = true
  <-> k ∈ items.*1 \/ dict_contains k d = true.
Proof.
  unfold dict_contains. rewrite dict_get_set_all, <- last_value_is_Some.
  destruct (last_value k items) as [v0|].
  - split; eauto.
  - split; [auto|]. intros [[? ?]|H]; [discriminate | exact H].
Qed.
End DictKeys.

(** ** The outcomes of [build_index], for the index in memory *)

Section AppOutcome.
Context {blob : Type} {CV : Cv2} {SK : Skimage} {PK : Pickle (dict ndarray) blob}.
Context (os_listdir : string -> result (list string)).

(** The index in memory after [build_index]: the one before, the content
    of the index file, or what the files of a listing give. *)
Lemma app_build_index_outcome force_rebuild (s : @App.state blob) :
  let s' := snd (App.build_index os_listdir force_rebuild s) in
  App.image_features (App.self s') = App.image_features (App.self s)
  \/ (exists b, App.index_file (App.env s) = Some b
                /\ pickle_loads b = Ok (App.image_features (App.self s')))
  \/ (exists names,
        App.image_features (App.self s')
        = dict_set_all (omap (app_entry (App.image_directory (App.self s))) names) []).
Proof.
  intros s'. subst s'.
  destruct (app_build_index_cases os_listdir force_rebuild s)
    as [(_ & _ & ->)|[(b & Hi & -> & Hb)|Hre]].
  - left. reflexivity.
  - rewrite (app_build_index_load _ _ _ Hi Hb).
    destruct (pickle_loads b) as [d|e] eqn:Hl.
    + right. left. exists b. split; [exact Hb | exact Hl].
    + left. reflexivity.
  - right. right. rewrite (app_build_index_rebuild_eq _ _ _ Hre).
    destruct (os_listdir (App.image_directory (App.self s))) as [names|e].
    + exists names. destruct (App.writable (App.env s)); reflexivity.
    + exists []. reflexivity.
Qed.

(** After [build_index] has returned, the engine is indexed. *)
Lemma app_build_index_indexed force_rebuild (s : @App.state blob) :
  fst (App.build_index os_listdir force_rebuild s) = Ok tt ->
  App.is_indexed (App.self (snd (App.build_index os_listdir force_rebuild s))) = true.
Proof.
  destruct (app_build_index_cases os_listdir force_rebuild s)
    as [(Hi & _ & ->)|[(b & Hi & -> & Hb)|Hre]].
  - intros _. exact Hi.
  - rewrite (app_build_index_load _ _ _ Hi Hb).
    destruct (pickle_loads b); [reflexivity | discriminate].
  - rewrite (app_build_index_rebuild_eq _ _ _ Hre).
    destruct (os_listdir (App.image_directory (App.self s))); [|discriminate].
    destruct (App.writable (App.env s)); [reflexivity | discriminate].
Qed.
End AppOutcome.

Section DriveOutcome.
Context {blob : Type} {CV : Cv2} {SK : Skimage} {DR : GD.Drive}
        {PK : Pickle GD.cached_data blob}.

(** The index in memory after [build_index]: the one before when the cache
    file does not load, and otherwise the loaded index with the entries of
    the new files, if the listing gave any. *)
Lemma gd_build_index_outcome (s : @GD.state blob) :
  let s' := snd (GD.build_index s) in
  (exists e, gd_loaded_index s = Raise e /\ s' = s)
  \/ (exists feats md nf,
        gd_loaded_index s = Ok (feats, md)
        /\ (nf = []
            \/ exists files,
                 GD.drive_files_list (GD.folder_id (GD.self s)) = Ok files
                 /\ nf = GD.new_files_of md files)
        /\ GD.image_features (GD.self s') = dict_set_all (omap gd_entry nf) feats
        /\ GD.image_metadata (GD.self s') = dict_set_all (omap gd_meta_entry nf) md).
Proof.
  intros s'. subst s'.
  destruct (gd_loaded_index s) as [[feats md]|e] eqn:Hl.
  - right. exists feats, md.
    destruct (GD.drive_files_list (GD.folder_id (GD.self s))) as [files|e] eqn:Hls.
    + exists (GD.new_files_of md files). split; [reflexivity|].
      split; [right; exists files; auto|].
      apply (gd_build_index_index feats md files s Hl Hls).
    + exists []. split; [reflexivity|]. split; [left; reflexivity|].
      rewrite gd_build_index_eq, Hl, Hls. split; reflexivity.
  - left. exists e. split; [reflexivity|]. rewrite gd_build_index_eq, Hl. reflexivity.
Qed.

Lemma gd_entry_meta_keys (nf : list GD.file) :
  (omap gd_entry nf).*1 = (omap gd_meta_entry nf).*1.
Proof.
  induction nf as [|f nf IH]; [reflexivity|]. rewrite !omap_cons.
  unfold gd_entry at 1, gd_meta_entry at 1.
  destruct (gd_extract (GD.id f)); [|exact IH].
  rewrite !fmap_cons, IH. reflexivity.
Qed.
End DriveOutcome.

(** [build_index] keeps the keys of an index distinct. *)
Lemma app_build_index_distinct {blob : Type} {CV : Cv2} {SK : Skimage}
    {PK : Pickle (dict ndarray) blob}
    (os_listdir : string -> result (list string))
    (force_rebuild : bool) (s : @App.state blob) :
  distinct_keys (App.image_features (App.self s)) ->
  (forall b d, App.index_file (App.env s) = Some b ->
               pickle_loads b = Ok d -> distinct_keys d) ->
  distinct_keys
    (App.image_features (App.self (snd (App.build_index os_listdir force_rebuild s)))).
Proof.
  intros Hmem Hfile.
  destruct (app_build_index_outcome os_listdir force_rebuild s)
    as [->|[(b & Hb & Hl)|(names & ->)]].
  - exact Hmem.
  - apply (Hfile b _ Hb Hl).
  - apply dict_set_all_distinct. constructor.
Qed.

Lemma gd_build_index_distinct {blob : Type} {CV : Cv2} {SK : Skimage}
    {DR : GD.Drive} {PK : Pickle GD.cached_data blob} (s : @GD.state blob) :
  distinct_keys (GD.image_features (GD.self s)) ->
  distinct_keys (GD.image_metadata (GD.self s)) ->
  (forall feats md, gd_loaded_index s = Ok (feats, md) ->
                    distinct_keys feats /\ distinct_keys md) ->
  distinct_keys (GD.image_features (GD.self (snd (GD.build_index s))))
  /\ distinct_keys (GD.image_metadata (GD.self (snd (GD.build_index s)))).
Proof.
  intros Hf Hm Hfile.
  destruct (gd_build_index_outcome s)
    as [(e & _ & ->)|(feats & md & nf & Hl & _ & -> & ->)].
  - auto.
  - destruct (Hfile feats md Hl) as [Hfd Hmd].
    split; apply dict_set_all_distinct; assumption.
Qed.

(** X11.  The keys of an index stay distinct: in both engines, when the
    keys of the index in memory are distinct and so are those of what the
    index file holds, they are distinct after [build_index]. *)
Theorem index_keys_stay_distinct :
  (forall (blob : Type) (CV : Cv2) (SK : Skimage) (PK : Pickle (dict ndarray) blob)
          (os_listdir : string -> result (list string))
          (force_rebuild : bool) (s : @App.state blob),
      distinct_keys (App.image_features (App.self s)) ->
      (forall b d, App.index_file (App.env s) = Some b ->
                   pickle_loads b = Ok d -> distinct_keys d) ->
      distinct_keys
        (App.image_features
           (App.self (snd (App.build_index os_listdir force_rebuild s)))))
  /\
  (forall (blob : Type) (CV : Cv2) (SK : Skimage) (DR : GD.Drive)
          (PK : Pickle GD.cached_data blob) (s : @GD.state blob),
      distinct_keys (GD.image_features (GD.self s)) ->
      distinct_keys (GD.image_metadata (GD.self s)) ->
      (forall feats md, gd_loaded_index s = Ok (feats, md) ->
                        distinct_keys feats /\ distinct_keys md) ->
      distinct_keys (GD.image_features (GD.self (snd (GD.build_index s))))
      /\ distinct_keys (GD.image_metadata (GD.self (snd (GD.build_index s))))).
Proof.
  split.
  - intros blob CV SK PK os_listdir force_rebuild s Hmem Hfile.
    apply app_build_index_distinct; assumption.
  - intros blob CV SK DR PK s Hf Hm Hfile.
    apply gd_build_index_distinct; assumption.
Qed.

Lemma demo_distinct_keys :
  distinct_keys Demo.app_index /\ distinct_keys Demo.gd_index
  /\ distinct_keys Demo.gd_index_metadata.
Proof.
  unfold distinct_keys. repeat split;
    refine (bool_decide_unpack _ _); reflexivity.
Qed.

(** The theorem at the two demo engines that find a snapshot. *)
Lemma index_keys_stay_distinct_witness :
  distinct_keys
    (App.image_features (App.self (snd (Demo.app_build_index false Demo.app_snapshot))))
  /\ distinct_keys
       (GD.image_features (GD.self (snd (Demo.gd_build_index Demo.gd_snapshot))))
  /\ distinct_keys
       (GD.image_metadata (GD.self (snd (Demo.gd_build_index Demo.gd_snapshot)))).
Proof.
  split.
  - apply (proj1 index_keys_stay_distinct _ Demo.cv2 Demo.skimage (Demo.pickle _)
             Demo.listdir false Demo.app_snapshot).
    + constructor.
    + intros b d Hb Hl. injection Hb as <-. injection Hl as <-.
      apply demo_distinct_keys.
  - apply (proj2 index_keys_stay_distinct _ Demo.cv2 Demo.skimage Demo.drive
             (Demo.pickle _) Demo.gd_snapshot).
    + constructor.
    + constructor.
    + intros feats md Hl. injection Hl as <- <-.
      split; apply demo_distinct_keys.
Defined.

(** X12.  No image is returned twice: in both engines, from an engine
    whose index in memory and index file have distinct keys, the keys of the
    pairs that [search] returns are distinct. *)
Theorem search_returns_no_image_twice :
  (forall (blob : Type) (CV : Cv2) (SK : Skimage) (PK : Pickle (dict ndarray) blob)
          (os_listdir : string -> result (list string))
          (path : string) (t : pyfloat) (n : Z) (s s' : @App.state blob) res,
      distinct_keys (App.image_features (App.self s)) ->
      (forall b d, App.index_file (App.env s) = Some b ->
                   pickle_loads b = Ok d -> distinct_keys d) ->
      App.search os_listdir path t n s = (Ok res, s') ->
      NoDup res.*1)
  /\
  (forall (blob : Type) (CV : Cv2) (SK : Skimage) (DR : GD.Drive)
          (PK : Pickle GD.cached_data blob)
          (query : GD.query_image) (t : pyfloat) (n : Z) (s s' : @GD.state blob) res,
      distinct_keys (GD.image_features (GD.self s)) ->
      distinct_keys (GD.image_metadata (GD.self s)) ->
      (forall feats md, gd_loaded_index s = Ok (feats, md) ->
                        distinct_keys feats /\ distinct_keys md) ->
      GD.search query t n s = (Ok res, s') ->
      NoDup res.*1).
Proof.
  split.
  - intros blob CV SK PK os_listdir path t n s s' res Hmem Hfile Hs.
    destruct (app_search_state os_listdir path t n s) as (msgs & s1 & Hs1 & Hsnd).
    rewrite Hs in Hsnd. cbn [snd] in Hsnd.
    apply app_search_is_rank in Hs as (q & _ & ->). apply rank_NoDup.
    rewrite Hsnd. cbn [app_printed App.self].
    destruct Hs1 as [->| ->]; [exact Hmem|].
    apply app_build_index_distinct; assumption.
  - intros blob CV SK DR PK query t n s s' res Hf Hm Hfile Hs.
    destruct (gd_search_state query t n s) as (msgs & s1 & Hs1 & Hsnd).
    rewrite Hs in Hsnd. cbn [snd] in Hsnd.
    apply gd_search_is_rank in Hs as (q & _ & ->). apply rank_NoDup.
    rewrite Hsnd. cbn [gd_printed GD.self].
    destruct Hs1 as [->| ->]; [exact Hf|].
    apply gd_build_index_distinct; assumption.
Qed.

(** The theorem at the local engine before any call, and at the Drive
    engine that finds the hand-written cache. *)
Lemma search_returns_no_image_twice_witness :
  NoDup [("imgs/a.png", F_fin (255 # 255)); ("imgs/c.png", F_fin (255 # 255));
         ("imgs/b.JPG", F_fin (65 # 255))].*1
  /\ NoDup [("id-x", F_fin (255 # 255)); ("id-z", F_fin (255 # 255));
            ("id-y", F_fin (65 # 255))].*1.
Proof.
  split.
  - apply (proj1 search_returns_no_image_twice _ Demo.cv2 Demo.skimage
             (Demo.pickle _) Demo.listdir "imgs/a.png" (F_fin (1 # 5)) 3%Z
             Demo.app_fresh
             (snd (Demo.app_search "imgs/a.png" (F_fin (1 # 5)) 3 Demo.app_fresh))).
    + constructor.
    + intros b d Hb. discriminate Hb.
    + apply (run_eq (Demo.app_search "imgs/a.png" (F_fin (1 # 5)) 3)). reflexivity.
  - apply (proj2 search_returns_no_image_twice _ Demo.cv2 Demo.skimage
             Demo.drive (Demo.pickle _) (GD.Array (Demo.flat 10)) (F_fin (1 # 5)) 3%Z
             Demo.gd_snapshot
             (snd (Demo.gd_search (GD.Array (Demo.flat 10)) (F_fin (1 # 5)) 3
                     Demo.gd_snapshot))).
    + constructor.
    + constructor.
    + intros feats md Hl. injection Hl as <- <-.
      split; apply demo_distinct_keys.
    + apply (run_eq (Demo.gd_search (GD.Array (Demo.flat 10)) (F_fin (1 # 5)) 3)).
      reflexivity.
Defined.

(** ** Features and metadata in the Drive engine *)

Section DriveKeys.
Context {blob : Type} {CV : Cv2} {SK : Skimage} {DR : GD.Drive}
        {PK : Pickle GD.cached_data blob}.

Lemma same_keys_set_all (nf : list GD.file) (feats : dict ndarray)
    (md : dict GD.metadata) :
  same_keys feats md ->
  same_keys (dict_set_all (omap gd_entry nf) feats)
            (dict_set_all (omap gd_meta_entry nf) md).
Proof.
  intros Hsame k. apply eq_true_iff_eq.
  rewrite !dict_contains_set_all_keys, gd_entry_meta_keys, (Hsame k). reflexivity.
Qed.

End DriveKeys.

(** X13.  In searchAPP.py the features and the metadata have the same
    keys after [build_index], when they have in memory and in what the cache
    file holds. *)
Theorem features_and_metadata_share_keys
    (blob : Type) (CV : Cv2) (SK : Skimage) (DR : GD.Drive)
    (PK : Pickle GD.cached_data blob) (s : @GD.state blob) :
  same_keys (GD.image_features (GD.self s)) (GD.image_metadata (GD.self s)) ->
  (forall feats md, gd_loaded_index s = Ok (feats, md) -> same_keys feats md) ->
  same_keys (GD.image_features (GD.self (snd (GD.build_index s))))
            (GD.image_metadata (GD.self (snd (GD.build_index s)))).
Proof.
  intros Hmem Hfile.
  destruct (gd_build_index_outcome s)
    as [(e & _ & ->)|(feats & md & nf & Hl & _ & -> & ->)].
  - exact Hmem.
  - apply same_keys_set_all, (Hfile feats md Hl).
Qed.

(** X14.  In searchAPP.py every result of [search] has metadata: from an
    engine whose features and metadata have the same keys, in memory and in
    what the cache file holds, the lookup [image_metadata[file_id]] that the
    page makes for each returned pair finds a value. *)
Theorem search_results_have_metadata
    (blob : Type) (CV : Cv2) (SK : Skimage) (DR : GD.Drive)
    (PK : Pickle GD.cached_data blob)
    (query : GD.query_image) (t : pyfloat) (n : Z) (s s' : @GD.state blob) res :
  same_keys (GD.image_features (GD.self s)) (GD.image_metadata (GD.self s)) ->
  (forall feats md, gd_loaded_index s = Ok (feats, md) -> same_keys feats md) ->
  GD.search query t n s = (Ok res, s') ->
  Forall (fun r => exists m, dict_get r.1 (GD.image_metadata (GD.self s')) = Some m) res.
Proof.
  intros Hmem Hfile Hs.
  destruct (gd_search_state query t n s) as (msgs & s1 & Hs1 & Hsnd).
  rewrite Hs in Hsnd. cbn [snd] in Hsnd.
  assert (Hsame : same_keys (GD.image_features (GD.self s'))
                            (GD.image_metadata (GD.self s'))).
  { rewrite Hsnd. cbn [gd_printed GD.self].
    destruct Hs1 as [->| ->]; [exact Hmem|].
    destruct (gd_build_index_outcome s)
      as [(e & _ & ->)|(feats & md & nf & Hl & _ & -> & ->)]; [exact Hmem|].
    apply same_keys_set_all, (Hfile feats md Hl). }
  apply gd_search_is_rank in Hs as (q & _ & ->).
  eapply Forall_impl; [apply rank_sound|]. cbv beta.
  intros r (img & Hin & _).
  assert (Hk : dict_contains r.1 (GD.image_features (GD.self s')) = true).
  { apply dict_contains_keys. unfold dict_keys.
    apply list_elem_of_fmap. exists (r.1, img). split; [reflexivity | exact Hin]. }
  rewrite (Hsame r.1) in Hk. unfold dict_contains in Hk.
  destruct (dict_get r.1 (GD.image_metadata (GD.self s'))) as [m|]; [eauto | discriminate].
Qed.

Lemma demo_same_keys : same_keys Demo.gd_index Demo.gd_index_metadata.
Proof.
  intros k. unfold Demo.gd_index_metadata, Demo.gd_index, dict_contains.
  cbn [map dict_get fst].
  repeat (destruct (decide (k = _)); [reflexivity|]). reflexivity.
Qed.

Lemma features_and_metadata_share_keys_witness :
  same_keys (GD.image_features (GD.self (snd (Demo.gd_build_index Demo.gd_snapshot))))
            (GD.image_metadata (GD.self (snd (Demo.gd_build_index Demo.gd_snapshot)))).
Proof.
  apply (features_and_metadata_share_keys _ Demo.cv2 Demo.skimage Demo.drive
           (Demo.pickle _) Demo.gd_snapshot).
  - intros k. reflexivity.
  - intros feats md Hl. injection Hl as <- <-. apply demo_same_keys.
Defined.

Lemma search_results_have_metadata_witness :
  Forall (fun r => exists m,
            dict_get r.1
              (GD.image_metadata
                 (GD.self (snd (Demo.gd_search (GD.Array (Demo.flat 10))
                                  (F_fin (1 # 5)) 3 Demo.gd_snapshot)))) = Some m)
    [("id-x", F_fin (255 # 255)); ("id-z", F_fin (255 # 255));
     ("id-y", F_fin (65 # 255))].
Proof.
  apply (search_results_have_metadata _ Demo.cv2 Demo.skimage Demo.drive
           (Demo.pickle _) (GD.Array (Demo.flat 10)) (F_fin (1 # 5)) 3%Z
           Demo.gd_snapshot).
  - intros k. reflexivity.
  - intros feats md Hl. injection Hl as <- <-. apply demo_same_keys.
  - apply (run_eq (Demo.gd_search (GD.Array (Demo.flat 10)) (F_fin (1 # 5)) 3)).
    reflexivity.
Defined.

(** ** The incremental build of the Drive engine *)

Section DriveIncremental.
Context {blob : Type} {CV : Cv2} {SK : Skimage} {DR : GD.Drive}
        {PK : Pickle GD.cached_data blob}.

Lemma last_value_new_files {V : Type} (entry : GD.file -> option (string * V))
    (Hkey : forall f kv, entry f = Some kv -> kv.1 = GD.id f)
    k (md : dict GD.metadata) files :
  dict_contains k md = true ->
  last_value k (omap entry (GD.new_files_of md files)) = None.
Proof.
  intros Hk. unfold GD.new_files_of.
  apply (last_value_omap_filter_none entry GD.id Hkey).
  intros f <-. rewrite Hk. reflexivity.
Qed.

(** The state parts that [build_index] never changes. *)
Lemma gd_build_index_frame (s : @GD.state blob) :
  GD.folder_id (GD.self (snd (GD.build_index s))) = GD.folder_id (GD.self s)
  /\ GD.writable (GD.env (snd (GD.build_index s))) = GD.writable (GD.env s).
Proof.
  rewrite gd_build_index_eq.
  destruct (gd_loaded_index s) as [[feats md]|e]; [|auto].
  destruct (GD.drive_files_list (GD.folder_id (GD.self s))) as [files|e]; [|auto].
  unfold gd_build_from. destruct files as [|f files]; [auto|].
  destruct (GD.new_files_of md (f :: files)) as [|n0 nf]; [auto|].
  cbn [gd_update GD.env GD.writable].
  destruct (GD.writable (GD.env s)) eqn:Hw; cbn; auto.
Qed.
End DriveIncremental.

(** X15.  The incremental build of searchAPP.py keeps what it loaded: the
    keys of the loaded features stay, in their places, at the front of the
    index, and an identifier that has loaded metadata keeps its feature and
    its metadata, whatever the listing says of it. *)
Theorem build_keeps_loaded_entries
    (blob : Type) (CV : Cv2) (SK : Skimage) (DR : GD.Drive)
    (PK : Pickle GD.cached_data blob) (s : @GD.state blob) feats md :
  gd_loaded_index s = Ok (feats, md) ->
  (exists extra,
     dict_keys (GD.image_features (GD.self (snd (GD.build_index s))))
     = dict_keys feats ++ extra)
  /\ forall k,
       dict_contains k md = true ->
       dict_get k (GD.image_features (GD.self (snd (GD.build_index s))))
       = dict_get k feats
       /\ dict_get k (GD.image_metadata (GD.self (snd (GD.build_index s))))
          = dict_get k md.
Proof.
  intros Hl.
  destruct (gd_build_index_outcome s)
    as [(e & He & _)|(feats' & md' & nf & Hl' & Hnf & -> & ->)]; [congruence|].
  rewrite Hl in Hl'. inversion Hl'; subst feats' md'. split.
  - apply dict_keys_set_all.
  - intros k Hk. rewrite !dict_get_set_all.
    destruct Hnf as [->|(files & _ & ->)]; [split; reflexivity|].
    rewrite (last_value_new_files gd_entry gd_entry_key k md files Hk),
            (last_value_new_files gd_meta_entry gd_meta_entry_key k md files Hk).
    split; reflexivity.
Qed.

Lemma build_keeps_loaded_entries_witness :
  (exists extra,
     dict_keys (GD.image_features (GD.self (snd (Demo.gd_build_index Demo.gd_snapshot))))
     = dict_keys Demo.gd_index ++ extra)
  /\ forall k,
       dict_contains k Demo.gd_index_metadata = true ->
       dict_get k (GD.image_features (GD.self (snd (Demo.gd_build_index Demo.gd_snapshot))))
       = dict_get k Demo.gd_index
       /\ dict_get k (GD.image_metadata (GD.self (snd (Demo.gd_build_index Demo.gd_snapshot))))
          = dict_get k Demo.gd_index_metadata.
Proof.
  apply (build_keeps_loaded_entries _ Demo.cv2 Demo.skimage Demo.drive
           (Demo.pickle _) Demo.gd_snapshot Demo.gd_index Demo.gd_index_metadata).
  reflexivity.
Defined.

(** ** Building twice *)

Section DriveTwice.
Context {blob : Type} {CV : Cv2} {SK : Skimage} {DR : GD.Drive}
        {PK : Pickle GD.cached_data blob}.

(** After a build over a listing, the files of the listing that are still
    without metadata are those whose processing raises. *)
Lemma new_files_after_build (md : dict GD.metadata) (files : list GD.file) f :
  f ∈ GD.new_files_of
        (dict_set_all (omap gd_meta_entry (GD.new_files_of md files)) md) files ->
  f ∈ GD.new_files_of md files /\ gd_entry f = None /\ gd_meta_entry f = None.
Proof.
  unfold GD.new_files_of at 1. intros Hf.
  apply list_elem_of_In, List.filter_In in Hf as [Hin Hnot].
  apply negb_true_iff in Hnot.
  assert (Hmd : dict_contains (GD.id f) md = false).
  { destruct (dict_contains (GD.id f) md) eqn:Hc; [|reflexivity].
    assert (Hc' : dict_contains (GD.id f)
                    (dict_set_all (omap gd_meta_entry (GD.new_files_of md files)) md)
                  = true)
      by (apply dict_contains_set_all_keys; right; exact Hc).
    congruence. }
  assert (Hnew : f ∈ GD.new_files_of md files).
  { unfold GD.new_files_of. apply list_elem_of_In, List.filter_In.
    split; [exact Hin|]. rewrite Hmd. reflexivity. }
  split; [exact Hnew|].
  assert (Hnone : gd_meta_entry f = None).
  { destruct (gd_meta_entry f) as [kv|] eqn:Hm; [|reflexivity].
    assert (Hc' : dict_contains (GD.id f)
                    (dict_set_all (omap gd_meta_entry (GD.new_files_of md files)) md)
                  = true).
    { apply dict_contains_set_all_keys. left.
      apply list_elem_of_fmap. exists kv. split.
      - symmetry. apply (gd_meta_entry_key f kv Hm).
      - apply list_elem_of_omap. exists f. split; [exact Hnew | exact Hm]. }
    congruence. }
  split; [|exact Hnone].
  unfold gd_entry, gd_meta_entry in *.
  destruct (gd_extract (GD.id f)); [discriminate | reflexivity].
Qed.

(** A second build right after a build that returned: it returns, and the
    index in memory is what it was. *)
Lemma gd_build_index_twice (s : @GD.state blob) :
  pickle_round_trip PK ->
  fst (GD.build_index s) = Ok tt ->
  let s1 := snd (GD.build_index s) in
  fst (GD.build_index s1) = Ok tt
  /\ GD.image_features (GD.self (snd (GD.build_index s1)))
     = GD.image_features (GD.self s1)
  /\ GD.image_metadata (GD.self (snd (GD.build_index s1)))
     = GD.image_metadata (GD.self s1).
Proof.
  intros Hrt Hok s1.
  pose proof (gd_build_mirror s Hrt Hok) as Hmirror. cbv zeta in Hmirror.
  fold s1 in Hmirror.
  destruct (gd_build_index_frame s) as [Hfid Hw]. fold s1 in Hfid, Hw.
  (* the first build *)
  assert (H1 : exists feats md files,
             gd_loaded_index s = Ok (feats, md)
             /\ GD.drive_files_list (GD.folder_id (GD.self s)) = Ok files
             /\ (GD.new_files_of md files <> [] -> GD.writable (GD.env s) = true)).
  { rewrite gd_build_index_eq in Hok.
    destruct (gd_loaded_index s) as [[feats md]|e]; [|discriminate].
    destruct (GD.drive_files_list (GD.folder_id (GD.self s))) as [files|e];
      [|discriminate].
    exists feats, md, files. split; [reflexivity|]. split; [reflexivity|].
    intros Hne. unfold gd_build_from in Hok.
    destruct files as [|f files]; [contradiction Hne; reflexivity|].
    destruct (GD.new_files_of md (f :: files)) as [|n0 nf]; [contradiction|].
    cbn [gd_update GD.env GD.writable] in Hok.
    destruct (GD.writable (GD.env s)); [reflexivity | discriminate]. }
  destruct H1 as (feats & md & files & Hl & Hls & Hwrite).
  destruct (gd_build_index_index feats md files s Hl Hls) as [Hf1 Hm1].
  fold s1 in Hf1, Hm1.
  set (md1 := GD.image_metadata (GD.self s1)) in *.
  set (feats1 := GD.image_features (GD.self s1)) in *.
  assert (Hls1 : GD.drive_files_list (GD.folder_id (GD.self s1)) = Ok files)
    by (rewrite Hfid; exact Hls).
  assert (Hnone : omap gd_entry (GD.new_files_of md1 files) = []
                  /\ omap gd_meta_entry (GD.new_files_of md1 files) = []).
  { split; apply omap_all_none; apply Forall_forall; intros f Hf;
      rewrite Hm1 in Hf; apply new_files_after_build in Hf; apply Hf. }
  destruct Hnone as [Hne Hnm].
  destruct (gd_build_index_index feats1 md1 files s1 Hmirror Hls1) as [Hf2 Hm2].
  rewrite Hne in Hf2. rewrite Hnm in Hm2. split; [|split; assumption].
  rewrite gd_build_index_eq, Hmirror, Hls1. unfold gd_build_from.
  destruct files as [|f0 files]; [reflexivity|].
  destruct (GD.new_files_of md1 (f0 :: files)) as [|n0 nf] eqn:Hnf; [reflexivity|].
  cbn [gd_update GD.env GD.writable]. rewrite Hw, Hwrite; [reflexivity|].
  intros Hnil.
  assert (Hin : n0 ∈ GD.new_files_of md1 (f0 :: files))
    by (rewrite Hnf; left).
  rewrite Hm1 in Hin. apply new_files_after_build in Hin as [Hin _].
  rewrite Hnil in Hin. inversion Hin.
Qed.
End DriveTwice.

(** X16.  Building twice changes nothing.  In app.py a [build_index()]
    after a build that returned does nothing at all.  In searchAPP.py, with
    a pickle that reads back what it wrote and an unchanged folder, a
    [build_index()] after a build that returned returns too and leaves the
    features and the metadata as they were: only files that failed are
    processed again, and they fail again. *)
Theorem second_build_changes_nothing :
  (forall (blob : Type) (CV : Cv2) (SK : Skimage) (PK : Pickle (dict ndarray) blob)
          (os_listdir : string -> result (list string))
          (force_rebuild : bool) (s : @App.state blob),
      fst (App.build_index os_listdir force_rebuild s) = Ok tt ->
      let s1 := snd (App.build_index os_listdir force_rebuild s) in
      App.build_index os_listdir false s1 = (Ok tt, s1))
  /\
  (forall (blob : Type) (CV : Cv2) (SK : Skimage) (DR : GD.Drive)
          (PK : Pickle GD.cached_data blob) (s : @GD.state blob),
      pickle_round_trip PK ->
      fst (GD.build_index s) = Ok tt ->
      let s1 := snd (GD.build_index s) in
      fst (GD.build_index s1) = Ok tt
      /\ GD.image_features (GD.self (snd (GD.build_index s1)))
         = GD.image_features (GD.self s1)
      /\ GD.image_metadata (GD.self (snd (GD.build_index s1)))
         = GD.image_metadata (GD.self s1)).
Proof.
  split.
  - intros blob CV SK PK os_listdir force_rebuild s Hok s1.
    pose proof (app_build_index_indexed os_listdir force_rebuild s Hok) as Hi.
    fold s1 in Hi.
    destruct (app_build_index_cases os_listdir false s1)
      as [(_ & _ & H)|[(b & Hi' & _)|[Hf|[Hi' _]]]];
      [exact H | congruence | discriminate | congruence].
  - intros blob CV SK DR PK s. apply gd_build_index_twice.
Qed.

(** The theorem at the two demo engines before any call. *)
Lemma second_build_changes_nothing_witness :
  Demo.app_build_index false (snd (Demo.app_build_index true Demo.app_fresh))
  = (Ok tt, snd (Demo.app_build_index true Demo.app_fresh))
  /\ fst (Demo.gd_build_index (snd (Demo.gd_build_index Demo.gd_fresh))) = Ok tt
  /\ GD.image_features
       (GD.self (snd (Demo.gd_build_index (snd (Demo.gd_build_index Demo.gd_fresh)))))
     = GD.image_features (GD.self (snd (Demo.gd_build_index Demo.gd_fresh)))
  /\ GD.image_metadata
       (GD.self (snd (Demo.gd_build_index (snd (Demo.gd_build_index Demo.gd_fresh)))))
     = GD.image_metadata (GD.self (snd (Demo.gd_build_index Demo.gd_fresh))).
Proof.
  split.
  - pose proof (proj1 second_build_changes_nothing _ Demo.cv2 Demo.skimage
                  (Demo.pickle _) Demo.listdir true Demo.app_fresh eq_refl) as W.
    cbv zeta in W. exact W.
  - pose proof (proj2 second_build_changes_nothing _ Demo.cv2 Demo.skimage
                  Demo.drive (Demo.pickle _) Demo.gd_fresh
                  (demo_pickle_round_trip _) eq_refl) as W.
    cbv zeta in W. exact W.
Defined.

(** ** [build_index] before [search] *)

(** X17.  In app.py a call of [build_index()] before [search], as the
    page makes it (lines 105-106), changes nothing: [search] alone gives the
    same outcome and leaves the same state. *)
Theorem explicit_build_before_search_is_redundant
    (blob : Type) (CV : Cv2) (SK : Skimage) (PK : Pickle (dict ndarray) blob)
    (os_listdir : string -> result (list string))
    (path : string) (t : pyfloat) (n : Z) (s : @App.state blob) :
  (App.build_index os_listdir false ;;; App.search os_listdir path t n) s
  = App.search os_listdir path t n s.
Proof.
  unfold bind at 1.
  destruct (App.is_indexed (App.self s)) eqn:Hi.
  - destruct (app_build_index_cases os_listdir false s)
      as [(_ & _ & ->)|[(b & Hi' & _)|[Hf|[Hi' _]]]];
      [reflexivity | congruence | discriminate | congruence].
  - unfold App.search at 2. unfold bind at 1. unfold get at 1.
    rewrite Hi. unfold bind at 1.
    destruct (App.build_index os_listdir false s) as [[[]|e] s1] eqn:Hb;
      [|reflexivity].
    pose proof (app_build_index_indexed os_listdir false s) as Hi1.
    rewrite Hb in Hi1. specialize (Hi1 eq_refl). cbn [snd] in Hi1.
    unfold App.search, bind at 1, get at 1. rewrite Hi1.
    unfold bind at 1, ret at 1. reflexivity.
Qed.

(** ** When the Drive engine counts as indexed *)

(** X18.  In searchAPP.py [build_index] marks the engine as indexed
    exactly when it returns over a listing that is not empty.  Over an
    empty listing it returns without the mark, and when it raises the mark
    is as before; so a [search] on an engine that was never indexed, over an
    empty folder, leaves the engine not indexed, and the next [search] lists
    the folder again. *)
Theorem drive_indexed_only_over_files
    (blob : Type) (CV : Cv2) (SK : Skimage) (DR : GD.Drive)
    (PK : Pickle GD.cached_data blob) (s : @GD.state blob) :
  (forall files,
     GD.drive_files_list (GD.folder_id (GD.self s)) = Ok files -> files <> [] ->
     fst (GD.build_index s) = Ok tt ->
     GD.is_indexed (GD.self (snd (GD.build_index s))) = true)
  /\ (forall e, fst (GD.build_index s) = Raise e ->
        GD.is_indexed (GD.self (snd (GD.build_index s))) = GD.is_indexed (GD.self s))
  /\ (GD.drive_files_list (GD.folder_id (GD.self s)) = Ok [] ->
      (forall e, gd_loaded_index s <> Raise e) ->
      fst (GD.build_index s) = Ok tt
      /\ GD.is_indexed (GD.self (snd (GD.build_index s))) = GD.is_indexed (GD.self s)
      /\ forall query t n,
           GD.is_indexed (GD.self s) = false ->
           GD.is_indexed (GD.self (snd (GD.search query t n s))) = false).
Proof.
  split; [|split].
  - intros files Hls Hne. rewrite gd_build_index_eq, Hls.
    destruct (gd_loaded_index s) as [[feats md]|e]; [|discriminate].
    unfold gd_build_from. destruct files as [|f files]; [contradiction|].
    destruct (GD.new_files_of md (f :: files)) as [|n0 nf]; [reflexivity|].
    cbn [gd_update GD.env GD.writable].
    destruct (GD.writable (GD.env s)); [reflexivity | discriminate].
  - intros e. rewrite gd_build_index_eq.
    destruct (gd_loaded_index s) as [[feats md]|e0]; [|reflexivity].
    destruct (GD.drive_files_list (GD.folder_id (GD.self s))) as [files|e0];
      [|reflexivity].
    unfold gd_build_from. destruct files as [|f files]; [discriminate|].
    destruct (GD.new_files_of md (f :: files)) as [|n0 nf]; [discriminate|].
    cbn [gd_update GD.env GD.writable].
    destruct (GD.writable (GD.env s)); [discriminate | reflexivity].
  - intros Hls Hload.
    assert (Hb : fst (GD.build_index s) = Ok tt
                 /\ GD.is_indexed (GD.self (snd (GD.build_index s)))
                    = GD.is_indexed (GD.self s)).
    { rewrite gd_build_index_eq, Hls.
      destruct (gd_loaded_index s) as [[feats md]|e];
        [split; reflexivity | exfalso; apply (Hload e); reflexivity]. }
    destruct Hb as [Hok Hidx]. split; [exact Hok|]. split; [exact Hidx|].
    intros query t n Hi.
    destruct (gd_search_state query t n s) as (msgs & s1 & Hs1 & ->).
    cbn [gd_printed GD.self]. destruct Hs1 as [->| ->]; congruence.
Qed.

Lemma drive_indexed_only_over_files_witness :
  GD.is_indexed (GD.self (snd (Demo.gd_build_index Demo.gd_fresh))) = true.
Proof.
  apply (proj1 (drive_indexed_only_over_files _ Demo.cv2 Demo.skimage Demo.drive
                  (Demo.pickle _) Demo.gd_fresh) Demo.folder eq_refl).
  - discriminate.
  - reflexivity.
Defined.

(** ** What a rebuild of the local index holds *)

Section AppRebuildKeys.
Context {blob : Type} {CV : Cv2} {SK : Skimage} {PK : Pickle (dict ndarray) blob}.

Lemma app_entry_Some dir n kv :
  app_entry dir n = Some kv
  <-> is_image n = true /\ kv.1 = os_path_join dir n /\ app_extract kv.1 = Ok kv.2.
Proof.
  unfold app_entry. destruct kv as [k a]. cbn [fst snd]. split.
  - destruct (is_image n); [|discriminate].
    destruct (app_extract (os_path_join dir n)) as [a0|] eqn:He; [|discriminate].
    intros H. inversion H; subst. auto.
  - intros (-> & -> & ->). reflexivity.
Qed.

(** The value of a path in the entries of a listing. *)
Lemma last_value_app_entries dir names p a :
  last_value p (omap (app_entry dir) names) = Some a
  <-> exists n, n ∈ names /\ is_image n = true
                /\ p = os_path_join dir n /\ app_extract p = Ok a.
Proof.
  split.
  - intros H. apply last_value_elem in H.
    apply list_elem_of_omap in H as (n & Hn & He).
    apply app_entry_Some in He as (Hi & Hp & Ha). cbn [fst snd] in *. eauto.
  - intros (n & Hn & Hi & Hp & Ha).
    assert (Hsome : is_Some (last_value p (omap (app_entry dir) names))).
    { apply last_value_is_Some. apply list_elem_of_fmap. exists (p, a).
      split; [reflexivity|]. apply list_elem_of_omap. exists n.
      split; [exact Hn|]. apply app_entry_Some. auto. }
    destruct Hsome as [a' Ha']. rewrite Ha'. f_equal.
    apply last_value_elem in Ha'.
    apply list_elem_of_omap in Ha' as (n' & _ & He).
    apply app_entry_Some in He as (_ & _ & Ha''). cbn [fst snd] in Ha''. congruence.
Qed.
End AppRebuildKeys.

(** X19.  In app.py a build that goes through the directory (forced, or
    the first one without an index file) leaves in memory exactly the images
    of the listing that can be read: a path has the feature [a] if and only
    if it is the path of a listed file name with an image suffix whose
    preprocessing gives [a].  Entries for files that have left the directory
    are gone. *)
Theorem rebuild_indexes_the_readable_images
    (blob : Type) (CV : Cv2) (SK : Skimage) (PK : Pickle (dict ndarray) blob)
    (os_listdir : string -> result (list string))
    (force_rebuild : bool) (s : @App.state blob) names p a :
  app_rebuilds force_rebuild s ->
  os_listdir (App.image_directory (App.self s)) = Ok names ->
  dict_get p (App.image_features
                (App.self (snd (App.build_index os_listdir force_rebuild s)))) = Some a
  <-> exists n, n ∈ names /\ is_image n = true
                /\ p = os_path_join (App.image_directory (App.self s)) n
                /\ app_extract p = Ok a.
Proof.
  intros Hre Hls. rewrite (app_build_index_rebuild_eq _ _ _ Hre), Hls.
  rewrite <- last_value_app_entries.
  assert (Hf : App.image_features
                 (App.self (snd (if App.writable (App.env s)
                                 then (Ok tt, app_rebuilt names s)
                                 else (Raise (mk_exn "PermissionError" "image_index.pkl"),
                                       app_indexed names (app_cleared s)))))
               = dict_set_all (omap (app_entry (App.image_directory (App.self s))) names) [])
    by (destruct (App.writable (App.env s)); reflexivity).
  rewrite Hf, dict_get_set_all.
  destruct (last_value p _); [reflexivity|]. split; discriminate.
Qed.

(** ** The query of the Drive engine *)

(** X20.  In searchAPP.py the array that [preprocess_pil_image] makes of
    an 8-bit query image with two dimensions or with three channels is in
    the canonical form of the stored features. *)
Theorem pil_query_is_canonical (CV : Cv2) (img_array r : ndarray) :
  Cv2_contract CV -> Cv2_swap_contract CV ->
  nd_dtype img_array = uint8 ->
  (exists h w, nd_shape img_array = [h; w] \/ nd_shape img_array = [h; w; 3%nat]) ->
  gd_extract_pil img_array = Ok r ->
  canonical r.
Proof.
  intros Hc Hswap Hdt (h & w & [Hsh|Hsh]) Hr; unfold gd_extract_pil in Hr;
    rewrite Hsh in Hr.
  - rewrite Hsh in Hr. cbn in Hr.
    destruct (resize_shape CV Hc img_array 256%nat 256%nat r h w Hr Hsh) as [Hs Hd].
    split; [exact Hs|]. rewrite Hd, Hdt. reflexivity.
  - destruct (cv2_cvtColor img_array COLOR_RGB2BGR) as [img|e] eqn:Hsw; [|discriminate].
    destruct (Hswap img_array img h w Hsw Hsh) as [Hs1 Hd1].
    rewrite Hs1 in Hr. cbn in Hr.
    destruct (cv2_cvtColor img COLOR_BGR2GRAY) as [gray|e] eqn:Hg; [|discriminate].
    destruct (cvtColor_gray CV Hc img gray h w Hg Hs1) as [Hs2 Hd2].
    destruct (resize_shape CV Hc gray 256%nat 256%nat r h w Hr Hs2) as [Hs Hd].
    split; [exact Hs|]. rewrite Hd, Hd2, Hd1, Hdt. reflexivity.
Qed.

(** The theorem on the snapshot with an entry for a file that has left the
    directory: after a forced rebuild the path of that file has no
    feature. *)
Lemma rebuild_indexes_the_readable_images_witness :
  dict_get "imgs/old.png"
    (App.image_features (App.self (snd (Demo.app_build_index true Demo.app_snapshot))))
  = Some (Demo.flat 10)
  <-> exists n, n ∈ ["a.png"; "b.JPG"; "notes.txt"; "bad.png"; "c.png"]
                /\ is_image n = true
                /\ "imgs/old.png" = os_path_join "imgs" n
                /\ app_extract (CV := Demo.cv2) "imgs/old.png" = Ok (Demo.flat 10).
Proof.
  apply (rebuild_indexes_the_readable_images _ Demo.cv2 Demo.skimage (Demo.pickle _)
           Demo.listdir true Demo.app_snapshot
           ["a.png"; "b.JPG"; "notes.txt"; "bad.png"; "c.png"] "imgs/old.png"
           (Demo.flat 10)).
  - left. reflexivity.
  - reflexivity.
Defined.

Lemma demo_cv2_swap_contract : Cv2_swap_contract Demo.cv2.
Proof.
  intros a b h w Hb Hs. cbn in Hb. unfold Demo.cvtColor in Hb. rewrite Hs in Hb.
  inversion Hb; subst. auto.
Qed.

(** The theorem on a one-pixel colour query. *)
Lemma pil_query_is_canonical_witness :
  exists r,
    gd_extract_pil (CV := Demo.cv2)
      {| nd_dtype := uint8; nd_shape := [1; 1; 3]%nat; nd_data := [10; 20; 30]%Z |}
    = Ok r
    /\ canonical r.
Proof.
  eexists. split; [reflexivity|].
  apply (pil_query_is_canonical Demo.cv2
           {| nd_dtype := uint8; nd_shape := [1; 1; 3]%nat; nd_data := [10; 20; 30]%Z |}
           _ demo_cv2_contract demo_cv2_swap_contract eq_refl
           (ex_intro _ 1%nat (ex_intro _ 1%nat (or_intror eq_refl)))).
  reflexivity.
Defined.

(** ** The exceptions that get out *)

(** X21.  What [search] raises: in both engines an exception of [search]
    is an exception of the build that it runs on an engine that is not
    indexed, or of the preprocessing of the query; a comparison that raises
    never gets out. *)
Theorem search_raises_from_build_or_query :
  (forall (blob : Type) (CV : Cv2) (SK : Skimage) (PK : Pickle (dict ndarray) blob)
          (os_listdir : string -> result (list string))
          (path : string) (t : pyfloat) (n : Z) (s : @App.state blob) e,
      fst (App.search os_listdir path t n s) = Raise e ->
      (App.is_indexed (App.self s) = false
       /\ fst (App.build_index os_listdir false s) = Raise e)
      \/ app_extract path = Raise e)
  /\
  (forall (blob : Type) (CV : Cv2) (SK : Skimage) (DR : GD.Drive)
          (PK : Pickle GD.cached_data blob)
          (query : GD.query_image) (t : pyfloat) (n : Z) (s : @GD.state blob) e,
      fst (GD.search query t n s) = Raise e ->
      (GD.is_indexed (GD.self s) = false /\ fst (GD.build_index s) = Raise e)
      \/ gd_query query = Raise e).
Proof.
  split.
  - intros blob CV SK PK os_listdir path t n s e.
    destruct (App.is_indexed (App.self s)) eqn:Hi.
    + rewrite (app_search_from _ _ _ _ _ Hi).
      destruct (app_extract path) as [q|e0]; [discriminate|].
      intros H. injection H as ->. right. reflexivity.
    + unfold App.search, bind, get. rewrite Hi.
      destruct (App.build_index os_listdir false s) as [[[]|e0] s1] eqn:Hb.
      * rewrite app_preprocess_image. destruct (app_extract path) as [q|e1].
        -- unfold dict_items. rewrite app_search_loop. discriminate.
        -- intros H. injection H as ->. right. reflexivity.
      * intros H. injection H as ->. left. split; reflexivity.
  - intros blob CV SK DR PK query t n s e.
    destruct (GD.is_indexed (GD.self s)) eqn:Hi.
    + rewrite (gd_search_from _ _ _ _ Hi).
      destruct (gd_query query) as [q|e0]; [discriminate|].
      intros H. injection H as ->. right. reflexivity.
    + unfold GD.search, bind, get. rewrite Hi.
      destruct (GD.build_index s) as [[[]|e0] s1] eqn:Hb.
      * rewrite gd_preprocess_query. destruct (gd_query query) as [q|e1].
        -- unfold dict_items. rewrite gd_search_loop. discriminate.
        -- intros H. injection H as ->. right. reflexivity.
      * intros H. injection H as ->. left. split; reflexivity.
Qed.

(** X22.  What [build_index] raises: in both engines an exception of
    [build_index] is the one of unpickling the index file, the one of the
    listing, or the [PermissionError] of an index file that cannot be
    written; the processing of a file never raises out of the build. *)
Theorem build_raises_from_load_listing_or_write :
  (forall (blob : Type) (CV : Cv2) (SK : Skimage) (PK : Pickle (dict ndarray) blob)
          (os_listdir : string -> result (list string))
          (force_rebuild : bool) (s : @App.state blob) e,
      fst (App.build_index os_listdir force_rebuild s) = Raise e ->
      (force_rebuild = false
       /\ exists b, App.index_file (App.env s) = Some b /\ pickle_loads b = Raise e)
      \/ os_listdir (App.image_directory (App.self s)) = Raise e
      \/ (App.writable (App.env s) = false
          /\ e = mk_exn "PermissionError" "image_index.pkl"))
  /\
  (forall (blob : Type) (CV : Cv2) (SK : Skimage) (DR : GD.Drive)
          (PK : Pickle GD.cached_data blob) (s : @GD.state blob) e,
      fst (GD.build_index s) = Raise e ->
      gd_loaded_index s = Raise e
      \/ GD.drive_files_list (GD.folder_id (GD.self s)) = Raise e
      \/ (GD.writable (GD.env s) = false
          /\ e = mk_exn "PermissionError" "gdrive_index_cache.pkl")).
Proof.
  split.
  - intros blob CV SK PK os_listdir force_rebuild s e.
    destruct (app_build_index_cases os_listdir force_rebuild s)
      as [(_ & _ & ->)|[(b & Hi & -> & Hb)|Hre]].
    + discriminate.
    + rewrite (app_build_index_load _ _ _ Hi Hb).
      destruct (pickle_loads b) as [d|e0] eqn:Hl; [discriminate|].
      intros H. inversion H; subst. left. split; [reflexivity|]. eauto.
    + rewrite (app_build_index_rebuild_eq _ _ _ Hre).
      destruct (os_listdir (App.image_directory (App.self s))) as [names|e0].
      * destruct (App.writable (App.env s)); [discriminate|].
        intros H. inversion H; subst. right. right. auto.
      * intros H. inversion H; subst. right. left. reflexivity.
  - intros blob CV SK DR PK s e. rewrite gd_build_index_eq.
    destruct (gd_loaded_index s) as [[feats md]|e0].
    + destruct (GD.drive_files_list (GD.folder_id (GD.self s))) as [files|e0].
      * unfold gd_build_from. destruct files as [|f files]; [discriminate|].
        destruct (GD.new_files_of md (f :: files)) as [|n0 nf]; [discriminate|].
        cbn [gd_update GD.env GD.writable].
        destruct (GD.writable (GD.env s)); [discriminate|].
        intros H. inversion H; subst. right. right. auto.
      * intros H. inversion H; subst. right. left. reflexivity.
    + intros H. inversion H; subst. left. reflexivity.
Qed.

(** The two theorems at the demo engines: a query file that is no image on
    the rebuilt local engine, and the engines that find an index file that
    does not unpickle. *)
Lemma search_raises_from_build_or_query_witness :
  ((App.is_indexed (App.self Demo.app_built) = false
    /\ fst (Demo.app_build_index false Demo.app_built)
       = Raise (mk_exn "ValueError" "Could not read image: imgs/bad.png"))
   \/ app_extract (CV := Demo.cv2) "imgs/bad.png"
      = Raise (mk_exn "ValueError" "Could not read image: imgs/bad.png"))
  /\ ((GD.is_indexed (GD.self Demo.gd_corrupt) = false
       /\ fst (Demo.gd_build_index Demo.gd_corrupt)
          = Raise (mk_exn "UnpicklingError" "invalid load key"))
      \/ gd_query (CV := Demo.cv2) (GD.Array (Demo.flat 10))
         = Raise (mk_exn "UnpicklingError" "invalid load key")).
Proof.
  split.
  - apply (proj1 search_raises_from_build_or_query _ Demo.cv2 Demo.skimage
             (Demo.pickle _) Demo.listdir "imgs/bad.png" (F_fin (1 # 5)) 3%Z
             Demo.app_built).
    reflexivity.
  - apply (proj2 search_raises_from_build_or_query _ Demo.cv2 Demo.skimage
             Demo.drive (Demo.pickle _) (GD.Array (Demo.flat 10)) (F_fin (1 # 5)) 3%Z
             Demo.gd_corrupt).
    reflexivity.
Defined.

Lemma build_raises_from_load_listing_or_write_witness :
  ((false = false
    /\ exists b, App.index_file (App.env Demo.app_corrupt) = Some b
                 /\ pickle_loads (Pickle := Demo.pickle _) b
                    = Raise (mk_exn "UnpicklingError" "invalid load key"))
   \/ Demo.listdir (App.image_directory (App.self Demo.app_corrupt))
      = Raise (mk_exn "UnpicklingError" "invalid load key")
   \/ (App.writable (App.env Demo.app_corrupt) = false
       /\ mk_exn "UnpicklingError" "invalid load key"
          = mk_exn "PermissionError" "image_index.pkl"))
  /\ (gd_loaded_index (PK := Demo.pickle _) Demo.gd_corrupt
      = Raise (mk_exn "UnpicklingError" "invalid load key")
      \/ GD.drive_files_list (Drive := Demo.drive) (GD.folder_id (GD.self Demo.gd_corrupt))
         = Raise (mk_exn "UnpicklingError" "invalid load key")
      \/ (GD.writable (GD.env Demo.gd_corrupt) = false
          /\ mk_exn "UnpicklingError" "invalid load key"
             = mk_exn "PermissionError" "gdrive_index_cache.pkl")).
Proof.
  split.
  - apply (proj1 build_raises_from_load_listing_or_write _ Demo.cv2 Demo.skimage
             (Demo.pickle _) Demo.listdir false Demo.app_corrupt).
    reflexivity.
  - apply (proj2 build_raises_from_load_listing_or_write _ Demo.cv2 Demo.skimage
             Demo.drive (Demo.pickle _) Demo.gd_corrupt).
    reflexivity.
Defined.

(** ** The index file and the directory *)

(** X23.  In app.py, on an engine that is indexed or that finds an index
    file, [search] does not look at the image directory: whatever the
    listing gives, the outcome and the state are the same.  Files added to
    or removed from the directory are not seen until a forced rebuild. *)
Theorem search_with_index_file_ignores_directory
    (blob : Type) (CV : Cv2) (SK : Skimage) (PK : Pickle (dict ndarray) blob)
    (listdir1 listdir2 : string -> result (list string))
    (path : string) (t : pyfloat) (n : Z) (s : @App.state blob) :
  App.is_indexed (App.self s) = true \/ is_Some (App.index_file (App.env s)) ->
  App.search listdir1 path t n s = App.search listdir2 path t n s.
Proof.
  intros H. destruct (App.is_indexed (App.self s)) eqn:Hi.
  - rewrite !(app_search_from _ _ _ _ _ Hi). reflexivity.
  - destruct H as [H|[b Hb]]; [discriminate|].
    unfold App.search, bind, get. rewrite Hi.
    rewrite !(app_build_index_load _ _ _ Hi Hb). reflexivity.
Qed.

Lemma search_with_index_file_ignores_directory_witness :
  Demo.app_search "imgs/a.png" (F_fin (1 # 5)) 3 Demo.app_snapshot
  = App.search (CV := Demo.cv2) (SK := Demo.skimage) (PK := Demo.pickle _)
      (fun _ => Ok []) "imgs/a.png" (F_fin (1 # 5)) 3 Demo.app_snapshot.
Proof.
  apply (search_with_index_file_ignores_directory _ Demo.cv2 Demo.skimage
           (Demo.pickle _) Demo.listdir (fun _ => Ok []) "imgs/a.png"
           (F_fin (1 # 5)) 3%Z Demo.app_snapshot).
  right. eexists. reflexivity.
Defined.

(** ** A query that cannot be read *)

(** X24.  In app.py [search] for a query path that OpenCV cannot read
    raises [ValueError] with the path in its message, after the index step,
    without a comparison and without a change to the engine. *)
Theorem unreadable_query_raises_value_error
    (blob : Type) (CV : Cv2) (SK : Skimage) (PK : Pickle (dict ndarray) blob)
    (os_listdir : string -> result (list string))
    (path : string) (t : pyfloat) (n : Z) (s : @App.state blob) :
  cv2_imread path = None ->
  (App.build_index os_listdir false ;;; App.search os_listdir path t n) s
  = match App.build_index os_listdir false s with
    | (Ok _, s1) =>
        (Raise (mk_exn "ValueError" ("Could not read image: " ++ path)), s1)
    | (Raise e, s1) => (Raise e, s1)
    end.
Proof.
  intros Hread. unfold bind at 1.
  destruct (App.build_index os_listdir false s) as [[[]|e] s1] eqn:Hb; [|reflexivity].
  pose proof (app_build_index_indexed os_listdir false s) as Hi.
  rewrite Hb in Hi. specialize (Hi eq_refl). cbn [snd] in Hi.
  rewrite (app_search_from _ _ _ _ _ Hi). unfold app_extract. rewrite Hread.
  reflexivity.
Qed.

Lemma unreadable_query_raises_value_error_witness :
  (Demo.app_build_index false ;;; Demo.app_search "imgs/notes.txt" (F_fin (1 # 5)) 3)
    Demo.app_built
  = match Demo.app_build_index false Demo.app_built with
    | (Ok _, s1) =>
        (Raise (mk_exn "ValueError" ("Could not read image: " ++ "imgs/notes.txt")), s1)
    | (Raise e, s1) => (Raise e, s1)
    end.
Proof.
  apply (unreadable_query_raises_value_error _ Demo.cv2 Demo.skimage (Demo.pickle _)
           Demo.listdir "imgs/notes.txt" (F_fin (1 # 5)) 3%Z Demo.app_built).
  reflexivity.
Defined.

(** ** A forced rebuild and the index file *)

(** X26.  In app.py a forced rebuild does not read the index file: from
    two states that differ in the content of the index file only (one may
    hold bytes that do not unpickle), with a directory that can be listed
    and a file that can be written, [build_index(force_rebuild=True)]
    returns and ends in the same state, whose index file holds the new
    index. *)
Theorem forced_rebuild_replaces_any_index_file
    (blob : Type) (CV : Cv2) (SK : Skimage) (PK : Pickle (dict ndarray) blob)
    (os_listdir : string -> result (list string))
    (s1 s2 : @App.state blob) names :
  App.self s1 = App.self s2 ->
  App.stdout (App.env s1) = App.stdout (App.env s2) ->
  App.writable (App.env s1) = true ->
  App.writable (App.env s2) = true ->
  os_listdir (App.image_directory (App.self s1)) = Ok names ->
  App.build_index os_listdir true s1 = App.build_index os_listdir true s2
  /\ fst (App.build_index os_listdir true s1) = Ok tt
  /\ App.index_file (App.env (snd (App.build_index os_listdir true s1)))
     = Some (pickle_dumps
               (App.image_features
                  (App.self (snd (App.build_index os_listdir true s1))))).
Proof.
  intros Hself Hout Hw1 Hw2 Hls.
  assert (Hls2 : os_listdir (App.image_directory (App.self s2)) = Ok names)
    by (rewrite <- Hself; exact Hls).
  rewrite (app_build_index_rebuild os_listdir true names s1 (or_introl eq_refl) Hls Hw1).
  rewrite (app_build_index_rebuild os_listdir true names s2 (or_introl eq_refl) Hls2 Hw2).
  unfold app_rebuilt. rewrite Hself, Hout. auto.
Qed.

Lemma forced_rebuild_replaces_any_index_file_witness :
  Demo.app_build_index true Demo.app_corrupt
  = Demo.app_build_index true Demo.app_snapshot
  /\ fst (Demo.app_build_index true Demo.app_corrupt) = Ok tt
  /\ App.index_file (App.env (snd (Demo.app_build_index true Demo.app_corrupt)))
     = Some (pickle_dumps (Pickle := Demo.pickle _)
               (App.image_features
                  (App.self (snd (Demo.app_build_index true Demo.app_corrupt))))).
Proof.
  apply (forced_rebuild_replaces_any_index_file _ Demo.cv2 Demo.skimage
           (Demo.pickle _) Demo.listdir Demo.app_corrupt Demo.app_snapshot
           ["a.png"; "b.JPG"; "notes.txt"; "bad.png"; "c.png"]);
    reflexivity.
Defined.

(** * Properties from every state of the engine

    What a failing item does to [build_index] over a loaded cache and to
    [search], what [search] returns when nothing is found, and what it
    returns for limits below one, from states that are indexed or not. *)

(** ** [search] after its index step *)

Section AppStep.
Context {blob : Type} {CV : Cv2} {SK : Skimage} {PK : Pickle (dict ndarray) blob}.
Context (os_listdir : string -> result (list string)).

(** [search] from any state: the index step, the preprocessing of the
    query, the ranking of the index that the step left. *)
Lemma app_search_step path t limit (s : @App.state blob) :
  App.search os_listdir path t limit s
  = match app_index_step os_listdir s with
    | (Ok _, s1) =>
        match app_extract path with
        | Ok q =>
            (Ok (rank q t limit (App.image_features (App.self s1))),
             app_printed (scan_errors q (App.image_features (App.self s1))) s1)
        | Raise e => (Raise e, s1)
        end
    | (Raise e, s1) => (Raise e, s1)
    end.
Proof.
  unfold App.search, app_index_step. unfold bind at 1. unfold get at 1.
  unfold bind at 1.
  destruct (App.is_indexed (App.self s)).
  - unfold ret at 1. unfold bind at 1. rewrite app_preprocess_image.
    destruct (app_extract path) as [q|e]; [|reflexivity].
    unfold bind, get, dict_items. rewrite app_search_loop. reflexivity.
  - destruct (App.build_index os_listdir false s) as [[[]|e] s1]; [|reflexivity].
    unfold bind at 1. rewrite app_preprocess_image.
    destruct (app_extract path) as [q|e0]; [|reflexivity].
    unfold bind, get, dict_items. rewrite app_search_loop. reflexivity.
Qed.
End AppStep.

Section DriveStep.
Context {blob : Type} {CV : Cv2} {SK : Skimage} {DR : GD.Drive}
        {PK : Pickle GD.cached_data blob}.

Lemma gd_search_step query t limit (s : @GD.state blob) :
  GD.search query t limit s
  = match gd_index_step s with
    | (Ok _, s1) =>
        match gd_query query with
        | Ok q =>
            (Ok (rank q t limit (GD.image_features (GD.self s1))),
             gd_printed (scan_errors q (GD.image_features (GD.self s1))) s1)
        | Raise e => (Raise e, s1)
        end
    | (Raise e, s1) => (Raise e, s1)
    end.
Proof.
  unfold GD.search, gd_index_step. unfold bind at 1. unfold get at 1.
  unfold bind at 1.
  destruct (GD.is_indexed (GD.self s)).
  - unfold ret at 1. unfold bind at 1. rewrite gd_preprocess_query.
    destruct (gd_query query) as [q|e]; [|reflexivity].
    unfold bind, get, dict_items. rewrite gd_search_loop. reflexivity.
  - destruct (GD.build_index s) as [[[]|e] s1]; [|reflexivity].
    unfold bind at 1. rewrite gd_preprocess_query.
    destruct (gd_query query) as [q|e0]; [|reflexivity].
    unfold bind, get, dict_items. rewrite gd_search_loop. reflexivity.
Qed.
End DriveStep.

(** ** Scans with given scores *)

Section ScanScores.
Context {SK : Skimage}.

(** An entry whose comparison raises adds nothing to the candidates. *)
Lemma scan_skip q t l1 k img l2 e :
  ssim q img = Raise e ->
  scan q t (l1 ++ (k, img) :: l2) = scan q t (l1 ++ l2).
Proof.
  intros He. unfold scan. rewrite !omap_app, omap_cons.
  unfold scan_one at 2. cbn [snd]. rewrite He. reflexivity.
Qed.

(** The candidates when every comparison succeeds. *)
Lemma scan_scores q t items scores :
  scores_of q items scores -> scan q t items = passing t items.*1 scores.
Proof.
  unfold scores_of, passing, scan.
  induction 1 as [|[k img] sc items scores Hsc _ IH]; [reflexivity|].
  rewrite omap_cons, fmap_cons. cbn [fst zip zip_with List.filter].
  unfold scan_one at 1. cbn [fst snd] in *. rewrite Hsc, IH.
  destruct (float_ge sc t); reflexivity.
Qed.

Lemma scan_errors_scores q items scores :
  scores_of q items scores -> scan_errors q items = [].
Proof.
  unfold scores_of, scan_errors.
  induction 1 as [|[k img] sc items scores Hsc _ IH]; [reflexivity|].
  rewrite omap_cons. unfold scan_error_one at 1. cbn [snd] in *.
  rewrite Hsc. exact IH.
Qed.

(** The one line printed when one comparison raises and the others
    succeed. *)
Lemma scan_errors_one_bad q l1 k img l2 e scores :
  ssim q img = Raise e ->
  scores_of q (l1 ++ l2) scores ->
  scan_errors q (l1 ++ (k, img) :: l2)
  = [("Error comparing with " ++ k ++ ": " ++ exn_str e)%string].
Proof.
  intros He Hsc. unfold scores_of in Hsc.
  apply Forall2_app_inv_l in Hsc as (sc1 & sc2 & H1 & H2 & _).
  unfold scan_errors. rewrite omap_app, omap_cons.
  unfold scan_error_one at 2. cbn [fst snd]. rewrite He.
  change (omap (scan_error_one q) l1) with (scan_errors q l1).
  change (omap (scan_error_one q) l2) with (scan_errors q l2).
  rewrite (scan_errors_scores q l1 sc1 H1), (scan_errors_scores q l2 sc2 H2).
  reflexivity.
Qed.

Lemma scan_length q t items : (length (scan q t items) <= length items)%nat.
Proof.
  unfold scan. induction items as [|item items IH]; [reflexivity|].
  rewrite omap_cons. destruct (scan_one q t item); simpl; lia.
Qed.
End ScanScores.

(** ** A build over a loaded cache *)

Lemma dict_len_set_all_fresh {V : Type} (items : list (string * V)) (d : dict V) :
  NoDup items.*1 ->
  (forall k, k ∈ items.*1 -> dict_contains k d = false) ->
  dict_len (dict_set_all items d) = (dict_len d + length items)%nat.
Proof.
  unfold dict_set_all. revert d.
  induction items as [|[k v] items IH]; intros d Hnd Hfresh.
  - simpl. unfold dict_len. lia.
  - rewrite fmap_cons in Hnd. apply NoDup_cons in Hnd as [Hk Hnd].
    cbn [foldl fst snd]. rewrite IH.
    + unfold dict_len.
      assert (Hlen : length (dict_set k v d) = S (length d)).
      { pose proof (dict_keys_set k v d) as Hkeys.
        rewrite (Hfresh k) in Hkeys by (rewrite fmap_cons; left).
        apply (f_equal length) in Hkeys. unfold dict_keys in Hkeys.
        rewrite length_app, !length_fmap in Hkeys. simpl in Hkeys. lia. }
      rewrite Hlen. simpl. lia.
    + exact Hnd.
    + intros k' Hk'.
      destruct (dict_contains k' (dict_set k v d)) eqn:Hc; [|reflexivity].
      apply dict_contains_keys in Hc. rewrite dict_keys_set in Hc.
      rewrite (Hfresh k) in Hc by (rewrite fmap_cons; left).
      apply elem_of_app in Hc as [Hc|Hc].
      * apply dict_contains_keys in Hc.
        rewrite (Hfresh k') in Hc by (rewrite fmap_cons; right; exact Hk').
        discriminate.
      * apply list_elem_of_singleton in Hc. subst k'. contradiction.
Qed.

Section DriveMerge.
Context {blob : Type} {CV : Cv2} {SK : Skimage} {DR : GD.Drive}
        {PK : Pickle GD.cached_data blob}.

(** [build_index] when the cache loads, the listing has new files and the
    cache file can be written. *)
Lemma gd_build_index_new feats md files (s : @GD.state blob) :
  gd_loaded_index s = Ok (feats, md) ->
  GD.drive_files_list (GD.folder_id (GD.self s)) = Ok files ->
  GD.new_files_of md files <> [] ->
  GD.writable (GD.env s) = true ->
  GD.build_index s = (Ok tt, gd_built feats md (GD.new_files_of md files) s).
Proof.
  intros Hl Hls Hne Hw. rewrite gd_build_index_eq, Hl, Hls. unfold gd_build_from.
  destruct files as [|f files]; [contradiction Hne; reflexivity|].
  destruct (GD.new_files_of md (f :: files)) as [|n0 nf]; [contradiction|].
  rewrite Hw. reflexivity.
Qed.

(** The value of an identifier in the entries of a list of files. *)
Lemma last_value_gd_entries (nf : list GD.file) k a :
  last_value k (omap gd_entry nf) = Some a
  <-> exists f, f ∈ nf /\ GD.id f = k /\ gd_extract k = Ok a.
Proof.
  assert (Hentry : forall f kv, gd_entry f = Some kv
                     <-> kv.1 = GD.id f /\ gd_extract kv.1 = Ok kv.2).
  { intros f [k' a']. unfold gd_entry. cbn [fst snd]. split.
    - destruct (gd_extract (GD.id f)) as [a0|] eqn:He; [|discriminate].
      intros H. inversion H; subst. auto.
    - intros [-> ->]. reflexivity. }
  split.
  - intros H. apply last_value_elem in H.
    apply list_elem_of_omap in H as (f & Hf & He).
    apply Hentry in He as [Hk Ha]. cbn [fst snd] in *. eauto.
  - intros (f & Hf & Hk & Ha).
    assert (Hsome : is_Some (last_value k (omap gd_entry nf))).
    { apply last_value_is_Some. apply list_elem_of_fmap. exists (k, a).
      split; [reflexivity|]. apply list_elem_of_omap. exists f.
      split; [exact Hf|]. apply Hentry. cbn [fst snd]. auto. }
    destruct Hsome as [a' Ha']. rewrite Ha'. f_equal.
    apply last_value_elem in Ha'.
    apply list_elem_of_omap in Ha' as (f' & _ & He).
    apply Hentry in He as [_ Ha'']. cbn [fst snd] in Ha''. congruence.
Qed.

Lemma new_files_of_fresh (md : dict GD.metadata) files f :
  f ∈ GD.new_files_of md files -> dict_contains (GD.id f) md = false.
Proof.
  unfold GD.new_files_of. intros Hf.
  apply list_elem_of_In, List.filter_In in Hf as [_ Hf].
  apply negb_true_iff, Hf.
Qed.

(** A build over a loaded cache with one new file that fails among new
    files that are processed without error. *)
Lemma gd_merge_one_bad feats md files l1 bad l2 e (s : @GD.state blob) :
  gd_loaded_index s = Ok (feats, md) ->
  GD.drive_files_list (GD.folder_id (GD.self s)) = Ok files ->
  GD.new_files_of md files = l1 ++ bad :: l2 ->
  GD.writable (GD.env s) = true ->
  NoDup (GD.id <$> l1 ++ bad :: l2) ->
  (forall k, dict_contains k feats = true -> dict_contains k md = true) ->
  gd_all_ok (l1 ++ l2) ->
  gd_extract (GD.id bad) = Raise e ->
  let r := GD.build_index s in
  fst r = Ok tt
  /\ dict_len (GD.image_features (GD.self (snd r)))
     = (dict_len feats + length (l1 ++ l2))%nat
  /\ dict_len (GD.image_metadata (GD.self (snd r)))
     = (dict_len md + length (l1 ++ l2))%nat
  /\ warnings (GD.ui (GD.env (snd r)))
     = warnings (GD.ui (GD.env s))
       ++ [GD.St_warning ("Error processing " ++ GD.name bad ++ ": " ++ exn_str e)]
  /\ (forall f a, f ∈ l1 ++ l2 -> gd_extract (GD.id f) = Ok a ->
        dict_get (GD.id f) (GD.image_features (GD.self (snd r))) = Some a)
  /\ dict_get (GD.id bad) (GD.image_features (GD.self (snd r))) = None
  /\ (forall k, dict_contains k md = true ->
        dict_get k (GD.image_features (GD.self (snd r))) = dict_get k feats).
Proof.
  intros Hl Hls Hnf Hw Hnd Hsub Hok He r. subst r.
  assert (Hne : GD.new_files_of md files <> [])
    by (rewrite Hnf; destruct l1; discriminate).
  rewrite (gd_build_index_new feats md files s Hl Hls Hne Hw). cbn [fst snd].
  destruct (gd_built_index feats md (GD.new_files_of md files) s) as (-> & -> & ->).
  assert (Hfresh_md : forall f, f ∈ l1 ++ bad :: l2 -> dict_contains (GD.id f) md = false).
  { intros f Hf. apply (new_files_of_fresh md files). rewrite Hnf. exact Hf. }
  assert (Hfresh_feats : forall f, f ∈ l1 ++ bad :: l2 ->
                                   dict_contains (GD.id f) feats = false).
  { intros f Hf. destruct (dict_contains (GD.id f) feats) eqn:Hc; [|reflexivity].
    specialize (Hsub _ Hc). rewrite (Hfresh_md f Hf) in Hsub. discriminate. }
  rewrite Hnf.
  destruct (gd_entry_keys_NoDup _ Hnd) as [Hk1 Hk2].
  apply Forall_app in Hok as [Hok1 Hok2].
  destruct (gd_all_ok_entries _ Hok1) as (Ha1 & Hb1 & Hc1).
  destruct (gd_all_ok_entries _ Hok2) as (Ha2 & Hb2 & Hc2).
  assert (Hents : omap gd_entry (l1 ++ bad :: l2) = omap gd_entry (l1 ++ l2)).
  { rewrite !omap_app, omap_cons. unfold gd_entry at 2. rewrite He. reflexivity. }
  assert (Hmets : omap gd_meta_entry (l1 ++ bad :: l2) = omap gd_meta_entry (l1 ++ l2)).
  { rewrite !omap_app, omap_cons. unfold gd_meta_entry at 2. rewrite He. reflexivity. }
  split; [reflexivity|]. split; [|split; [|split; [|split; [|split]]]].
  - rewrite dict_len_set_all_fresh.
    + rewrite Hents, omap_app, !length_app, Ha1, Ha2. reflexivity.
    + exact Hk1.
    + intros k Hk. apply list_elem_of_fmap in Hk as (kv & -> & Hkv).
      apply list_elem_of_omap in Hkv as (f & Hf & Hent).
      rewrite (gd_entry_key f kv Hent). apply Hfresh_feats, Hf.
  - rewrite dict_len_set_all_fresh.
    + rewrite Hmets, omap_app, !length_app, Hb1, Hb2. reflexivity.
    + exact Hk2.
    + intros k Hk. apply list_elem_of_fmap in Hk as (kv & -> & Hkv).
      apply list_elem_of_omap in Hkv as (f & Hf & Hent).
      rewrite (gd_meta_entry_key f kv Hent). apply Hfresh_md, Hf.
  - f_equal. rewrite omap_app, omap_cons. unfold gd_warning at 2. rewrite He.
    rewrite Hc1, Hc2. reflexivity.
  - intros f a Hf Ha. rewrite dict_get_set_all.
    assert (Hlast : last_value (GD.id f) (omap gd_entry (l1 ++ bad :: l2)) = Some a).
    { apply last_value_gd_entries. exists f. split; [|auto].
      apply elem_of_app in Hf as [Hf|Hf]; apply elem_of_app;
        [left; exact Hf | right; right; exact Hf]. }
    rewrite Hlast. reflexivity.
  - rewrite dict_get_set_all.
    destruct (last_value (GD.id bad) (omap gd_entry (l1 ++ bad :: l2))) as [a|] eqn:Hlast.
    + apply last_value_gd_entries in Hlast as (f & _ & _ & Ha). congruence.
    + assert (Hc : dict_contains (GD.id bad) feats = false)
        by (apply Hfresh_feats, elem_of_app; right; left).
      unfold dict_contains in Hc. destruct (dict_get (GD.id bad) feats); [discriminate|].
      reflexivity.
  - intros k Hk. rewrite dict_get_set_all, <- Hnf.
    rewrite (last_value_new_files gd_entry gd_entry_key k md files Hk). reflexivity.
Qed.
End DriveMerge.

(** ** A rebuild of the local index with one file that fails *)

Section AppOneBad.
Context {blob : Type} {CV : Cv2} {SK : Skimage} {PK : Pickle (dict ndarray) blob}.

(** The entries of a listing with one image file that cannot be read: the
    other files have their features, the bad one has none. *)
Lemma app_entries_one_bad dir l1 bad l2 e :
  app_extract (os_path_join dir bad) = Raise e ->
  let d := dict_set_all (omap (app_entry dir) (l1 ++ bad :: l2)) [] in
  (forall n a, n ∈ l1 ++ l2 -> is_image n = true ->
     app_extract (os_path_join dir n) = Ok a ->
     dict_get (os_path_join dir n) d = Some a)
  /\ dict_get (os_path_join dir bad) d = None.
Proof.
  intros He d. subst d. split.
  - intros n a Hn Hi Ha. rewrite dict_get_set_all.
    assert (Hlast : last_value (os_path_join dir n)
                      (omap (app_entry dir) (l1 ++ bad :: l2)) = Some a).
    { apply last_value_app_entries. exists n. split; [|auto].
      apply elem_of_app in Hn as [Hn|Hn]; apply elem_of_app;
        [left; exact Hn | right; right; exact Hn]. }
    rewrite Hlast. reflexivity.
  - rewrite dict_get_set_all.
    destruct (last_value (os_path_join dir bad)
                (omap (app_entry dir) (l1 ++ bad :: l2))) as [a|] eqn:Hlast;
      [|reflexivity].
    apply last_value_app_entries in Hlast as (n & _ & _ & _ & Ha). congruence.
Qed.
End AppOneBad.

(** ** One item that fails *)

(** C2.  One item that fails does not fail the operation.

    (1) app.py, a build that goes through the directory, over a listing
    with one image file that cannot be read among files that are processed
    without error: [build_index] returns, prints one line for the bad file,
    and leaves an index with exactly as many entries as there are other
    image files, each of them with its feature, and none for the bad file.

    (2) searchAPP.py, a build over any cache that loads (or none), when one
    of the new files of the listing fails among new files that are
    processed without error: [build_index] returns, shows one warning for
    the bad file, and adds exactly one entry per other new file to the
    loaded features and metadata, each with its feature; the bad file has
    no entry and the loaded entries are as they were.

    (3, 4) [search] from any state whose index step returns, over an index
    in which the comparison with one entry raises: [search] returns the
    ranking of the other entries; when their comparisons succeed with the
    scores [scores], that is the sorted and sliced list of those among them
    that clear the threshold, and one line is printed for the entry that
    failed. *)
Theorem item_errors_are_isolated :
  (forall (blob : Type) (CV : Cv2) (SK : Skimage) (PK : Pickle (dict ndarray) blob)
          (os_listdir : string -> result (list string))
          (force_rebuild : bool) (s : @App.state blob)
          (l1 : list string) (bad : string) (l2 : list string) (e : exn),
      let dir := App.image_directory (App.self s) in
      app_rebuilds force_rebuild s ->
      os_listdir dir = Ok (l1 ++ bad :: l2) ->
      App.writable (App.env s) = true ->
      NoDup (l1 ++ bad :: l2) ->
      Forall (fun n => String.prefix "/" n = false) (l1 ++ bad :: l2) ->
      app_all_ok dir (l1 ++ l2) ->
      is_image bad = true ->
      app_extract (os_path_join dir bad) = Raise e ->
      let r := App.build_index os_listdir force_rebuild s in
      fst r = Ok tt
      /\ dict_len (App.image_features (App.self (snd r)))
         = length (List.filter is_image (l1 ++ l2))
      /\ App.stdout (App.env (snd r))
         = App.stdout (App.env s)
           ++ [("Error processing " ++ os_path_join dir bad ++ ": " ++ exn_str e)%string]
      /\ (forall n a, n ∈ l1 ++ l2 -> is_image n = true ->
            app_extract (os_path_join dir n) = Ok a ->
            dict_get (os_path_join dir n) (App.image_features (App.self (snd r)))
            = Some a)
      /\ dict_get (os_path_join dir bad) (App.image_features (App.self (snd r)))
         = None)
  /\
  (forall (blob : Type) (CV : Cv2) (SK : Skimage) (DR : GD.Drive)
          (PK : Pickle GD.cached_data blob) (s : @GD.state blob)
          (feats : dict ndarray) (md : dict GD.metadata) (files : list GD.file)
          (l1 : list GD.file) (bad : GD.file) (l2 : list GD.file) (e : exn),
      gd_loaded_index s = Ok (feats, md) ->
      GD.drive_files_list (GD.folder_id (GD.self s)) = Ok files ->
      GD.new_files_of md files = l1 ++ bad :: l2 ->
      GD.writable (GD.env s) = true ->
      NoDup (GD.id <$> l1 ++ bad :: l2) ->
      (forall k, dict_contains k feats = true -> dict_contains k md = true) ->
      gd_all_ok (l1 ++ l2) ->
      gd_extract (GD.id bad) = Raise e ->
      let r := GD.build_index s in
      fst r = Ok tt
      /\ dict_len (GD.image_features (GD.self (snd r)))
         = (dict_len feats + length (l1 ++ l2))%nat
      /\ dict_len (GD.image_metadata (GD.self (snd r)))
         = (dict_len md + length (l1 ++ l2))%nat
      /\ warnings (GD.ui (GD.env (snd r)))
         = warnings (GD.ui (GD.env s))
           ++ [GD.St_warning ("Error processing " ++ GD.name bad ++ ": " ++ exn_str e)]
      /\ (forall f a, f ∈ l1 ++ l2 -> gd_extract (GD.id f) = Ok a ->
            dict_get (GD.id f) (GD.image_features (GD.self (snd r))) = Some a)
      /\ dict_get (GD.id bad) (GD.image_features (GD.self (snd r))) = None
      /\ (forall k, dict_contains k md = true ->
            dict_get k (GD.image_features (GD.self (snd r))) = dict_get k feats))
  /\
  (forall (blob : Type) (CV : Cv2) (SK : Skimage) (PK : Pickle (dict ndarray) blob)
          (os_listdir : string -> result (list string))
          (path : string) (q : ndarray) (t : pyfloat) (n : Z) (s : @App.state blob)
          (l1 : dict ndarray) (k : string) (img : ndarray) (l2 : dict ndarray) (e : exn),
      let step := app_index_step os_listdir s in
      fst step = Ok tt ->
      app_extract path = Ok q ->
      App.image_features (App.self (snd step)) = l1 ++ (k, img) :: l2 ->
      ssim q img = Raise e ->
      let r := App.search os_listdir path t n s in
      fst r = Ok (rank q t n (l1 ++ l2))
      /\ forall scores,
           scores_of q (l1 ++ l2) scores ->
           fst r = Ok (slice_to (sort_reverse snd (passing t (l1 ++ l2).*1 scores)) n)
           /\ App.stdout (App.env (snd r))
              = App.stdout (App.env (snd step))
                ++ [("Error comparing with " ++ k ++ ": " ++ exn_str e)%string])
  /\
  (forall (blob : Type) (CV : Cv2) (SK : Skimage) (DR : GD.Drive)
          (PK : Pickle GD.cached_data blob)
          (query : GD.query_image) (q : ndarray) (t : pyfloat) (n : Z)
          (s : @GD.state blob)
          (l1 : dict ndarray) (k : string) (img : ndarray) (l2 : dict ndarray) (e : exn),
      let step := gd_index_step s in
      fst step = Ok tt ->
      gd_query query = Ok q ->
      GD.image_features (GD.self (snd step)) = l1 ++ (k, img) :: l2 ->
      ssim q img = Raise e ->
      let r := GD.search query t n s in
      fst r = Ok (rank q t n (l1 ++ l2))
      /\ forall scores,
           scores_of q (l1 ++ l2) scores ->
           fst r = Ok (slice_to (sort_reverse snd (passing t (l1 ++ l2).*1 scores)) n)
           /\ GD.stdout (GD.env (snd r))
              = GD.stdout (GD.env (snd step))
                ++ [("Error comparing with " ++ k ++ ": " ++ exn_str e)%string]).
Proof.
  split; [|split; [|split]].
  - intros blob CV SK PK os_listdir force_rebuild s l1 bad l2 e dir
      Hre Hls Hw Hnd Hplain Hok Hbad He r. subst r dir.
    rewrite (app_build_index_rebuild _ _ _ _ Hre Hls Hw).
    destruct (app_rebuilt_one_bad _ _ _ _ _ Hnd Hplain Hok Hbad He) as [Hlen Herr].
    destruct (app_entries_one_bad (App.image_directory (App.self s)) l1 bad l2 e He)
      as [Hothers Hnone].
    unfold app_rebuilt. cbn [fst snd App.self App.env App.image_features App.stdout].
    rewrite Herr. auto.
  - intros blob CV SK DR PK s feats md files l1 bad l2 e.
    apply gd_merge_one_bad.
  - intros blob CV SK PK os_listdir path q t n s l1 k img l2 e step
      Hstep Hq Hf He r. subst r. rewrite app_search_step. fold step.
    destruct step as [[[]|e0] s1]; [|discriminate]. cbn [fst snd] in *.
    rewrite Hq, Hf. cbn [fst snd]. unfold rank. rewrite (scan_skip q t l1 k img l2 e He).
    split; [reflexivity|]. intros scores Hsc.
    rewrite (scan_scores q t (l1 ++ l2) scores Hsc).
    split; [reflexivity|].
    cbn [app_printed App.env App.stdout].
    rewrite (scan_errors_one_bad q l1 k img l2 e scores He Hsc). reflexivity.
  - intros blob CV SK DR PK query q t n s l1 k img l2 e step
      Hstep Hq Hf He r. subst r. rewrite gd_search_step. fold step.
    destruct step as [[[]|e0] s1]; [|discriminate]. cbn [fst snd] in *.
    rewrite Hq, Hf. cbn [fst snd]. unfold rank. rewrite (scan_skip q t l1 k img l2 e He).
    split; [reflexivity|]. intros scores Hsc.
    rewrite (scan_scores q t (l1 ++ l2) scores Hsc).
    split; [reflexivity|].
    cbn [gd_printed GD.env GD.stdout].
    rewrite (scan_errors_one_bad q l1 k img l2 e scores He Hsc). reflexivity.
Qed.

(** The theorem for C2 in the demo world: the directory holds one file that
    is no image; the Drive engine finds the hand-written cache and a folder
    of three new files, one of them empty; the local engine finds an index
    file with an entry of another shape than the query; and the Drive engine
    finds the hand-written cache, with such an entry, and an empty folder. *)
Lemma item_errors_are_isolated_witness :
  (let r := Demo.app_build_index true Demo.app_fresh in
   fst r = Ok tt
   /\ dict_len (App.image_features (App.self (snd r))) = 3%nat
   /\ App.stdout (App.env (snd r))
      = ["Error processing imgs/bad.png: Could not read image: imgs/bad.png"]
   /\ (forall n a, n ∈ ["a.png"; "b.JPG"; "notes.txt"] ++ ["c.png"] ->
         is_image n = true ->
         app_extract (CV := Demo.cv2) (os_path_join "imgs" n) = Ok a ->
         dict_get (os_path_join "imgs" n) (App.image_features (App.self (snd r)))
         = Some a)
   /\ dict_get (os_path_join "imgs" "bad.png") (App.image_features (App.self (snd r)))
      = None)
  /\ (let r := Demo.gd_build_index Demo.gd_snapshot in
      fst r = Ok tt
      /\ dict_len (GD.image_features (GD.self (snd r))) = 6%nat
      /\ dict_len (GD.image_metadata (GD.self (snd r))) = 6%nat
      /\ warnings (GD.ui (GD.env (snd r)))
         = [GD.St_warning "Error processing bad.png: Could not decode image"]
      /\ dict_get "id-bad" (GD.image_features (GD.self (snd r))) = None)
  /\ (exists q,
        app_extract (CV := Demo.cv2) "imgs/a.png" = Ok q
        /\ fst (Demo.app_search "imgs/a.png" (F_fin (1 # 5)) 3
                  (Demo.app_with_file
                     (Some (App.image_features (App.self Demo.app_stale)))))
           = Ok (rank (SK := Demo.skimage) q (F_fin (1 # 5)) 3
                   ([] ++ App.image_features (App.self Demo.app_built))))
  /\ (fst (GD.search (CV := Demo.cv2) (SK := Demo.skimage) (DR := EmptyFolder.drive)
             (PK := Demo.pickle _) (GD.Array (Demo.flat 10)) (F_fin (1 # 5)) 3
             Demo.gd_snapshot)
      = Ok (slice_to (sort_reverse snd
                        (passing (F_fin (1 # 5)) ["id-x"; "id-y"; "id-z"]
                           [F_fin (255 # 255); F_fin (65 # 255); F_fin (255 # 255)])) 3)
      /\ GD.stdout
           (GD.env (snd (GD.search (CV := Demo.cv2) (SK := Demo.skimage)
                           (DR := EmptyFolder.drive) (PK := Demo.pickle _)
                           (GD.Array (Demo.flat 10)) (F_fin (1 # 5)) 3 Demo.gd_snapshot)))
         = ["Error comparing with id-w: Input images must have the same dimensions."]).
Proof.
  split; [|split; [|split]].
  - apply (proj1 item_errors_are_isolated _ Demo.cv2 Demo.skimage
             (Demo.pickle _) Demo.listdir true Demo.app_fresh
             ["a.png"; "b.JPG"; "notes.txt"] "bad.png" ["c.png"]
             (mk_exn "ValueError" "Could not read image: imgs/bad.png")).
    + left. reflexivity.
    + reflexivity.
    + reflexivity.
    + apply (bool_decide_unpack _). reflexivity.
    + repeat constructor.
    + repeat constructor; intros H; try discriminate H; eexists; reflexivity.
    + reflexivity.
    + reflexivity.
  - pose proof (proj1 (proj2 item_errors_are_isolated) _ Demo.cv2 Demo.skimage
                  Demo.drive (Demo.pickle _) Demo.gd_snapshot
                  Demo.gd_index Demo.gd_index_metadata Demo.folder
                  [GD.mk_file "id-a" "a.png" "image/png";
                   GD.mk_file "id-b" "b.JPG" "image/jpeg"]
                  (GD.mk_file "id-bad" "bad.png" "image/png") []
                  (mk_exn "ValueError" "Could not decode image")
                  eq_refl eq_refl eq_refl eq_refl) as W.
    cbv zeta in W.
    destruct W as (W1 & W2 & W3 & W4 & _ & W6 & _).
    + apply (bool_decide_unpack _). reflexivity.
    + intros k Hk. rewrite <- (demo_same_keys k). exact Hk.
    + repeat constructor; eexists; reflexivity.
    + reflexivity.
    + cbv zeta. repeat split; assumption.
  - eexists. split; [reflexivity|].
    refine (proj1 (proj1 (proj2 (proj2 item_errors_are_isolated)) _ Demo.cv2
                     Demo.skimage (Demo.pickle _) Demo.listdir "imgs/a.png" _
                     (F_fin (1 # 5)) 3%Z
                     (Demo.app_with_file
                        (Some (App.image_features (App.self Demo.app_stale))))
                     [] "imgs/old.png" (Demo.flat 10)
                     (App.image_features (App.self Demo.app_built))
                     (mk_exn "ValueError" "Input images must have the same dimensions.")
                     _ _ _ _)); reflexivity.
  - refine (proj2 (proj2 (proj2 (proj2 item_errors_are_isolated)) _ Demo.cv2
                     Demo.skimage EmptyFolder.drive (Demo.pickle _)
                     (GD.Array (Demo.flat 10)) (Demo.flat 10) (F_fin (1 # 5)) 3%Z
                     Demo.gd_snapshot
                     (take 3 Demo.gd_index) "id-w"
                     {| nd_dtype := uint8; nd_shape := [1; 1]%nat; nd_data := [10%Z] |} []
                     (mk_exn "ValueError" "Input images must have the same dimensions.")
                     _ _ _ _)
              [F_fin (255 # 255); F_fin (65 # 255); F_fin (255 # 255)] _);
      try reflexivity.
    repeat constructor.
Defined.

(** ** Nothing found *)

(** C8.  In both engines, from every state of the engine, indexed or not:
    when the index step of [search] returns and the query is preprocessed
    to [q], [search] on an empty index returns the empty list, and so does
    [search] on an index none of whose entries has a score that clears the
    threshold; in both cases [search] returns normally, whatever the
    limit. *)
Theorem search_nothing_found_is_empty :
  (forall (blob : Type) (CV : Cv2) (SK : Skimage) (PK : Pickle (dict ndarray) blob)
          (os_listdir : string -> result (list string))
          (path : string) (q : ndarray) (t : pyfloat) (n : Z) (s : @App.state blob),
      let step := app_index_step os_listdir s in
      fst step = Ok tt ->
      app_extract path = Ok q ->
      (App.image_features (App.self (snd step)) = [] ->
       App.search os_listdir path t n s = (Ok [], snd step))
      /\ (Forall (fun item => forall sc, ssim q item.2 = Ok sc -> float_ge sc t = false)
                 (App.image_features (App.self (snd step))) ->
          fst (App.search os_listdir path t n s) = Ok []))
  /\
  (forall (blob : Type) (CV : Cv2) (SK : Skimage) (DR : GD.Drive)
          (PK : Pickle GD.cached_data blob)
          (query : GD.query_image) (q : ndarray) (t : pyfloat) (n : Z)
          (s : @GD.state blob),
      let step := gd_index_step s in
      fst step = Ok tt ->
      gd_query query = Ok q ->
      (GD.image_features (GD.self (snd step)) = [] ->
       GD.search query t n s = (Ok [], snd step))
      /\ (Forall (fun item => forall sc, ssim q item.2 = Ok sc -> float_ge sc t = false)
                 (GD.image_features (GD.self (snd step))) ->
          fst (GD.search query t n s) = Ok [])).
Proof.
  split.
  - intros blob CV SK PK os_listdir path q t n s step Hstep Hq.
    rewrite app_search_step. fold step.
    destruct step as [[[]|e0] s1]; [|discriminate]. cbn [fst snd] in *.
    rewrite Hq. split.
    + intros ->. unfold rank. cbn [scan omap list_omap scan_errors sort_reverse foldr].
      rewrite slice_to_nil, app_printed_nil. reflexivity.
    + intros Hall. cbn [fst]. f_equal. apply rank_none, Hall.
  - intros blob CV SK DR PK query q t n s step Hstep Hq.
    rewrite gd_search_step. fold step.
    destruct step as [[[]|e0] s1]; [|discriminate]. cbn [fst snd] in *.
    rewrite Hq. split.
    + intros ->. unfold rank. cbn [scan omap list_omap scan_errors sort_reverse foldr].
      rewrite slice_to_nil, gd_printed_nil. reflexivity.
    + intros Hall. cbn [fst]. f_equal. apply rank_none, Hall.
Qed.

(** The theorem for C8 at the demo engines: the local engine with an empty
    index and with a threshold of 2 that no score reaches; the Drive engine
    that was never indexed, over an empty folder; and the Drive engine with
    the hand-written index and the threshold of 2. *)
Lemma search_nothing_found_is_empty_witness :
  (Demo.app_search "imgs/a.png" (F_fin (1 # 5)) 3 Demo.app_empty
   = (Ok [], snd (app_index_step (CV := Demo.cv2) (PK := Demo.pickle _)
                    Demo.listdir Demo.app_empty))
   /\ fst (Demo.app_search "imgs/a.png" (F_fin 2) 3 Demo.app_fresh) = Ok [])
  /\ (GD.search (CV := Demo.cv2) (SK := Demo.skimage) (DR := EmptyFolder.drive)
        (PK := Demo.pickle _) (GD.Array (Demo.flat 10)) (F_fin (1 # 5)) 3 Demo.gd_fresh
      = (Ok [], snd (gd_index_step (CV := Demo.cv2) (DR := EmptyFolder.drive)
                       (PK := Demo.pickle _) Demo.gd_fresh))
      /\ fst (Demo.gd_search (GD.Array (Demo.flat 10)) (F_fin 2) 3 Demo.gd_loaded) = Ok []).
Proof.
  split; split.
  - refine (proj1 (proj1 search_nothing_found_is_empty _ Demo.cv2 Demo.skimage
                     (Demo.pickle _) Demo.listdir "imgs/a.png" _ (F_fin (1 # 5)) 3%Z
                     Demo.app_empty _ _) _); reflexivity.
  - refine (proj2 (proj1 search_nothing_found_is_empty _ Demo.cv2 Demo.skimage
                     (Demo.pickle _) Demo.listdir "imgs/a.png" _ (F_fin 2) 3%Z
                     Demo.app_fresh _ _) _);
      [reflexivity | reflexivity | apply none_clears_test; reflexivity].
  - refine (proj1 (proj2 search_nothing_found_is_empty _ Demo.cv2 Demo.skimage
                     EmptyFolder.drive (Demo.pickle _) (GD.Array (Demo.flat 10)) _
                     (F_fin (1 # 5)) 3%Z Demo.gd_fresh _ _) _); reflexivity.
  - refine (proj2 (proj2 search_nothing_found_is_empty _ Demo.cv2 Demo.skimage
                     Demo.drive (Demo.pickle _) (GD.Array (Demo.flat 10)) _
                     (F_fin 2) 3%Z Demo.gd_loaded _ _) _);
      [reflexivity | reflexivity | apply none_clears_test; reflexivity].
Defined.

(** ** Limits below one *)

(** X25.  Limits that are not positive do not make [search] raise.  In
    both engines, from every state whose index step returns and for every
    query that is preprocessed, there is a list [r] that [search] returns
    for every limit from the number of index entries on (the full ranking),
    and with the same final state [search] returns the empty list for
    limit [0] and, for a negative limit [-k], [r] without its last [k]
    entries. *)
Theorem search_with_limit_below_one :
  (forall (blob : Type) (CV : Cv2) (SK : Skimage) (PK : Pickle (dict ndarray) blob)
          (os_listdir : string -> result (list string))
          (path : string) (q : ndarray) (t : pyfloat) (s : @App.state blob),
      let step := app_index_step os_listdir s in
      fst step = Ok tt ->
      app_extract path = Ok q ->
      exists r s',
        (forall N : Z,
           (Z.of_nat (dict_len (App.image_features (App.self (snd step)))) <= N)%Z ->
           App.search os_listdir path t N s = (Ok r, s'))
        /\ App.search os_listdir path t 0 s = (Ok [], s')
        /\ forall k : nat,
             (0 < k)%nat ->
             App.search os_listdir path t (- Z.of_nat k) s
             = (Ok (take (length r - k) r), s'))
  /\
  (forall (blob : Type) (CV : Cv2) (SK : Skimage) (DR : GD.Drive)
          (PK : Pickle GD.cached_data blob)
          (query : GD.query_image) (q : ndarray) (t : pyfloat) (s : @GD.state blob),
      let step := gd_index_step s in
      fst step = Ok tt ->
      gd_query query = Ok q ->
      exists r s',
        (forall N : Z,
           (Z.of_nat (dict_len (GD.image_features (GD.self (snd step)))) <= N)%Z ->
           GD.search query t N s = (Ok r, s'))
        /\ GD.search query t 0 s = (Ok [], s')
        /\ forall k : nat,
             (0 < k)%nat ->
             GD.search query t (- Z.of_nat k) s
             = (Ok (take (length r - k) r), s')).
Proof.
  assert (Hslice : forall (SK : Skimage) q t (items : list (string * ndarray)),
            let r := sort_reverse snd (scan q t items) in
            (forall N : Z, (Z.of_nat (length items) <= N)%Z -> rank q t N items = r)
            /\ rank q t 0 items = []
            /\ forall k : nat, (0 < k)%nat ->
                 rank q t (- Z.of_nat k) items = take (length r - k) r).
  { intros SK q t items r. unfold rank. fold r.
    assert (Hlen : (length r <= length items)%nat).
    { subst r. rewrite sort_reverse_length. apply scan_length. }
    split; [|split].
    - intros N HN. rewrite slice_to_nonneg by lia. apply take_ge. lia.
    - reflexivity.
    - intros k Hk. unfold slice_to.
      destruct (Z.leb_spec 0 (- Z.of_nat k)); [lia|].
      rewrite Z.opp_involutive, Nat2Z.id. reflexivity. }
  split.
  - intros blob CV SK PK os_listdir path q t s step Hstep Hq.
    assert (Hsearch : forall N,
              App.search os_listdir path t N s
              = (Ok (rank q t N (App.image_features (App.self (snd step)))),
                 app_printed (scan_errors q (App.image_features (App.self (snd step))))
                   (snd step))).
    { intros N. rewrite app_search_step. fold step.
      destruct step as [[[]|e0] s1]; [|discriminate]. cbn [fst snd] in *.
      rewrite Hq. reflexivity. }
    destruct (Hslice SK q t (App.image_features (App.self (snd step))))
      as (Hall & Hzero & Hneg).
    eexists _, _. split; [|split].
    + intros N HN. rewrite Hsearch, (Hall N HN). reflexivity.
    + rewrite Hsearch, Hzero. reflexivity.
    + intros k Hk. rewrite Hsearch, (Hneg k Hk). reflexivity.
  - intros blob CV SK DR PK query q t s step Hstep Hq.
    assert (Hsearch : forall N,
              GD.search query t N s
              = (Ok (rank q t N (GD.image_features (GD.self (snd step)))),
                 gd_printed (scan_errors q (GD.image_features (GD.self (snd step))))
                   (snd step))).
    { intros N. rewrite gd_search_step. fold step.
      destruct step as [[[]|e0] s1]; [|discriminate]. cbn [fst snd] in *.
      rewrite Hq. reflexivity. }
    destruct (Hslice SK q t (GD.image_features (GD.self (snd step))))
      as (Hall & Hzero & Hneg).
    eexists _, _. split; [|split].
    + intros N HN. rewrite Hsearch, (Hall N HN). reflexivity.
    + rewrite Hsearch, Hzero. reflexivity.
    + intros k Hk. rewrite Hsearch, (Hneg k Hk). reflexivity.
Qed.

(** The theorem at the rebuilt local engine and at the Drive engine that
    finds the hand-written cache and an empty folder. *)
Lemma search_with_limit_below_one_witness :
  (exists r s',
     (forall N : Z,
        (Z.of_nat (dict_len (App.image_features
                               (App.self (snd (app_index_step (CV := Demo.cv2)
                                                 (PK := Demo.pickle _) Demo.listdir
                                                 Demo.app_built))))) <= N)%Z ->
        Demo.app_search "imgs/a.png" (F_fin (1 # 5)) N Demo.app_built = (Ok r, s'))
     /\ Demo.app_search "imgs/a.png" (F_fin (1 # 5)) 0 Demo.app_built = (Ok [], s')
     /\ forall k : nat,
          (0 < k)%nat ->
          Demo.app_search "imgs/a.png" (F_fin (1 # 5)) (- Z.of_nat k) Demo.app_built
          = (Ok (take (length r - k) r), s'))
  /\ (exists r s',
        (forall N : Z,
           (Z.of_nat (dict_len (GD.image_features
                                  (GD.self (snd (gd_index_step (CV := Demo.cv2)
                                                   (DR := EmptyFolder.drive)
                                                   (PK := Demo.pickle _)
                                                   Demo.gd_snapshot))))) <= N)%Z ->
           GD.search (CV := Demo.cv2) (SK := Demo.skimage) (DR := EmptyFolder.drive)
             (PK := Demo.pickle _) (GD.Array (Demo.flat 10)) (F_fin (1 # 5)) N
             Demo.gd_snapshot = (Ok r, s'))
        /\ GD.search (CV := Demo.cv2) (SK := Demo.skimage) (DR := EmptyFolder.drive)
             (PK := Demo.pickle _) (GD.Array (Demo.flat 10)) (F_fin (1 # 5)) 0
             Demo.gd_snapshot = (Ok [], s')
        /\ forall k : nat,
             (0 < k)%nat ->
             GD.search (CV := Demo.cv2) (SK := Demo.skimage) (DR := EmptyFolder.drive)
               (PK := Demo.pickle _) (GD.Array (Demo.flat 10)) (F_fin (1 # 5))
               (- Z.of_nat k) Demo.gd_snapshot
             = (Ok (take (length r - k) r), s')).
Proof.
  split.
  - refine (proj1 search_with_limit_below_one _ Demo.cv2 Demo.skimage
              (Demo.pickle _) Demo.listdir "imgs/a.png" _ (F_fin (1 # 5))
              Demo.app_built _ _); reflexivity.
  - refine (proj2 search_with_limit_below_one _ Demo.cv2 Demo.skimage
              EmptyFolder.drive (Demo.pickle _) (GD.Array (Demo.flat 10)) _
              (F_fin (1 # 5)) Demo.gd_snapshot _ _); reflexivity.
Defined.
